(** * Claude relay service: request preparation, health classification,
      SSE usage capture, HTTP/2 session pool and proxy agents

    A shallow embedding of the relay core (the relay service, the beta
    header manager, the HTTP/2 client and the proxy helper) together with
    the properties of section 8 of the specification.

    Conventions of the embedding.
    - A JavaScript value that came out of [JSON.parse] is a [json]; numbers
      are the integer-valued ones (token counts), objects are association
      lists in insertion order, [undefined] is [None] at a property lookup.
    - Strings are sequences of ASCII characters.
    - Code that can throw returns a [result]; [Throw] is a JavaScript
      exception, [Unmodelled] marks an input on which the code relies on a
      numeric coercion of a non-number ([ToNumber] of a string, array or
      object), which the embedding does not cover.
    - Collaborators that are not part of these sources (scheduler, account
      service, key-value store, validator, pricing table, random sources)
      are parameters or appear as calls in an effect log. *)

From Stdlib Require Import ZArith Ascii List Bool Lia.
From stdpp Require Import gmap strings list fin_maps pretty.

Set Warnings "-register-all".
Local Open Scope Z_scope.

(** ** JavaScript strings *)

Module Js.

Definition LF : ascii := ascii_of_nat 10.
Definition DQ : ascii := ascii_of_nat 34.
Definition nl : string := String LF "".
Definition dq : string := String DQ "".

Definition strlen (s : string) : nat := String.length s.

(** [s.startsWith(p)] *)
Definition startsWith (s p : string) : bool := String.prefix p s.

(** [s.includes(sub)] *)
Fixpoint includes (s sub : string) : bool :=
  String.prefix sub s ||
  match s with
  | EmptyString => false
  | String _ s' => includes s' sub
  end.

(** [s.endsWith(suf)]: some suffix of [s] is [suf]. *)
Fixpoint endsWith (s suf : string) : bool :=
  String.eqb s suf ||
  match s with
  | EmptyString => false
  | String _ s' => endsWith s' suf
  end.

(** [s.lastIndexOf(c)] for a one-character needle; [None] is -1. *)
Fixpoint lastIndexOf (c : ascii) (s : string) : option nat :=
  match s with
  | EmptyString => None
  | String a s' =>
      match lastIndexOf c s' with
      | Some i => Some (S i)
      | None => if Ascii.eqb a c then Some 0%nat else None
      end
  end.

(** [s.substring(0, n)] and [s.substring(n)] *)
Definition take (n : nat) (s : string) : string := String.substring 0 n s.
Definition drop (n : nat) (s : string) : string :=
  String.substring n (strlen s - n) s.

(** [s.slice(0, -n)] *)
Definition dropRight (n : nat) (s : string) : string := take (strlen s - n) s.

Definition lower_ascii (c : ascii) : ascii :=
  let n := nat_of_ascii c in
  if (65 <=? n)%nat && (n <=? 90)%nat then ascii_of_nat (n + 32) else c.

(** [s.toLowerCase()] *)
Fixpoint toLowerCase (s : string) : string :=
  match s with
  | EmptyString => EmptyString
  | String c s' => String (lower_ascii c) (toLowerCase s')
  end.

Fixpoint trimStart (s : string) : string :=
  match s with
  | EmptyString => EmptyString
  | String c s' => if Ascii.is_space c then trimStart s' else s
  end.

(** [s.trim()] *)
Definition trim (s : string) : string :=
  String.rev (trimStart (String.rev (trimStart s))).

(** [s.split(sep)] for a one-character separator: never empty. *)
Fixpoint split (sep : ascii) (s : string) : list string :=
  match s with
  | EmptyString => [EmptyString]
  | String c s' =>
      if Ascii.eqb c sep then EmptyString :: split sep s'
      else match split sep s' with
           | h :: t => String c h :: t
           | [] => [String c EmptyString]
           end
  end.

(** [l.join(sep)] *)
Fixpoint join (sep : string) (l : list string) : string :=
  match l with
  | [] => EmptyString
  | [x] => x
  | x :: t => x +:+ sep +:+ join sep t
  end.

(** The character [c] occurs in [s]. *)
Fixpoint contains (c : ascii) (s : string) : bool :=
  match s with
  | EmptyString => false
  | String a s' => Ascii.eqb a c || contains c s'
  end.

(** [s.replaceAll(target, repl)] for a non-empty [target]: left to right,
    matches do not overlap. [skip] counts the characters of a match still
    to be dropped. *)
Fixpoint replaceAll_go (target repl : string) (skip : nat) (s : string) : string :=
  match s with
  | EmptyString => EmptyString
  | String c s' =>
      match skip with
      | S k => replaceAll_go target repl k s'
      | O =>
          if String.prefix target s
          then repl +:+ replaceAll_go target repl (strlen target - 1) s'
          else String c (replaceAll_go target repl 0 s')
      end
  end.

Definition replaceAll (s target repl : string) : string :=
  replaceAll_go target repl 0 s.

(** A JavaScript [Set] of strings: insertion order, no repeats. *)
Definition set_add (x : string) (l : list string) : list string :=
  if bool_decide (x ∈ l) then l else l ++ [x].

Definition set_has (x : string) (l : list string) : bool := bool_decide (x ∈ l).

(** ** JSON values *)

Inductive json : Type :=
| JNull
| JBool (b : bool)
| JNum (n : Z)
| JStr (s : string)
| JArr (items : list json)
| JObj (fields : list (string * json)).

(** Outcome of code that can throw. *)
Inductive result (A : Type) : Type :=
| Ok (a : A)
| Throw (msg : string)
| Unmodelled.
Arguments Ok {A} a.
Arguments Throw {A} msg.
Arguments Unmodelled {A}.

#[global] Instance result_ret : MRet result := fun _ a => Ok a.
#[global] Instance result_bind : MBind result := fun _ _ k r =>
  match r with
  | Ok a => k a
  | Throw m => Throw m
  | Unmodelled => Unmodelled
  end.

(** Truthiness of a value, and of a property that may be [undefined]. *)
Definition truthy (v : json) : bool :=
  match v with
  | JNull => false
  | JBool b => b
  | JNum n => negb (n =? 0)
  | JStr s => negb (String.eqb s "")
  | JArr _ | JObj _ => true
  end.

Definition truthy_opt (o : option json) : bool :=
  match o with Some v => truthy v | None => false end.

Fixpoint assoc_get (k : string) (fs : list (string * json)) : option json :=
  match fs with
  | [] => None
  | (k', v) :: t => if String.eqb k' k then Some v else assoc_get k t
  end.

(** [o[k] = v]: an existing key keeps its place, a new key goes last. *)
Fixpoint assoc_set (k : string) (v : json) (fs : list (string * json))
  : list (string * json) :=
  match fs with
  | [] => [(k, v)]
  | (k', v') :: t =>
      if String.eqb k' k then (k, v) :: t else (k', v') :: assoc_set k v t
  end.

(** [delete o[k]] *)
Fixpoint assoc_del (k : string) (fs : list (string * json))
  : list (string * json) :=
  match fs with
  | [] => []
  | (k', v') :: t =>
      if String.eqb k' k then assoc_del k t else (k', v') :: assoc_del k t
  end.

(** [v.k] on a value that is not [null]: only objects carry the keys the
    relay reads. *)
Definition get (k : string) (v : json) : option json :=
  match v with
  | JObj fs => assoc_get k fs
  | _ => None
  end.

(** [v === s] for a string literal [s]. *)
Definition is_str (s : string) (o : option json) : bool :=
  match o with
  | Some (JStr t) => String.eqb t s
  | _ => false
  end.

(** [String(v)] of a parsed value, as a property key or a regular
    expression subject sees it. *)
Fixpoint toString (v : json) : string :=
  match v with
  | JNull => "null"
  | JBool true => "true"
  | JBool false => "false"
  | JNum n => pretty n
  | JStr s => s
  | JArr l =>
      join "," (map (fun x => match x with JNull => "" | _ => toString x end) l)
  | JObj _ => "[object Object]"
  end.

(** [ToNumber] where the embedding covers it. *)
Definition toNumber (v : json) : option Z :=
  match v with
  | JNum n => Some n
  | JBool b => Some (if b then 1 else 0)
  | JNull => Some 0
  | _ => None
  end.

End Js.

(** ** Beta header manager (src/utils/betaHeaderManager.js) *)

Module BetaHeaderManager.
Import Js.

(** A regular expression of [FEATURE_RULES]: [/word/i]. *)
Inductive pattern : Type :=
| IgnoreCase (word : string).

(** [pattern.test(model)] *)
Definition pattern_test (p : pattern) (model : json) : bool :=
  match p with
  | IgnoreCase w => includes (toLowerCase (toString model)) (toLowerCase w)
  end.

(** One entry of [FEATURE_RULES]; a field that the literal leaves out is
    [false] or [None]. *)
Record rule : Type := {
  alwaysInclude : bool;
  models : option (list string);
  patterns : option (list pattern)
}.

Definition FEATURE_RULES : list (string * rule) :=
  [ ("interleaved-thinking-2025-05-14",
     {| alwaysInclude := false;
        models := Some ["claude-sonnet-4-20250514"; "claude-opus-4-20250514";
                        "claude-opus-4-1-20250805"];
        patterns := None |});
    ("claude-code-20250219",
     {| alwaysInclude := false; models := None;
        patterns := Some [IgnoreCase "sonnet"; IgnoreCase "opus"] |});
    ("oauth-2025-04-20",
     {| alwaysInclude := true; models := None; patterns := None |});
    ("fine-grained-tool-streaming-2025-05-14",
     {| alwaysInclude := true; models := None; patterns := None |});
    ("token-counting-2024-11-01",
     {| alwaysInclude := true; models := None; patterns := None |}) ].

Definition FEATURE_ORDER : list string :=
  [ "claude-code-20250219";
    "oauth-2025-04-20";
    "interleaved-thinking-2025-05-14";
    "fine-grained-tool-streaming-2025-05-14";
    "context-1m-2025-08-07";
    "token-counting-2024-11-01" ].

Fixpoint rule_of (feature : string) (rules : list (string * rule)) : option rule :=
  match rules with
  | [] => None
  | (k, r) :: t => if String.eqb k feature then Some r else rule_of feature t
  end.

(** [shouldIncludeFeature(feature, model)]; [model] is whatever the caller
    passes, a string in every intended use. [Array.prototype.includes]
    compares with strict equality, [RegExp.prototype.test] converts its
    argument to a string. *)
Definition shouldIncludeFeature (feature : string) (model : json) : bool :=
  match rule_of feature FEATURE_RULES with
  | None => true
  | Some r =>
      if alwaysInclude r then true
      else match models r with
           | Some ms =>
               match model with
               | JStr m => bool_decide (m ∈ ms)
               | _ => false
               end
           | None =>
               match patterns r with
               | Some ps => existsb (fun p => pattern_test p model) ps
               | None => true
               end
           end
  end.

(** The options of a request that the relay reads. *)
Record requestOptions : Type := {
  customPath : option string;
  betaHeader : option string
}.

(** [requestOptions.customPath && requestOptions.customPath.includes('count_tokens')] *)
Definition isCountTokens (o : requestOptions) : bool :=
  match customPath o with
  | Some p => negb (String.eqb p "") && includes p "count_tokens"
  | None => false
  end.

(** The first loop of [buildBetaHeader]: the admitted tokens of the base
    header, added to the set one by one. *)
Definition add_base (model : json) (features : list string) (piece : string)
  : list string :=
  let trimmed := trim piece in
  if negb (String.eqb trimmed "") && shouldIncludeFeature trimmed model
  then set_add trimmed features
  else features.

(** The set [features] before it is ordered. *)
Definition collectFeatures (model : json) (baseBetaHeader clientBetaHeader : string)
    (o : requestOptions) : list string :=
  let f0 :=
    if String.eqb baseBetaHeader "" then []
    else fold_left (add_base model) (split "," baseBetaHeader) [] in
  let f1 :=
    if negb (String.eqb clientBetaHeader "")
       && includes clientBetaHeader "context-1m-2025-08-07"
    then set_add "context-1m-2025-08-07" f0 else f0 in
  if isCountTokens o then set_add "token-counting-2024-11-01" f1 else f1.

(** [orderedFeatures]: the canonical tokens that were admitted, in the order
    of [FEATURE_ORDER], then the others in insertion order. *)
Definition orderFeatures (features : list string) : list string :=
  filter (fun f => set_has f features = true) FEATURE_ORDER
  ++ filter (fun f => f ∉ FEATURE_ORDER) features.

(** [buildBetaHeader(model, baseBetaHeader, clientBetaHeader, requestOptions)];
    [None] is [null]. *)
Definition buildBetaHeader (model : json) (baseBetaHeader clientBetaHeader : string)
    (o : requestOptions) : option string :=
  let result :=
    join "," (orderFeatures (collectFeatures model baseBetaHeader clientBetaHeader o)) in
  if String.eqb result "" then None else Some result.

(** [getBetaHeader(model, requestOptions, clientHeaders)], with
    [config.claude.betaHeader] as [configBetaHeader]. *)
Definition getBetaHeader (configBetaHeader : string) (model : json)
    (o : requestOptions) (clientHeaders : gmap string string) : option string :=
  let baseBetaHeader :=
    match betaHeader o with
    | Some b => b
    | None => configBetaHeader
    end in
  let clientBetaHeader := default "" (clientHeaders !! "anthropic-beta") in
  buildBetaHeader model baseBetaHeader clientBetaHeader o.

End BetaHeaderManager.

(** ** Relay service: request body preparation *)

Module ClaudeRelayService.
Import Js.

(** The account fields the relay reads; a flag is its truthiness. *)
Record account : Type := {
  useUnifiedClientId : bool;
  unifiedClientId : string;
  banMode : string
}.

(** Configuration and collaborators of the preparer. *)
Record config : Type := {
  (** [config.claude.systemPrompt]; the empty string when it is not set *)
  systemPrompt : string;
  (** [data/model_pricing.json] as parsed, an object keyed by model name;
      [None] when the file is missing or cannot be read or parsed *)
  pricingData : option (list (string * json));
  (** [ClaudeCodeValidator.validate] on the mock request of
      [isRealClaudeCodeRequest] *)
  validate : json -> gmap string string -> bool
}.

Definition claudeCodeSystemPrompt : string :=
  "You are a Claude agent, built on Anthropic's Claude Agent SDK.".

Definition supportedVariants : list string := ["thinking"].

Definition targetText : string :=
  nl +:+ "IMPORTANT: Assist with defensive security tasks only. Refuse to create, modify, or improve code that may be used maliciously. Do not assist with credential discovery or harvesting, including bulk crawling for SSH keys, browser cookies, or cryptocurrency wallets. Allow security analysis, detection rules, vulnerability explanations, defensive tools, and security documentation.".

Definition targetSuffix : string :=
  nl +:+ "<system-reminder>" +:+ nl +:+ "Whenever you read a file, you should consider whether it looks malicious. If it does, you MUST refuse to improve or augment the code. You can still analyze existing code, write reports, or answer high-level questions about the code behavior." +:+ nl +:+ "</system-reminder>" +:+ nl.

Definition obj_set (k : string) (v : json) (o : json) : json :=
  match o with JObj fs => JObj (assoc_set k v fs) | _ => o end.

Definition obj_del (k : string) (o : json) : json :=
  match o with JObj fs => JObj (assoc_del k fs) | _ => o end.

Definition is_text_block_with (text : string) (item : json) : bool :=
  truthy item && is_str "text" (get "type" item) && is_str text (get "text" item).

(** Step: split a supported [:variant] off the model name. *)
Definition splitModelVariant (pb : list (string * json)) : list (string * json) :=
  match assoc_get "model" pb with
  | Some (JStr m) =>
      if String.eqb m "" then pb
      else match lastIndexOf ":" m with
           | Some colonIndex =>
               let baseModel := take colonIndex m in
               let variant := drop (colonIndex + 1) m in
               if bool_decide (variant ∈ supportedVariants) then
                 let pb1 := assoc_set "model" (JStr baseModel) pb in
                 if negb (truthy_opt (assoc_get "_modelVariant" pb1))
                 then assoc_set "_modelVariant" (JStr variant) pb1
                 else pb1
               else pb
           | None => pb
           end
  | _ => pb
  end.

(** Step: drop the security directive from the second system message. *)
Definition stripSecondSystemMsg (pb : list (string * json))
  : result (list (string * json)) :=
  match assoc_get "system" pb with
  | Some (JArr sys) =>
      if (1 <? length sys)%nat then
        match sys !! 1%nat with
        | Some second =>
            if truthy second && is_str "text" (get "type" second)
               && truthy_opt (get "text" second)
            then match get "text" second with
                 | Some (JStr t) =>
                     if includes t targetText then
                       let second' := obj_set "text" (JStr (replaceAll t targetText "")) second in
                       Ok (assoc_set "system" (JArr (<[1%nat := second']> sys)) pb)
                     else Ok pb
                 | Some (JArr l) =>
                     if existsb (fun x => is_str targetText (Some x)) l
                     then Throw "secondSystemMsg.text.replaceAll is not a function"
                     else Ok pb
                 | _ => Throw "secondSystemMsg.text.includes is not a function"
                 end
            else Ok pb
        | None => Ok pb
        end
      else Ok pb
  | _ => Ok pb
  end.

(** Step: strip the system reminder from [tool_result] blocks of user
    messages. *)
Definition stripReminderItem (contentItem : json) : json :=
  if truthy contentItem && is_str "tool_result" (get "type" contentItem) then
    match get "content" contentItem with
    | Some (JStr c) =>
        if endsWith c targetSuffix
        then obj_set "content" (JStr (dropRight (strlen targetSuffix) c)) contentItem
        else contentItem
    | _ => contentItem
    end
  else contentItem.

Definition stripReminderMessage (message : json) : json :=
  if truthy message && is_str "user" (get "role" message) then
    match get "content" message with
    | Some (JArr items) => obj_set "content" (JArr (map stripReminderItem items)) message
    | _ => message
    end
  else message.

Definition stripReminders (pb : list (string * json)) : list (string * json) :=
  match assoc_get "messages" pb with
  | Some (JArr msgs) => assoc_set "messages" (JArr (map stripReminderMessage msgs)) pb
  | _ => pb
  end.

(** [a > b] on values, where both sides are numbers of the embedding. *)
Definition js_gt (a b : json) : result bool :=
  match toNumber a, toNumber b with
  | Some x, Some y => Ok (y <? x)
  | _, _ => Unmodelled
  end.

(** [_validateAndLimitMaxTokens(body)]; the [try] block swallows what the
    lookup in the pricing data throws. *)
Definition _validateAndLimitMaxTokens (cfg : config) (pb : list (string * json))
  : result (list (string * json)) :=
  match assoc_get "max_tokens" pb with
  | None => Ok pb
  | Some max_tokens =>
      if negb (truthy max_tokens) then Ok pb
      else match pricingData cfg with
           | None => Ok pb
           | Some pricing =>
               let model :=
                 match assoc_get "model" pb with
                 | Some m => if truthy m then toString m else "claude-sonnet-4-20250514"
                 | None => "claude-sonnet-4-20250514"
                 end in
               match assoc_get model pricing with
               | None => Ok pb
               | Some modelConfig =>
                   if negb (truthy modelConfig) then Ok pb
                   else
                     let maxLimit :=
                       match get "max_tokens" modelConfig with
                       | Some l => if truthy l then Some l else get "max_output_tokens" modelConfig
                       | None => get "max_output_tokens" modelConfig
                       end in
                     match maxLimit with
                     | None => Ok pb
                     | Some l =>
                         if negb (truthy l) then Ok pb
                         else
                           over ← js_gt max_tokens l;
                           Ok (if over : bool then assoc_set "max_tokens" l pb else pb)
                     end
               end
           end
  end.

(** [_stripTtlFromCacheControl(body)] *)
Definition stripTtlItem (item : json) : json :=
  match item with
  | JObj _ =>
      match get "cache_control" item with
      | Some cc =>
          if truthy cc && truthy_opt (get "ttl" cc)
          then obj_set "cache_control" (obj_del "ttl" cc) item
          else item
      | None => item
      end
  | _ => item
  end.

Definition processContentArray (contentArray : list json) : list json :=
  map stripTtlItem contentArray.

Definition stripTtlMessage (message : json) : json :=
  if truthy message then
    match get "content" message with
    | Some (JArr items) => obj_set "content" (JArr (processContentArray items)) message
    | _ => message
    end
  else message.

Definition _stripTtlFromCacheControl (pb : list (string * json))
  : list (string * json) :=
  let pb1 :=
    match assoc_get "system" pb with
    | Some (JArr sys) => assoc_set "system" (JArr (processContentArray sys)) pb
    | _ => pb
    end in
  match assoc_get "messages" pb1 with
  | Some (JArr msgs) => assoc_set "messages" (JArr (map stripTtlMessage msgs)) pb1
  | _ => pb1
  end.

Definition textBlock (text : string) : json :=
  JObj [("type", JStr "text"); ("text", JStr text)].

Definition claudeCodePrompt : json :=
  JObj [("type", JStr "text"); ("text", JStr claudeCodeSystemPrompt);
        ("cache_control", JObj [("type", JStr "ephemeral")])].

(** Step: put the Claude Code prompt first when the request is not a real
    Claude Code request. *)
Definition injectClaudeCodePrompt (pb : list (string * json)) : list (string * json) :=
  match assoc_get "system" pb with
  | Some sys =>
      if truthy sys then
        match sys with
        | JStr s =>
            if String.eqb (trim s) claudeCodeSystemPrompt
            then assoc_set "system" (JArr [claudeCodePrompt]) pb
            else assoc_set "system" (JArr [claudeCodePrompt; textBlock s]) pb
        | JArr items =>
            let isFirstItemClaudeCode :=
              match items !! 0%nat with
              | Some firstItem => is_text_block_with claudeCodeSystemPrompt firstItem
              | None => false
              end in
            if isFirstItemClaudeCode then pb
            else
              let filteredSystem :=
                List.filter (fun item => negb (is_text_block_with claudeCodeSystemPrompt item)) items in
              assoc_set "system" (JArr (claudeCodePrompt :: filteredSystem)) pb
        | _ => assoc_set "system" (JArr [claudeCodePrompt]) pb
        end
      else assoc_set "system" (JArr [claudeCodePrompt]) pb
  | None => assoc_set "system" (JArr [claudeCodePrompt]) pb
  end.

(** [system.some(item => item && item.text && item.text === systemPrompt)] *)
Definition hasSystemPrompt (sp : string) (items : list json) : bool :=
  existsb (fun item =>
    truthy item && truthy_opt (get "text" item) && is_str sp (get "text" item)) items.

(** [system.some(item => item && item.text && item.text.trim())]: [trim]
    exists on strings only. *)
Fixpoint hasValidContent (items : list json) : result bool :=
  match items with
  | [] => Ok false
  | item :: rest =>
      if truthy item && truthy_opt (get "text" item) then
        match get "text" item with
        | Some (JStr t) =>
            if negb (String.eqb (trim t) "") then Ok true else hasValidContent rest
        | _ => Throw "item.text.trim is not a function"
        end
      else hasValidContent rest
  end.

(** Step: append the configured system prompt, or drop an empty [system]. *)
Definition applySystemPrompt (cfg : config) (pb : list (string * json))
  : result (list (string * json)) :=
  let sp := systemPrompt cfg in
  if negb (String.eqb sp "") && negb (String.eqb (trim sp) "") then
    match assoc_get "system" pb with
    | Some (JArr items) =>
        if hasSystemPrompt sp items then Ok pb
        else Ok (assoc_set "system" (JArr (items ++ [textBlock sp])) pb)
    | _ => Ok (assoc_set "system" (JArr [textBlock sp]) pb)
    end
  else
    match assoc_get "system" pb with
    | Some (JArr items) =>
        valid ← hasValidContent items;
        Ok (if valid : bool then pb else assoc_del "system" pb)
    | _ => Ok pb
    end.

(** Step: [top_p] goes unless it is [undefined] or [null]. *)
Definition dropTopP (pb : list (string * json)) : list (string * json) :=
  match assoc_get "top_p" pb with
  | None => pb
  | Some JNull => pb
  | Some _ => assoc_del "top_p" pb
  end.

Definition is_hex_lower (c : ascii) : bool :=
  let n := nat_of_ascii c in
  ((48 <=? n)%nat && (n <=? 57)%nat) || ((97 <=? n)%nat && (n <=? 102)%nat).

Definition is_hex_dash (c : ascii) : bool :=
  is_hex_lower c || Ascii.eqb c "-".

Fixpoint all_chars (p : ascii -> bool) (s : string) : bool :=
  match s with
  | EmptyString => true
  | String c s' => p c && all_chars p s'
  end.

(** [userId.match(/^user_[a-f0-9]{64}(_account__session_[a-f0-9-]{36})$/)]:
    the first group of the match. *)
Definition match_user_id (userId : string) : option string :=
  let rest := drop 5 userId in
  let client := take 64 rest in
  let group := drop 64 rest in
  let session := drop 18 group in
  if startsWith userId "user_"
     && (strlen client =? 64)%nat && all_chars is_hex_lower client
     && startsWith group "_account__session_"
     && (strlen session =? 36)%nat && all_chars is_hex_dash session
  then Some group else None.

(** [_replaceClientId(body, unifiedClientId)], with the UUID that
    [crypto.randomUUID()] draws as [sessionId]. The class body is strict
    code: writing a property of a primitive throws. *)
Definition _replaceClientId (sessionId : string) (unifiedClientId : string)
    (pb : list (string * json)) : result (list (string * json)) :=
  if String.eqb unifiedClientId "" then Ok pb
  else
    let pb1 :=
      if truthy_opt (assoc_get "metadata" pb) then pb
      else assoc_set "metadata" (JObj []) pb in
    match assoc_get "metadata" pb1 with
    | Some (JObj md) =>
        match assoc_get "user_id" md with
        | Some (JStr userId) =>
            if String.eqb userId "" then
              Ok (assoc_set "metadata" (JObj (assoc_set "user_id"
                    (JStr ("user_" +:+ unifiedClientId +:+ "_account__session_" +:+ sessionId)) md)) pb1)
            else
              match match_user_id userId with
              | Some group =>
                  if String.eqb group "" then Ok pb1
                  else Ok (assoc_set "metadata" (JObj (assoc_set "user_id"
                             (JStr ("user_" +:+ unifiedClientId +:+ group)) md)) pb1)
              | None => Ok pb1
              end
        | Some v =>
            if truthy v then Throw "userId.match is not a function"
            else
              Ok (assoc_set "metadata" (JObj (assoc_set "user_id"
                    (JStr ("user_" +:+ unifiedClientId +:+ "_account__session_" +:+ sessionId)) md)) pb1)
        | None =>
            Ok (assoc_set "metadata" (JObj (assoc_set "user_id"
                  (JStr ("user_" +:+ unifiedClientId +:+ "_account__session_" +:+ sessionId)) md)) pb1)
        end
    | Some (JArr _) => Unmodelled
    | _ => Throw "Cannot create property 'user_id'"
    end.

(** Step: the [thinking] variant, applied last. *)
Definition applyThinking (modelVariant : option json) (pb : list (string * json))
  : result (list (string * json)) :=
  if is_str "thinking" modelVariant then
    budgetTokens ←
      match assoc_get "max_tokens" pb with
      | Some mt =>
          if truthy mt then
            match mt with
            | JNum n => Ok (n - 1)
            | JBool _ => Ok 0
            | _ => Unmodelled
            end
          else Ok 31999
      | None => Ok 31999
      end;
    Ok (assoc_set "thinking"
          (JObj [("type", JStr "enabled"); ("budget_tokens", JNum budgetTokens)]) pb)
  else Ok pb.

(** [_processRequestBody(body, clientHeaders, account, isCountTokens)].
    The deep copy [JSON.parse(JSON.stringify(body))] of a parsed body is
    the body. *)
Definition _processRequestBody (cfg : config) (sessionId : string) (body : json)
    (clientHeaders : gmap string string) (acct : option account)
    (isCountTokens : bool) : result json :=
  if negb (truthy body) then Ok body
  else if isCountTokens then Ok body
  else
    match body with
    | JObj processedBody =>
        let pb := splitModelVariant processedBody in
        let modelVariant := assoc_get "_modelVariant" pb in
        let pb := if truthy_opt modelVariant then assoc_del "_modelVariant" pb else pb in
        pb ← stripSecondSystemMsg pb;
        let pb := stripReminders pb in
        pb ← _validateAndLimitMaxTokens cfg pb;
        let pb := _stripTtlFromCacheControl pb in
        let isRealClaudeCode := validate cfg (JObj pb) clientHeaders in
        let pb := if isRealClaudeCode then pb else injectClaudeCodePrompt pb in
        pb ← applySystemPrompt cfg pb;
        let pb := dropTopP pb in
        pb ←
          match acct with
          | Some a =>
              if useUnifiedClientId a && negb (String.eqb (unifiedClientId a) "")
              then _replaceClientId sessionId (unifiedClientId a) pb
              else Ok pb
          | None => Ok pb
          end;
        pb ← applyThinking modelVariant pb;
        Ok (JObj pb)
    | _ => Unmodelled
    end.

(** ** Relay service: the outbound request *)

(** src/utils/claudeConstants.js *)
Definition USER_AGENT : string := "claude-cli/1.0.110 (external, cli)".

Definition FIXED_HEADERS : list (string * string) :=
  [ ("Content-Type", "application/json");
    ("anthropic-version", "2023-06-01");
    ("accept", "application/json");
    ("x-stainless-retry-count", "0");
    ("x-stainless-timeout", "600");
    ("x-stainless-lang", "js");
    ("x-stainless-package-version", "0.60.0");
    ("x-stainless-os", "MacOS");
    ("x-stainless-arch", "arm64");
    ("x-stainless-runtime", "node");
    ("x-stainless-runtime-version", "v20.18.1");
    ("anthropic-dangerous-direct-browser-access", "true");
    ("x-app", "cli");
    ("accept-language", "*");
    ("sec-fetch-mode", "cors");
    ("accept-encoding", "gzip, deflate") ].

Definition STREAM_HEADER : list (string * string) :=
  [ ("x-stainless-helper-method", "stream") ].

(** Object spread [{...m, ...l}]: later entries win. *)
Definition spread (m : gmap string string) (l : list (string * string))
  : gmap string string :=
  fold_left (fun acc kv => <[kv.1 := kv.2]> acc) l m.

(** The parts of a parsed [URL] that the relay reads; [port] is empty for
    the default port. *)
Record url : Type := {
  hostname : string;
  port : string;
  pathname : string
}.

(** Configuration of the dispatch. *)
Record dispatchConfig : Type := {
  (** [new URL(config.claude.apiUrl)] *)
  claudeApiUrl : url;
  (** [config.claude.apiVersion] *)
  apiVersion : string;
  (** [config.claude.betaHeader]; empty when it is not set *)
  configBetaHeader : string;
  (** [new URL(customPath, 'https://api.anthropic.com').pathname]; [None]
      when the constructor throws *)
  resolvePathname : string -> option string
}.

(** What [randomHeaderGenerator.generate()] drew. *)
Record randomHeaders : Type := {
  userAgent : string;
  packageVersion : string;
  os : string;
  arch : string;
  runtime : string;
  runtimeVersion : string
}.

(** What is handed to the HTTP/2 client. *)
Record upstreamRequest : Type := {
  finalUrl : string;
  requestPath : string;
  headers : gmap string string;
  requestBody : json
}.

(** The headers both request builders start from: the fixed set, the
    credentials, and under ban mode the randomised fingerprint. *)
Definition requestHeaders (stream : bool) (dc : dispatchConfig)
    (acct : option account) (random : randomHeaders) (accessToken : string)
  : gmap string string :=
  let h0 := spread ∅ (FIXED_HEADERS ++ (if stream then STREAM_HEADER else [])) in
  let h1 := spread h0 [ ("Authorization", "Bearer " +:+ accessToken);
                        ("anthropic-version", apiVersion dc);
                        ("User-Agent", USER_AGENT) ] in
  match acct with
  | Some a =>
      if String.eqb (banMode a) "true" then
        spread h1 [ ("User-Agent", userAgent random);
                    ("x-stainless-package-version", packageVersion random);
                    ("x-stainless-os", os random);
                    ("x-stainless-arch", arch random);
                    ("x-stainless-runtime", runtime random);
                    ("x-stainless-runtime-version", runtimeVersion random) ]
      else h1
  | None => h1
  end.

(** [requestPath] before the query suffix: the path of the API URL, or of
    [options.customPath] resolved against the API origin. *)
Definition basePath (dc : dispatchConfig) (o : BetaHeaderManager.requestOptions)
  : result string :=
  match BetaHeaderManager.customPath o with
  | Some p =>
      if String.eqb p "" then Ok (pathname (claudeApiUrl dc))
      else match resolvePathname dc p with
           | Some q => Ok q
           | None => Throw "Invalid URL"
           end
  | None => Ok (pathname (claudeApiUrl dc))
  end.

(** The request that [_makeClaudeRequest] ([stream = false]) and
    [_makeClaudeStreamRequestWithUsageCapture] ([stream = true]) build
    before they dispatch it: path, headers, beta header and query suffix. *)
Definition outboundRequest (stream : bool) (dc : dispatchConfig)
    (acct : option account) (random : randomHeaders) (body : json)
    (accessToken : string) (clientHeaders : gmap string string)
    (o : BetaHeaderManager.requestOptions) : result upstreamRequest :=
  let u := claudeApiUrl dc in
  path0 ← basePath dc o;
  let h2 := requestHeaders stream dc acct random accessToken in
  let model :=
    match get "model" body with
    | Some m => if truthy m then m else JStr "unknown"
    | None => JStr "unknown"
    end in
  let betaHeader :=
    BetaHeaderManager.getBetaHeader (configBetaHeader dc) model o clientHeaders in
  let '(h3, path1) :=
    match betaHeader with
    | Some b => (<["anthropic-beta" := b]> h2, path0 +:+ "?beta=true")
    | None => (h2, path0)
    end in
  Ok {| finalUrl := "https://" +:+ hostname u +:+ ":"
                    +:+ (if String.eqb (port u) "" then "443" else port u) +:+ path1;
        requestPath := path1;
        headers := h3;
        requestBody := body |}.

(** ** Relay service: account health *)

(** A number that may be [NaN]. *)
Inductive jsnum : Type :=
| NaN
| Num (z : Z).

Definition digit_of (c : ascii) : option Z :=
  let n := nat_of_ascii c in
  if (48 <=? n)%nat && (n <=? 57)%nat then Some (Z.of_nat n - 48) else None.

Definition hexdigit_of (c : ascii) : option Z :=
  let n := nat_of_ascii c in
  if (48 <=? n)%nat && (n <=? 57)%nat then Some (Z.of_nat n - 48)
  else if (97 <=? n)%nat && (n <=? 102)%nat then Some (Z.of_nat n - 87)
  else if (65 <=? n)%nat && (n <=? 70)%nat then Some (Z.of_nat n - 55)
  else None.

(** The longest prefix of digits, read in base [radix]; [None] when the
    prefix is empty. *)
Fixpoint digits_go (digit : ascii -> option Z) (radix : Z) (acc : option Z)
    (s : string) : option Z :=
  match s with
  | EmptyString => acc
  | String c s' =>
      match digit c with
      | Some d => digits_go digit radix (Some (default 0 acc * radix + d)) s'
      | None => acc
      end
  end.

(** [parseInt(s)]: leading white space, a sign, [0x] for base 16, then the
    longest run of digits. *)
Definition parseInt (s : string) : jsnum :=
  let s1 := trimStart s in
  let '(neg, s2) :=
    match s1 with
    | String "-" r => (true, r)
    | String "+" r => (false, r)
    | _ => (false, s1)
    end in
  let magnitude :=
    match s2 with
    | String "0" (String "x" r) | String "0" (String "X" r) =>
        digits_go hexdigit_of 16 None r
    | _ => digits_go digit_of 10 None s2
    end in
  match magnitude with
  | Some m => Num (if neg : bool then - m else m)
  | None => NaN
  end.

(** The usage record handed to [usageCallback]. *)
Record finalUsage : Type := {
  fu_input_tokens : Z;
  fu_output_tokens : Z;
  fu_cache_creation_input_tokens : Z;
  fu_cache_read_input_tokens : Z;
  (** [undefined] when neither the last record nor the request names one *)
  fu_model : option json;
  (** [(ephemeral_5m_input_tokens, ephemeral_1h_input_tokens)] *)
  fu_cache_creation : option (Z * Z)
}.

(** Calls to the collaborators, in the order they are made. The scheduler,
    the account service and the usage callback are not part of these
    sources; the relay's behaviour towards them is the sequence of calls. *)
Inductive call : Type :=
| MarkAccountUnauthorized (accountId accountType : string) (sessionHash : option string)
| MarkAccountBlocked (accountId accountType : string) (sessionHash : option string)
| MarkAccountRateLimited (accountId accountType : string) (sessionHash : option string)
    (resetAt : option jsnum)
| RemoveAccountRateLimit (accountId accountType : string)
| MarkAccountOverloaded (accountId : string)
| RemoveAccountOverload (accountId : string)
| RecordServerError (accountId : string) (statusCode : Z)
| ClearInternalErrors (accountId : string)
| UpdateSessionWindowStatus (accountId : string) (status : string)
| UsageCallback (usage : finalUsage) (accountId : string).

(** Modelled from the spec: the key-value store behind [redis.client], which
    is not part of these sources ("atomic increment, TTL-keyed set/get/del",
    section 1): integer counters with a time to live in seconds. *)
Record kv : Type := {
  kv_value : gmap string Z;
  kv_ttl : gmap string Z
}.

Definition kv_incr (key : string) (s : kv) : kv :=
  {| kv_value := <[key := default 0 (kv_value s !! key) + 1]> (kv_value s);
     kv_ttl := kv_ttl s |}.

Definition kv_expire (key : string) (seconds : Z) (s : kv) : kv :=
  {| kv_value := kv_value s;
     kv_ttl := if bool_decide (is_Some (kv_value s !! key))
               then <[key := seconds]> (kv_ttl s) else kv_ttl s |}.

Definition kv_get (key : string) (s : kv) : option Z := kv_value s !! key.

Definition kv_del (key : string) (s : kv) : kv :=
  {| kv_value := delete key (kv_value s); kv_ttl := delete key (kv_ttl s) |}.

(** The world a response is classified in. *)
Record world : Type := {
  redis : kv;
  calls : list call
}.

(** What the collaborators answer, and the configuration the classifier
    reads. Collaborator calls are taken to succeed. *)
Record health : Type := {
  (** [config.claude.overloadHandling.enabled] *)
  overloadHandling_enabled : Z;
  (** [unifiedClaudeScheduler.isAccountRateLimited] *)
  isAccountRateLimited : string -> string -> bool;
  (** [claudeAccountService.isAccountOverloaded] *)
  isAccountOverloaded : string -> bool;
  (** [JSON.parse]; [None] when it throws *)
  JSON_parse : string -> option json
}.

(** Effectful code: a state monad over the world. *)
Definition eff (A : Type) : Type := world -> A * world.

#[global] Instance eff_ret : MRet eff := fun _ a w => (a, w).
#[global] Instance eff_bind : MBind eff := fun _ _ k m w =>
  let '(a, w') := m w in k a w'.

Definition emit (c : call) : eff unit :=
  fun w => (tt, {| redis := redis w; calls := calls w ++ [c] |}).

Definition on_redis (f : kv -> kv) : eff unit :=
  fun w => (tt, {| redis := f (redis w); calls := calls w |}).

Definition read_redis {A} (f : kv -> A) : eff A :=
  fun w => (f (redis w), w).

Definition key401 (accountId : string) : string :=
  "claude_account:" +:+ accountId +:+ ":401_errors".

(** [recordUnauthorizedError(accountId)] *)
Definition recordUnauthorizedError (accountId : string) : eff unit :=
  on_redis (kv_incr (key401 accountId));;
  on_redis (kv_expire (key401 accountId) 300).

(** [getUnauthorizedErrorCount(accountId)]: [parseInt(count) || 0] *)
Definition getUnauthorizedErrorCount (accountId : string) : eff Z :=
  read_redis (fun s => default 0 (kv_get (key401 accountId) s)).

(** [clearUnauthorizedErrors(accountId)] *)
Definition clearUnauthorizedErrors (accountId : string) : eff unit :=
  on_redis (kv_del (key401 accountId)).

(** [_handleServerError]: records the error; crossing the threshold is only
    logged. *)
Definition _handleServerError (accountId : string) (statusCode : Z) : eff unit :=
  emit (RecordServerError accountId statusCode).

(** ** Relay service: the non-streaming request *)

(** An upstream response as the HTTP/2 client returns it. *)
Record response : Type := {
  statusCode : Z;
  resp_headers : gmap string string;
  resp_body : string
}.

Definition rateLimitMarker : string := "exceed your account's rate limit".

(** A header that is present and not empty. *)
Definition header (name : string) (hs : gmap string string) : option string :=
  match hs !! name with
  | Some v => if String.eqb v "" then None else Some v
  | None => None
  end.

(** [get5hStatus(headers)]: the three spellings the code tries, in order. *)
Definition get5hStatus (hs : gmap string string) : option string :=
  match header "anthropic-ratelimit-unified-5h-status" hs with
  | Some v => Some v
  | None =>
      match header "Anthropic-Ratelimit-Unified-5h-Status" hs with
      | Some v => Some v
      | None => header "ANTHROPIC-RATELIMIT-UNIFIED-5H-STATUS" hs
      end
  end.

(** The last branch of the chain: the rate-limit message in the body. A
    body that parses is judged by [error.message]; when parsing throws, or
    [toLowerCase] is missing on the message, the [catch] judges the raw
    text. *)
Definition bodySaysRateLimited (h : health) (body : string) : bool :=
  let raw :=
    negb (String.eqb body "") && includes (toLowerCase body) rateLimitMarker in
  match JSON_parse h body with
  | None => raw
  | Some responseBody =>
      match get "error" responseBody with
      | Some err =>
          if truthy responseBody && truthy err && truthy_opt (get "message" err) then
            match get "message" err with
            | Some (JStr m) => includes (toLowerCase m) rateLimitMarker
            | _ => raw
            end
          else false
      | None => false
      end
  end.

(** The success branch shared by both paths: clear the counters and lift
    the flags. *)
Definition clearHealthFlags (h : health) (accountId accountType : string) : eff unit :=
  clearUnauthorizedErrors accountId;;
  emit (ClearInternalErrors accountId);;
  (if isAccountRateLimited h accountId accountType
   then emit (RemoveAccountRateLimit accountId accountType) else mret tt);;
  (if isAccountOverloaded h accountId
   then emit (RemoveAccountOverload accountId) else mret tt).

(** [relayRequest] from the point where [_makeClaudeRequest] has returned
    [response]: classify the status, update the account's health, and hand
    the response back (the caller reads [accountId] off it). *)
Definition relayRequest_onResponse (h : health) (accountId accountType : string)
    (sessionHash : option string) (r : response) : eff response :=
  (if negb (statusCode r =? 200) && negb (statusCode r =? 201) then
     '(isRateLimited, rateLimitResetTimestamp) ←
       (if statusCode r =? 401 then
          recordUnauthorizedError accountId;;
          errorCount ← getUnauthorizedErrorCount accountId;
          (if 1 <=? errorCount
           then emit (MarkAccountUnauthorized accountId accountType sessionHash)
           else mret tt);;
          mret (false, None)
        else if statusCode r =? 403 then
          emit (MarkAccountBlocked accountId accountType sessionHash);;
          mret (false, None)
        else if statusCode r =? 529 then
          (if 0 <? overloadHandling_enabled h
           then emit (MarkAccountOverloaded accountId) else mret tt);;
          mret (false, None)
        else if (500 <=? statusCode r) && (statusCode r <? 600) then
          _handleServerError accountId (statusCode r);;
          mret (false, None)
        else if statusCode r =? 429 then
          mret (true,
                match header "anthropic-ratelimit-unified-reset" (resp_headers r) with
                | Some v => Some (parseInt v)
                | None => None
                end)
        else
          mret (bodySaysRateLimited h (resp_body r), None));
     if isRateLimited : bool
     then emit (MarkAccountRateLimited accountId accountType sessionHash
                  rateLimitResetTimestamp)
     else mret tt
   else
     (match get5hStatus (resp_headers r) with
      | Some sessionWindowStatus =>
          emit (UpdateSessionWindowStatus accountId sessionWindowStatus)
      | None => mret tt
      end);;
     clearHealthFlags h accountId accountType);;
  mret r.

(** What the scheduler and the account service returned for this request. *)
Record selection : Type := {
  sel_accountId : string;
  sel_accountType : string;
  sel_sessionHash : option string;
  sel_accessToken : string;
  sel_account : option account
}.

(** [_makeClaudeRequest]: build the request, dispatch it through
    [http2Client.request] (here [dispatch]; [Throw] carries the message of
    the error it rejects with), and humanise a failure. A timeout is
    recorded as a 504 against the account. *)
Definition _makeClaudeRequest (dc : dispatchConfig) (random : randomHeaders)
    (dispatch : upstreamRequest -> result response)
    (body : json) (accessToken : string) (clientHeaders : gmap string string)
    (accountId : string) (acct : option account)
    (o : BetaHeaderManager.requestOptions) : eff (result response) :=
  match req ← outboundRequest false dc acct random body accessToken clientHeaders o;
        dispatch req with
  | Ok r => mret (Ok r)
  | Unmodelled => mret Unmodelled
  | Throw message =>
      if includes message "ECONNRESET" then
        mret (Throw "Connection reset by Claude API server")
      else if includes message "ENOTFOUND" then
        mret (Throw "Unable to resolve Claude API hostname")
      else if includes message "ECONNREFUSED" then
        mret (Throw "Connection refused by Claude API server")
      else if includes message "timeout" then
        _handleServerError accountId 504;;
        mret (Throw "Connection timed out to Claude API server")
      else mret (Throw "Upstream request failed")
  end.

(** [relayRequest(requestBody, apiKeyData, clientRequest, clientResponse,
    clientHeaders, options)], given what account selection returned. *)
Definition relayRequest (cfg : config) (dc : dispatchConfig) (h : health)
    (random : randomHeaders) (sessionId : string)
    (dispatch : upstreamRequest -> result response)
    (sel : selection) (requestBody : json) (clientHeaders : gmap string string)
    (o : BetaHeaderManager.requestOptions) : eff (result response) :=
  match _processRequestBody cfg sessionId requestBody clientHeaders
          (sel_account sel) (BetaHeaderManager.isCountTokens o) with
  | Ok processedBody =>
      upstream ← _makeClaudeRequest dc random dispatch processedBody
                   (sel_accessToken sel) clientHeaders (sel_accountId sel)
                   (sel_account sel) o;
      match upstream with
      | Ok r =>
          r' ← relayRequest_onResponse h (sel_accountId sel) (sel_accountType sel)
                 (sel_sessionHash sel) r;
          mret (Ok r')
      | Throw m => mret (Throw m)
      | Unmodelled => mret Unmodelled
      end
  | Throw m => mret (Throw m)
  | Unmodelled => mret Unmodelled
  end.

(** ** Relay service: the streaming request with usage capture *)

(** [currentUsageData]: a field that was never assigned is [None]. *)
Record usageData : Type := {
  input_tokens : option Z;
  cache_creation_input_tokens : option Z;
  cache_read_input_tokens : option Z;
  (** [data.message.model] as it came, [None] for [undefined] *)
  model : option json;
  (** [{ephemeral_5m_input_tokens, ephemeral_1h_input_tokens}] *)
  cache_creation : option (Z * Z);
  output_tokens : option Z
}.

Definition emptyUsage : usageData :=
  {| input_tokens := None; cache_creation_input_tokens := None;
     cache_read_input_tokens := None; model := None;
     cache_creation := None; output_tokens := None |}.

(** [x || 0] for a token count. A truthy value that is not a number would
    turn the sums of the merge into string concatenations. *)
Definition tokens (o : option json) : result Z :=
  match o with
  | None => Ok 0
  | Some v =>
      if truthy v then
        match v with
        | JNum n => Ok n
        | _ => Unmodelled
        end
      else Ok 0
  end.

(** Calls on [responseStream], the client's side. *)
Inductive clientOp : Type :=
| WriteHead (status : Z)
| Write (chunk : string)
| WriteErrorData (payload : list (string * json))
| End_.

Inductive settlement : Type :=
| Resolved
| Rejected (message : string).

(** What the upstream stream does. *)
Inductive event : Type :=
| EvResponse (status : Z) (hs : gmap string string)
| EvData (chunk : string)
| EvEnd
| EvError (code : string)
| EvTimeout
| EvClientClose.

(** The request's fixed surroundings. *)
Record streamEnv : Type := {
  se_health : health;
  se_accountId : string;
  se_accountType : string;
  se_sessionHash : option string;
  (** [body.model] *)
  se_bodyModel : option json;
  se_streamTransformer : option (string -> string);
  (** [new Date().toISOString()] *)
  se_timestamp : string
}.

Record streamState : Type := {
  buffer : string;
  allUsageData : list usageData;
  currentUsageData : usageData;
  rateLimitDetected : bool;
  (** [stream.statusCode] and [stream.headers] *)
  stream_statusCode : option Z;
  stream_headers : gmap string string;
  (** the listeners of the error branch of [onResponse] are registered *)
  errorMode : bool;
  errorData : string;
  (** [stream.close()] was called *)
  upstreamClosed : bool;
  (** [responseStream.destroyed] and [responseStream.headersSent] *)
  destroyed : bool;
  headersSent : bool;
  clientOps : list clientOp;
  (** the promise: the first [resolve] or [reject] wins *)
  settled : option settlement;
  w : world
}.

Definition initialState (headersSent0 : bool) (w0 : world) : streamState :=
  {| buffer := ""; allUsageData := []; currentUsageData := emptyUsage;
     rateLimitDetected := false; stream_statusCode := None; stream_headers := ∅;
     errorMode := false; errorData := ""; upstreamClosed := false;
     destroyed := false; headersSent := headersSent0; clientOps := [];
     settled := None; w := w0 |}.

Definition set_usage (st : streamState) (allU : list usageData) (cur : usageData)
  : streamState :=
  {| buffer := buffer st; allUsageData := allU; currentUsageData := cur;
     rateLimitDetected := rateLimitDetected st;
     stream_statusCode := stream_statusCode st; stream_headers := stream_headers st;
     errorMode := errorMode st; errorData := errorData st;
     upstreamClosed := upstreamClosed st; destroyed := destroyed st;
     headersSent := headersSent st; clientOps := clientOps st;
     settled := settled st; w := w st |}.

Definition set_rateLimitDetected (st : streamState) : streamState :=
  {| buffer := buffer st; allUsageData := allUsageData st;
     currentUsageData := currentUsageData st; rateLimitDetected := true;
     stream_statusCode := stream_statusCode st; stream_headers := stream_headers st;
     errorMode := errorMode st; errorData := errorData st;
     upstreamClosed := upstreamClosed st; destroyed := destroyed st;
     headersSent := headersSent st; clientOps := clientOps st;
     settled := settled st; w := w st |}.

Definition set_buffer (st : streamState) (b : string) : streamState :=
  {| buffer := b; allUsageData := allUsageData st;
     currentUsageData := currentUsageData st;
     rateLimitDetected := rateLimitDetected st;
     stream_statusCode := stream_statusCode st; stream_headers := stream_headers st;
     errorMode := errorMode st; errorData := errorData st;
     upstreamClosed := upstreamClosed st; destroyed := destroyed st;
     headersSent := headersSent st; clientOps := clientOps st;
     settled := settled st; w := w st |}.

(** Calls on [responseStream]; a write sends the headers. *)
Definition client (ops : list clientOp) (st : streamState) : streamState :=
  {| buffer := buffer st; allUsageData := allUsageData st;
     currentUsageData := currentUsageData st;
     rateLimitDetected := rateLimitDetected st;
     stream_statusCode := stream_statusCode st; stream_headers := stream_headers st;
     errorMode := errorMode st; errorData := errorData st;
     upstreamClosed := upstreamClosed st; destroyed := destroyed st;
     headersSent := match ops with [] => headersSent st | _ => true end;
     clientOps := clientOps st ++ ops;
     settled := settled st; w := w st |}.

Definition settle (s : settlement) (st : streamState) : streamState :=
  {| buffer := buffer st; allUsageData := allUsageData st;
     currentUsageData := currentUsageData st;
     rateLimitDetected := rateLimitDetected st;
     stream_statusCode := stream_statusCode st; stream_headers := stream_headers st;
     errorMode := errorMode st; errorData := errorData st;
     upstreamClosed := upstreamClosed st; destroyed := destroyed st;
     headersSent := headersSent st; clientOps := clientOps st;
     settled := match settled st with Some x => Some x | None => Some s end;
     w := w st |}.

(** Run collaborator calls in the state's world. *)
Definition in_world (m : eff unit) (st : streamState) : streamState :=
  {| buffer := buffer st; allUsageData := allUsageData st;
     currentUsageData := currentUsageData st;
     rateLimitDetected := rateLimitDetected st;
     stream_statusCode := stream_statusCode st; stream_headers := stream_headers st;
     errorMode := errorMode st; errorData := errorData st;
     upstreamClosed := upstreamClosed st; destroyed := destroyed st;
     headersSent := headersSent st; clientOps := clientOps st;
     settled := settled st; w := (m (w st)).2 |}.

(** The [message_start] block of the data listener. *)
Definition onMessageStart (data : json) (st : streamState) : result streamState :=
  match get "message" data with
  | Some message =>
      match get "usage" message with
      | Some usage =>
          if is_str "message_start" (get "type" data) && truthy message && truthy usage then
            let cur := currentUsageData st in
            let '(allU, cur) :=
              match input_tokens cur, output_tokens cur with
              | Some _, Some _ => (allUsageData st ++ [cur], emptyUsage)
              | _, _ => (allUsageData st, cur)
              end in
            i ← tokens (get "input_tokens" usage);
            cc ← tokens (get "cache_creation_input_tokens" usage);
            cr ← tokens (get "cache_read_input_tokens" usage);
            detail ←
              match get "cache_creation" usage with
              | Some c =>
                  if truthy c && match c with JObj _ | JArr _ => true | _ => false end then
                    e5 ← tokens (get "ephemeral_5m_input_tokens" c);
                    e1 ← tokens (get "ephemeral_1h_input_tokens" c);
                    Ok (Some (e5, e1))
                  else Ok (cache_creation cur)
              | None => Ok (cache_creation cur)
              end;
            Ok (set_usage st allU
                  {| input_tokens := Some i;
                     cache_creation_input_tokens := Some cc;
                     cache_read_input_tokens := Some cr;
                     model := get "model" message;
                     cache_creation := detail;
                     output_tokens := output_tokens cur |})
          else Ok st
      | None => Ok st
      end
  | None => Ok st
  end.

(** The [message_delta] block. *)
Definition onMessageDelta (data : json) (st : streamState) : result streamState :=
  match get "usage" data with
  | Some usage =>
      match get "output_tokens" usage with
      | Some out =>
          if is_str "message_delta" (get "type" data) && truthy usage then
            o ← tokens (Some out);
            let cur := currentUsageData st in
            let cur' :=
              {| input_tokens := input_tokens cur;
                 cache_creation_input_tokens := cache_creation_input_tokens cur;
                 cache_read_input_tokens := cache_read_input_tokens cur;
                 model := model cur;
                 cache_creation := cache_creation cur;
                 output_tokens := Some o |} in
            match input_tokens cur with
            | Some _ => Ok (set_usage st (allUsageData st ++ [cur']) emptyUsage)
            | None => Ok (set_usage st (allUsageData st) cur')
            end
          else Ok st
      | None => Ok st
      end
  | None => Ok st
  end.

(** The [error] block; a message without [toLowerCase] throws into the
    [catch] of the line. *)
Definition onErrorEvent (data : json) (st : streamState) : streamState :=
  match get "error" data with
  | Some err =>
      if is_str "error" (get "type" data) && truthy err then
        match get "message" err with
        | Some (JStr m) =>
            if includes (toLowerCase m) rateLimitMarker
            then set_rateLimitDetected st else st
        | _ => st
        end
      else st
  | None => st
  end.

(** One complete line of the stream. *)
Definition onLine (env : streamEnv) (st : streamState) (line : string)
  : result streamState :=
  if startsWith line "data: " && (6 <? strlen line)%nat then
    match JSON_parse (se_health env) (drop 6 line) with
    | None => Ok st
    | Some JNull => Ok st
    | Some data =>
        st ← onMessageStart data st;
        st ← onMessageDelta data st;
        Ok (onErrorEvent data st)
    end
  else Ok st.

Fixpoint onLines (env : streamEnv) (st : streamState) (lines : list string)
  : result streamState :=
  match lines with
  | [] => Ok st
  | line :: rest => st' ← onLine env st line; onLines env st' rest
  end.

(** What goes to the client for a piece of text: the transformer's output
    when there is one and it is not empty. *)
Definition forward (env : streamEnv) (text : string) : list clientOp :=
  match se_streamTransformer env with
  | Some f => let transformed := f text in
              if String.eqb transformed "" then [] else [Write transformed]
  | None => [Write text]
  end.

(** [stream.on('data', ...)] of the main path. *)
Definition onData (env : streamEnv) (st : streamState) (chunk : string)
  : result streamState :=
  let pieces := split LF (buffer st +:+ chunk) in
  let lines := removelast pieces in
  let st := set_buffer st (List.last pieces "") in
  let st :=
    match lines with
    | [] => st
    | _ => if destroyed st then st
           else client (forward env (join nl lines +:+ nl)) st
    end in
  onLines env st lines.

(** The accumulator of the [reduce] over [allUsageData]. *)
Record totalUsage : Type := {
  t_input_tokens : Z;
  t_output_tokens : Z;
  t_cache_creation_input_tokens : Z;
  t_cache_read_input_tokens : Z
}.

Definition addUsage (acc : totalUsage) (usage : usageData) : totalUsage :=
  {| t_input_tokens := t_input_tokens acc + default 0 (input_tokens usage);
     t_output_tokens := t_output_tokens acc + default 0 (output_tokens usage);
     t_cache_creation_input_tokens :=
       t_cache_creation_input_tokens acc
       + default 0 (cache_creation_input_tokens usage);
     t_cache_read_input_tokens :=
       t_cache_read_input_tokens acc + default 0 (cache_read_input_tokens usage) |}.

(** The [forEach] that adds up the detailed cache creation counts. *)
Definition addEphemeral (acc : Z * Z) (usage : usageData) : Z * Z :=
  match cache_creation usage with
  | Some (e5, e1) => (acc.1 + e5, acc.2 + e1)
  | None => acc
  end.

(** [finalUsage] of the end listener, for a non-empty [allUsageData]. *)
Definition mergeUsage (bodyModel : option json) (allU : list usageData) : finalUsage :=
  let total :=
    fold_left addUsage allU
      {| t_input_tokens := 0; t_output_tokens := 0;
         t_cache_creation_input_tokens := 0; t_cache_read_input_tokens := 0 |} in
  let '(totalEphemeral5m, totalEphemeral1h) := fold_left addEphemeral allU (0, 0) in
  {| fu_input_tokens := t_input_tokens total;
     fu_output_tokens := t_output_tokens total;
     fu_cache_creation_input_tokens := t_cache_creation_input_tokens total;
     fu_cache_read_input_tokens := t_cache_read_input_tokens total;
     fu_model :=
       match model (List.last allU emptyUsage) with
       | Some m => if truthy m then Some m else bodyModel
       | None => bodyModel
       end;
     fu_cache_creation :=
       if (0 <? totalEphemeral5m) || (0 <? totalEphemeral1h)
       then Some (totalEphemeral5m, totalEphemeral1h) else None |}.

(** [handleErrorResponse] of [onResponse]: the health chain of the
    streaming path. *)
Definition handleErrorResponse (h : health) (accountId accountType : string)
    (sessionHash : option string) (status : Z) : eff unit :=
  if status =? 401 then
    recordUnauthorizedError accountId;;
    errorCount ← getUnauthorizedErrorCount accountId;
    (if 1 <=? errorCount
     then emit (MarkAccountUnauthorized accountId accountType sessionHash)
     else mret tt)
  else if status =? 403 then
    emit (MarkAccountBlocked accountId accountType sessionHash)
  else if status =? 529 then
    (if 0 <? overloadHandling_enabled h
     then emit (MarkAccountOverloaded accountId) else mret tt)
  else if (500 <=? status) && (status <? 600) then
    _handleServerError accountId status
  else mret tt.

Definition errorFrame (payload : list (string * json)) : list clientOp :=
  [Write ("event: error" +:+ nl); WriteErrorData payload; End_].

(** The health update at the end of a stream. *)
Definition endHealth (env : streamEnv) (st : streamState) : eff unit :=
  let accountId := se_accountId env in
  (match get5hStatus (stream_headers st) with
   | Some sessionWindowStatus =>
       emit (UpdateSessionWindowStatus accountId sessionWindowStatus)
   | None => mret tt
   end);;
  if rateLimitDetected st || bool_decide (stream_statusCode st = Some 429) then
    emit (MarkAccountRateLimited accountId (se_accountType env) (se_sessionHash env)
            match header "anthropic-ratelimit-unified-reset" (stream_headers st) with
            | Some v => Some (parseInt v)
            | None => None
            end)
  else if bool_decide (stream_statusCode st = Some 200) then
    clearHealthFlags (se_health env) accountId (se_accountType env)
  else mret tt.

(** The end listener has an [await] before it resolves. *)
Definition endAwaits (st : streamState) : bool :=
  bool_decide (is_Some (get5hStatus (stream_headers st)))
  || rateLimitDetected st
  || bool_decide (stream_statusCode st = Some 429)
  || bool_decide (stream_statusCode st = Some 200).

(** [stream.on('end', ...)]: the main listener, then the listener of the
    error branch when it was registered. The main listener runs up to its
    first [await] before the other one starts, so the error listener's
    [reject] comes first exactly when the main listener awaits. *)
Definition onEnd (env : streamEnv) (st : streamState) : streamState :=
  let st :=
    if negb (String.eqb (trim (buffer st)) "") && negb (destroyed st)
    then client (forward env (buffer st)) st else st in
  let st := if destroyed st then st else client [End_] st in
  let cur := currentUsageData st in
  let st :=
    match input_tokens cur with
    | Some _ =>
        let cur' :=
          {| input_tokens := input_tokens cur;
             cache_creation_input_tokens := cache_creation_input_tokens cur;
             cache_read_input_tokens := cache_read_input_tokens cur;
             model := model cur;
             cache_creation := cache_creation cur;
             output_tokens := Some (default 0 (output_tokens cur)) |} in
        set_usage st (allUsageData st ++ [cur']) cur'
    | None => st
    end in
  let st :=
    match allUsageData st with
    | [] => st
    | allU =>
        in_world (emit (UsageCallback (mergeUsage (se_bodyModel env) allU)
                          (se_accountId env))) st
    end in
  let st := in_world (endHealth env st) st in
  if errorMode st then
    let st :=
      if destroyed st then st
      else client (errorFrame
             [ ("error", JStr "Claude API error");
               ("status", JNum (default 0 (stream_statusCode st)));
               ("details", JStr (errorData st));
               ("timestamp", JStr (se_timestamp env)) ]) st in
    let rejected :=
      Rejected ("Claude API error: " +:+ pretty (default 0 (stream_statusCode st))) in
    if endAwaits st then settle Resolved (settle rejected st)
    else settle rejected (settle Resolved st)
  else settle Resolved st.

(** [stream.once('response', ...)] of the HTTP/2 client followed by
    [onResponse]: a status other than 200 starts the health chain and
    registers the listeners of the error branch. *)
Definition onResponse (env : streamEnv) (st : streamState) (status : Z)
    (hs : gmap string string) : streamState :=
  match stream_statusCode st with
  | Some _ => st
  | None =>
      let st :=
        {| buffer := buffer st; allUsageData := allUsageData st;
           currentUsageData := currentUsageData st;
           rateLimitDetected := rateLimitDetected st;
           stream_statusCode := Some status; stream_headers := hs;
           errorMode := negb (status =? 200); errorData := errorData st;
           upstreamClosed := upstreamClosed st; destroyed := destroyed st;
           headersSent := headersSent st; clientOps := clientOps st;
           settled := settled st; w := w st |} in
      if status =? 200 then st
      else in_world (handleErrorResponse (se_health env) (se_accountId env)
                       (se_accountType env) (se_sessionHash env) status) st
  end.

(** The data listener of the error branch: [errorData += chunk]. *)
Definition onErrorData (st : streamState) (chunk : string) : streamState :=
  {| buffer := buffer st; allUsageData := allUsageData st;
     currentUsageData := currentUsageData st;
     rateLimitDetected := rateLimitDetected st;
     stream_statusCode := stream_statusCode st; stream_headers := stream_headers st;
     errorMode := errorMode st; errorData := errorData st +:+ chunk;
     upstreamClosed := upstreamClosed st; destroyed := destroyed st;
     headersSent := headersSent st; clientOps := clientOps st;
     settled := settled st; w := w st |}.

Definition closeUpstream (clientGone : bool) (st : streamState) : streamState :=
  {| buffer := buffer st; allUsageData := allUsageData st;
     currentUsageData := currentUsageData st;
     rateLimitDetected := rateLimitDetected st;
     stream_statusCode := stream_statusCode st; stream_headers := stream_headers st;
     errorMode := errorMode st; errorData := errorData st;
     upstreamClosed := true; destroyed := destroyed st || clientGone;
     headersSent := headersSent st; clientOps := clientOps st;
     settled := settled st; w := w st |}.

(** The humanised message and status of [stream.on('error', ...)]. *)
Definition classifyStreamError (code : string) : string * Z :=
  if String.eqb code "ECONNRESET" then ("Connection reset by Claude API server", 502)
  else if String.eqb code "ENOTFOUND" then ("Unable to resolve Claude API hostname", 502)
  else if String.eqb code "ECONNREFUSED" then ("Connection refused by Claude API server", 502)
  else if String.eqb code "ETIMEDOUT" then ("Connection timed out to Claude API server", 504)
  else ("Upstream request failed", 500).

Definition failClient (status : Z) (payload : list (string * json))
    (st : streamState) : streamState :=
  let st := if headersSent st then st else client [WriteHead status] st in
  if destroyed st then st else client (errorFrame payload) st.

(** [stream.on('error', ...)] *)
Definition onError (env : streamEnv) (st : streamState) (code : string) : streamState :=
  let '(errorMessage, status) := classifyStreamError code in
  settle (Rejected code)
    (failClient status
       [ ("error", JStr errorMessage); ("code", JStr code);
         ("timestamp", JStr (se_timestamp env)) ] st).

(** [stream.on('timeout', ...)] *)
Definition onTimeout (env : streamEnv) (st : streamState) : streamState :=
  settle (Rejected "Request timeout")
    (failClient 504
       [ ("error", JStr "Request timeout"); ("code", JStr "TIMEOUT");
         ("timestamp", JStr (se_timestamp env)) ] (closeUpstream false st)).

(** One event of the upstream stream, or the client going away. *)
Definition step (env : streamEnv) (st : streamState) (e : event) : result streamState :=
  match e with
  | EvResponse status hs => Ok (onResponse env st status hs)
  | EvData chunk =>
      st' ← onData env st chunk;
      Ok (if errorMode st' then onErrorData st' chunk else st')
  | EvEnd => Ok (onEnd env st)
  | EvError code => Ok (onError env st code)
  | EvTimeout => Ok (onTimeout env st)
  | EvClientClose => Ok (closeUpstream true st)
  end.

Fixpoint run (env : streamEnv) (st : streamState) (events : list event)
  : result streamState :=
  match events with
  | [] => Ok st
  | e :: rest => st' ← step env st e; run env st' rest
  end.

(** [_makeClaudeStreamRequestWithUsageCapture] once the stream is open:
    the listeners applied to what the stream does, from a fresh state. *)
Definition _makeClaudeStreamRequestWithUsageCapture (env : streamEnv)
    (headersSent0 : bool) (w0 : world) (events : list event) : result streamState :=
  run env (initialState headersSent0 w0) events.

(** How often [usageCallback] was called. *)
Definition usageCallbacks (w1 : world) : list (finalUsage * string) :=
  omap (fun c => match c with UsageCallback u a => Some (u, a) | _ => None end)
       (calls w1).

(** What opening the upstream stream came to. *)
Inductive upstream : Type :=
| SetupFailed (message : string)
| Opened (events : list event).

(** [relayStreamRequestWithUsageCapture(requestBody, apiKeyData,
    responseStream, clientHeaders, usageCallback, streamTransformer,
    options)], given what account selection returned and what the upstream
    stream does. The callback handed down adds [accountId] to the record.
    A request that cannot be built, or a stream that cannot be opened, ends
    in the [catch] of [setupStream]. *)
Definition relayStreamRequestWithUsageCapture (cfg : config) (dc : dispatchConfig)
    (h : health) (random : randomHeaders) (sessionId timestamp : string)
    (sel : selection) (requestBody : json) (clientHeaders : gmap string string)
    (streamTransformer : option (string -> string))
    (o : BetaHeaderManager.requestOptions)
    (headersSent0 : bool) (w0 : world) (up : upstream) : result streamState :=
  processedBody ← _processRequestBody cfg sessionId requestBody clientHeaders
                    (sel_account sel) (BetaHeaderManager.isCountTokens o);
  let env :=
    {| se_health := h; se_accountId := sel_accountId sel;
       se_accountType := sel_accountType sel;
       se_sessionHash := sel_sessionHash sel;
       se_bodyModel := get "model" processedBody;
       se_streamTransformer := streamTransformer;
       se_timestamp := timestamp |} in
  let failed (message : string) :=
    Ok (settle (Rejected message)
          (failClient 500
             [ ("error", JStr "Failed to establish HTTP/2 stream");
               ("message", JStr message); ("timestamp", JStr timestamp) ]
             (initialState headersSent0 w0))) in
  match outboundRequest true dc (sel_account sel) random processedBody
          (sel_accessToken sel) clientHeaders o with
  | Ok _ =>
      match up with
      | Opened events =>
          _makeClaudeStreamRequestWithUsageCapture env headersSent0 w0 events
      | SetupFailed message => failed message
      end
  | Throw message => failed message
  | Unmodelled => Unmodelled
  end.

(** ** Relay service: header filter, version comparison, retries *)

(** [_filterClientHeaders(clientHeaders)]; [None] is a missing argument. *)
Definition sensitiveHeaders : list string :=
  [ "content-type"; "user-agent"; "x-api-key"; "authorization"; "host";
    "content-length"; "connection"; "proxy-authorization"; "content-encoding";
    "transfer-encoding" ].

Definition browserHeaders : list string :=
  [ "origin"; "referer"; "sec-fetch-mode"; "sec-fetch-site"; "sec-fetch-dest";
    "sec-ch-ua"; "sec-ch-ua-mobile"; "sec-ch-ua-platform"; "accept-language";
    "accept-encoding"; "accept"; "cache-control"; "pragma";
    "anthropic-dangerous-direct-browser-access" ].

Definition allowedHeaders : list string :=
  [ "x-request-id"; "anthropic-version"; "anthropic-beta" ].

(** The test of the [forEach] body on one key. *)
Definition forwardsHeader (key : string) : bool :=
  let lowerKey := toLowerCase key in
  if bool_decide (lowerKey ∈ allowedHeaders) then true
  else negb (bool_decide (lowerKey ∈ sensitiveHeaders))
       && negb (bool_decide (lowerKey ∈ browserHeaders)).

Definition _filterClientHeaders (clientHeaders : option (gmap string string))
  : gmap string string :=
  filter (fun kv => forwardsHeader kv.1 = true) (default ∅ clientHeaders).

(** [parseInt(s, 10)] *)
Definition parseInt10 (s : string) : jsnum :=
  let s1 := trimStart s in
  let '(neg, s2) :=
    match s1 with
    | String "-" r => (true, r)
    | String "+" r => (false, r)
    | _ => (false, s1)
    end in
  match digits_go digit_of 10 None s2 with
  | Some m => Num (if neg : bool then - m else m)
  | None => NaN
  end.

(** [parseInt(arr[i] || 0, 10)] *)
Definition versionPart (arr : list string) (i : nat) : jsnum :=
  match arr !! i with
  | Some s => if String.eqb s "" then Num 0 else parseInt10 s
  | None => Num 0
  end.

(** [a > b] on numbers; a comparison with [NaN] is false. *)
Definition num_gt (a b : jsnum) : bool :=
  match a, b with
  | Num x, Num y => y <? x
  | _, _ => false
  end.

(** The loop of [compareSemanticVersions] from index [i], with [steps]
    indices to go. *)
Fixpoint compareParts (arr1 arr2 : list string) (i steps : nat) : Z :=
  match steps with
  | O => 0
  | S steps' =>
      let num1 := versionPart arr1 i in
      let num2 := versionPart arr2 i in
      if num_gt num1 num2 then 1
      else if num_gt num2 num1 then -1
      else compareParts arr1 arr2 (S i) steps'
  end.

(** [compareSemanticVersions(version1, version2)] *)
Definition compareSemanticVersions (version1 version2 : string) : Z :=
  let arr1 := split "." version1 in
  let arr2 := split "." version2 in
  let maxLength := Nat.max (length arr1) (length arr2) in
  compareParts arr1 arr2 0 maxLength.

Definition is_digit_or_dot (c : ascii) : bool :=
  let n := nat_of_ascii c in
  ((48 <=? n)%nat && (n <=? 57)%nat) || Ascii.eqb c ".".

Definition is_alnum_or_dash (c : ascii) : bool :=
  let n := nat_of_ascii c in
  ((48 <=? n)%nat && (n <=? 57)%nat) || ((97 <=? n)%nat && (n <=? 122)%nat)
  || ((65 <=? n)%nat && (n <=? 90)%nat) || Ascii.eqb c "-".

(** The longest prefix of characters of a class. *)
Fixpoint takeWhile (p : ascii -> bool) (s : string) : string :=
  match s with
  | EmptyString => EmptyString
  | String c s' => if p c then String c (takeWhile p s') else EmptyString
  end.

Fixpoint dropWhile (p : ascii -> bool) (s : string) : string :=
  match s with
  | EmptyString => EmptyString
  | String c s' => if p c then dropWhile p s' else s
  end.

(** The first group of the version pattern of [compareClaudeCodeVersions]
    matched against [ua]: at the leftmost place where [claude-cli/], in any
    letter case, is followed by a digit or a dot, the longest run of digits
    and dots and after it the longest run of letters, digits and dashes. *)
Fixpoint matchCliVersion (ua : string) : option string :=
  let here :=
    if String.prefix "claude-cli/" (toLowerCase ua) then
      let rest := drop 11 ua in
      let number := takeWhile is_digit_or_dot rest in
      if String.eqb number "" then None
      else Some (number +:+ takeWhile is_alnum_or_dash (dropWhile is_digit_or_dot rest))
    else None in
  match here with
  | Some version => Some version
  | None =>
      match ua with
      | EmptyString => None
      | String _ ua' => matchCliVersion ua'
      end
  end.

(** [compareClaudeCodeVersions(newUA, cachedUA)]: whether the cached user
    agent is to be replaced. *)
Definition compareClaudeCodeVersions (newUA cachedUA : string) : bool :=
  match matchCliVersion newUA, matchCliVersion cachedUA with
  | Some newVersion, Some cachedVersion =>
      0 <? compareSemanticVersions newVersion cachedVersion
  | _, _ => true
  end.

(** [_retryRequest(requestFunc, maxRetries)]: [attempt i] is what the
    call number [i] of [requestFunc] comes to. The result is paired with
    the delays, in milliseconds, that were waited between the calls;
    [None] is the [undefined] that is thrown when no call was made. *)
Fixpoint retryFrom {A : Type} (attempt : nat -> string + A) (maxRetries i steps : nat)
    (lastError : option string) : (option string + A) * list Z :=
  match steps with
  | O => (inl lastError, [])
  | S steps' =>
      match attempt i with
      | inr a => (inr a, [])
      | inl error =>
          if (i <? maxRetries - 1)%nat then
            let delay := 2 ^ Z.of_nat i * 1000 in
            let '(outcome, delays) :=
              retryFrom attempt maxRetries (S i) steps' (Some error) in
            (outcome, delay :: delays)
          else retryFrom attempt maxRetries (S i) steps' (Some error)
      end
  end.

Definition _retryRequest {A : Type} (attempt : nat -> string + A) (maxRetries : nat)
  : (option string + A) * list Z :=
  retryFrom attempt maxRetries 0 maxRetries None.

End ClaudeRelayService.

(** ** HTTP/2 client: session pool and session creation *)

Module Http2Client.
Import Js.

(** *** The session pool *)

(** A session object. The pool, the listeners and the callers share it:
    it lives in a heap and is referred to by its address. *)
Record sessionObj : Type := {
  closed : bool;
  destroyed : bool;
  (** keys captured by the [error], [goaway] and [close] listeners that
      [getSession] registered on this session *)
  evicts : list string
}.

(** A pool entry [{ session, lastUsed }]. *)
Record sessionInfo : Type := {
  session : nat;
  lastUsed : Z
}.

Record pool : Type := {
  (** [this.sessions] *)
  sessions : gmap string sessionInfo;
  heap : gmap nat sessionObj;
  (** ghost: the sessions [createSession] delivered to [getSession], newest
      first, each with the key it was created for *)
  created : list (string * nat)
}.

(** [this.sessionTimeout] *)
Definition sessionTimeout : Z := 5 * 60 * 1000.

(** [`${hostname}:${options.port || 443}`]; an empty [port] is a missing one. *)
Definition sessionKey (hostname port : string) : string :=
  hostname +:+ ":" +:+ (if String.eqb port "" then "443" else port).

Definition deref (p : pool) (sid : nat) : sessionObj :=
  default {| closed := true; destroyed := true; evicts := [] |} (heap p !! sid).

Definition usable (p : pool) (sid : nat) : bool :=
  negb (closed (deref p sid)) && negb (destroyed (deref p sid)).

Inductive lookup : Type :=
| Reuse (sid : nat)
| Create.

(** [getSession] up to its [await]: reuse the cached session when it is
    neither closed nor destroyed, else drop the entry and go on to create. *)
Definition getSession_lookup (key : string) (now : Z) (p : pool) : lookup * pool :=
  match sessions p !! key with
  | Some sessionInfo =>
      if usable p (session sessionInfo) then
        (Reuse (session sessionInfo),
         {| sessions := <[key := {| session := session sessionInfo; lastUsed := now |}]> (sessions p);
            heap := heap p; created := created p |})
      else
        (Create, {| sessions := delete key (sessions p); heap := heap p;
                    created := created p |})
  | None => (Create, p)
  end.

(** The address of the next session object. *)
Definition fresh (p : pool) : nat := S (max_list (elements (dom (heap p)))).

(** [getSession] after its [await]: [createSession] resolved with a new,
    connected session; register the three listeners and store it. *)
Definition getSession_store (key : string) (now : Z) (p : pool) : nat * pool :=
  let sid := fresh p in
  (sid,
   {| sessions := <[key := {| session := sid; lastUsed := now |}]> (sessions p);
      heap := <[sid := {| closed := false; destroyed := false; evicts := [key] |}]> (heap p);
      created := (key, sid) :: created p |}).

(** [getSession(hostname, options)] when nothing else runs during its
    [await]; [connects] says whether [createSession] resolves. *)
Definition getSession (hostname port : string) (now : Z) (connects : bool) (p : pool)
  : result nat * pool :=
  let key := sessionKey hostname port in
  match getSession_lookup key now p with
  | (Reuse sid, p') => (Ok sid, p')
  | (Create, p') =>
      if connects then let '(sid, p'') := getSession_store key now p' in (Ok sid, p'')
      else (Throw "createSession rejected", p')
  end.

Inductive sessionEvent : Type :=
| OnError
| OnGoaway
| OnClose.

(** The listeners of a session: each deletes the entry under its key. *)
Definition emitSessionEvent (sid : nat) (ev : sessionEvent) (p : pool) : pool :=
  {| sessions := fold_left (fun m key => delete key m) (evicts (deref p sid)) (sessions p);
     heap := heap p; created := created p |}.

(** The session itself changes: it closes or is destroyed (flags only go up). *)
Definition markSession (sid : nat) (closes destroys : bool) (p : pool) : pool :=
  match heap p !! sid with
  | Some o =>
      {| sessions := sessions p;
         heap := <[sid := {| closed := closed o || closes;
                             destroyed := destroyed o || destroys;
                             evicts := evicts o |}]> (heap p);
         created := created p |}
  | None => p
  end.

(** One round of the cleanup timer: close and drop what was idle for more
    than [sessionTimeout]. *)
Definition cleanupEntry (now : Z) (p : pool) (entry : string * sessionInfo) : pool :=
  if sessionTimeout <? now - lastUsed entry.2
  then let p' := markSession (session entry.2) true false p in
       {| sessions := delete entry.1 (sessions p'); heap := heap p';
          created := created p' |}
  else p.

Definition cleanup (now : Z) (p : pool) : pool :=
  fold_left (cleanupEntry now) (map_to_list (sessions p)) p.

(** Everything that can happen to the pool, one atomic callback at a time. *)
Inductive op : Type :=
| Lookup (key : string) (now : Z)
| Store (key : string) (now : Z)
| SessionEmits (sid : nat) (ev : sessionEvent)
| SessionChanges (sid : nat) (closes destroys : bool)
| CleanupTick (now : Z).

Definition apply (o : op) (p : pool) : pool :=
  match o with
  | Lookup key now => (getSession_lookup key now p).2
  | Store key now => (getSession_store key now p).2
  | SessionEmits sid ev => emitSessionEvent sid ev p
  | SessionChanges sid c d => markSession sid c d p
  | CleanupTick now => cleanup now p
  end.

Definition emptyPool : pool := {| sessions := ∅; heap := ∅; created := [] |}.

Definition runOps (ops : list op) (p : pool) : pool := fold_left (fun q o => apply o q) ops p.

(** The session most recently created for [key]. *)
Fixpoint latestFor (key : string) (log : list (string * nat)) : option nat :=
  match log with
  | [] => None
  | (k, sid) :: rest => if String.eqb k key then Some sid else latestFor key rest
  end.

(** *** Session creation (the version with the CONNECT tunnel) *)

(** [Buffer.from(text).toString('base64')] for ASCII text. *)
Definition base64Alphabet : string :=
  "ABCDEFGHIJKLMNOPQRSTUVWXYZabcdefghijklmnopqrstuvwxyz0123456789+/".

Definition sextet (n : N) : string :=
  match String.get (N.to_nat n) base64Alphabet with
  | Some c => String c ""
  | None => ""
  end.

Fixpoint base64_bytes (bytes : list N) : string :=
  match bytes with
  | [] => ""
  | [a] =>
      sextet (a / 4) +:+ sextet ((a mod 4) * 16) +:+ "=="
  | [a; b] =>
      sextet (a / 4) +:+ sextet ((a mod 4) * 16 + b / 16)
      +:+ sextet ((b mod 16) * 4) +:+ "="
  | a :: b :: c :: rest =>
      sextet (a / 4) +:+ sextet ((a mod 4) * 16 + b / 16)
      +:+ sextet ((b mod 16) * 4 + c / 64) +:+ sextet (c mod 64)
      +:+ base64_bytes rest
  end%N.

Definition base64 (text : string) : string :=
  base64_bytes (List.map N_of_ascii (String.list_ascii_of_string text)).

(** The parts of [new URL(agent.proxy.href || agent.proxy)] that are read. *)
Record proxyUrl : Type := {
  protocol : string;
  proxyHostname : string;
  proxyPortText : string;
  username : string;
  password : string
}.

(** [options.agent]: an agent without a [proxy] property, one whose
    [proxy] is a URL (the HTTP/S proxy agent), or one whose [proxy] is not
    a URL, on which the [URL] constructor throws. *)
Inductive agent : Type :=
| AgentWithoutProxy
| AgentProxyUrl (u : proxyUrl)
| AgentProxyOther.

Record options : Type := {
  port : string;
  agentOption : option agent;
  timeout : option Z
}.

(** What [createSession] does to the network, in order. *)
Inductive action : Type :=
(** [http.request({ method: 'CONNECT', host, port, path, headers })], ended *)
| ConnectRequest (host port path : string) (headers : list (string * string))
(** [socket.destroy()] on the tunnel socket *)
| SocketDestroy
(** [http2.connect(url, ...)] *)
| Http2Connect (url : string)
(** the TLS handshake: over the tunnel socket ([tls.connect] inside
    [createConnection]) or over a connection of its own *)
| TlsConnect (overTunnel : bool) (servername : string) (ALPNProtocols : list string)
| SetTimeout (ms : Z)
| SessionClose.

(** The proxy's answer to the CONNECT request. *)
Inductive proxyAnswer : Type :=
| ConnectAnswer (status : Z)
| ConnectFails (message : string)
| NoAnswer.

(** What the new session does first. *)
Inductive sessionFate : Type :=
| Connects
| Errors (message : string)
| TimesOut
| Hangs.

(** The promise: resolved with the session, rejected, or never settled. *)
Inductive promise : Type :=
| Fulfilled
| Failed (message : string)
| Pending.

Definition awaitSession (hostname : string) (fate : sessionFate)
  : list action * promise :=
  match fate with
  | Connects => ([], Fulfilled)
  | Errors m => ([], Failed m)
  | TimesOut => ([SessionClose], Failed ("HTTP/2 session timeout for " +:+ hostname))
  | Hangs => ([], Pending)
  end.

(** [createSession(hostname, options)] *)
Definition createSession (hostname : string) (o : options)
    (answer : proxyAnswer) (fate : sessionFate) : list action * promise :=
  let targetPort := if String.eqb (port o) "" then "443" else port o in
  let url := "https://" +:+ hostname +:+ ":" +:+ targetPort in
  let ms :=
    match timeout o with
    | Some t => if t =? 0 then 30000 else t
    | None => 30000
    end in
  let direct :=
    let '(acts, p) := awaitSession hostname fate in
    ([Http2Connect url; TlsConnect false hostname ["h2"]; SetTimeout ms] ++ acts, p) in
  match agentOption o with
  | Some (AgentProxyUrl proxy) =>
      let proxyHost := proxyHostname proxy in
      let proxyPort :=
        if String.eqb (proxyPortText proxy) ""
        then (if String.eqb (protocol proxy) "https:" then "443" else "80")
        else proxyPortText proxy in
      let connectHeaders :=
        [("Host", hostname +:+ ":" +:+ targetPort)]
        ++ (if negb (String.eqb (username proxy) "") && negb (String.eqb (password proxy) "")
            then [("Proxy-Authorization",
                   "Basic " +:+ base64 (username proxy +:+ ":" +:+ password proxy))]
            else []) in
      let request :=
        ConnectRequest proxyHost proxyPort (hostname +:+ ":" +:+ targetPort) connectHeaders in
      match answer with
      | ConnectAnswer status =>
          if negb (status =? 200) then
            ([request; SocketDestroy],
             Failed ("Proxy CONNECT failed with status " +:+ pretty status))
          else
            let '(acts, p) := awaitSession hostname fate in
            ([request; Http2Connect url; TlsConnect true hostname ["h2"]; SetTimeout ms]
             ++ acts, p)
      | ConnectFails m => ([request], Failed m)
      | NoAnswer => ([request], Pending)
      end
  | Some AgentProxyOther => ([], Failed "Invalid URL")
  | Some AgentWithoutProxy => direct
  | None => direct
  end.

(** *** Closing the pool, request headers *)

(** [closeAll()]: close every pooled session, then clear the pool. *)
Definition closeAll (p : pool) : pool :=
  let p' :=
    fold_left (fun q (entry : string * sessionInfo) =>
                 markSession (session entry.2) true false q)
              (map_to_list (sessions p)) p in
  {| sessions := ∅; heap := heap p'; created := created p' |}.

(** [normalizeHeaders(headers)]: the entries of [headers] in their order;
    pseudo headers are skipped, names are lower-cased, a later entry
    replaces an earlier one of the same lower-cased name. *)
Definition normalizeHeaders (headers : list (string * string)) : gmap string string :=
  fold_left (fun normalized (kv : string * string) =>
               if startsWith kv.1 ":" then normalized
               else <[toLowerCase kv.1 := kv.2]> normalized)
            headers ∅.

(** The header block of [request] and of [streamSSE]: the four pseudo
    headers, then the caller's normalized headers spread over them.
    [method] is [options.method]; [streamSSE] falls back to [POST] and
    adds [accept] when the caller gave none (or an empty one). *)
Definition http2Headers (sse : bool) (method : option string) (pathname hostname : string)
    (headers : list (string * string)) : gmap string string :=
  let fallback := if sse then "POST" else "GET" in
  let m := match method with
           | Some v => if String.eqb v "" then fallback else v
           | None => fallback
           end in
  let block :=
    normalizeHeaders headers
    ∪ {[ ":method" := m; ":path" := pathname; ":scheme" := "https";
         ":authority" := hostname ]} in
  if sse then
    match block !! "accept" with
    | Some v => if String.eqb v "" then <["accept" := "text/event-stream"]> block else block
    | None => <["accept" := "text/event-stream"]> block
    end
  else block.

(** The response headers that [request] and [streamSSE] hand on: the
    pseudo headers are left out. *)
Definition responseHeaders (hdrs : gmap string string) : gmap string string :=
  filter (fun kv => startsWith kv.1 ":" = false) hdrs.

End Http2Client.

(** ** Proxy helper (createProxyAgent and its agent cache) *)

Module ProxyHelper.
Import Js.

Inductive agentKind : Type :=
| SocksProxyAgent
| HttpsProxyAgent.

(** An agent object: [ref] is its identity, the rest is what it was
    constructed from. *)
Record agent : Type := {
  ref : nat;
  kind : agentKind;
  proxyUrl : string;
  (** [family]: 4, 6, or not set *)
  family : option Z
}.

(** The static state of the class. *)
Record state : Type := {
  agentCache : gmap string agent;
  hits : nat;
  misses : nat;
  (** the next fresh object identity *)
  nextRef : nat
}.

(** What the helper reads from outside. *)
Record environment : Type := {
  (** [JSON.parse]; [None] when it throws *)
  parse : string -> option json;
  (** [config.proxy?.useIPv4] *)
  defaultUseIPv4 : option bool;
  (** the agent constructors accept this proxy URL (they throw otherwise) *)
  acceptsUrl : string -> bool
}.

(** [_getIPFamilyPreference(preference)]: [Some true] is IPv4,
    [Some false] IPv6, [None] automatic. *)
Definition _getIPFamilyPreference (env : environment) (preference : option json)
  : option bool :=
  match preference with
  | None =>
      match defaultUseIPv4 env with
      | Some d => Some d
      | None => Some true
      end
  | Some (JBool b) => Some b
  | Some (JNum n) => if n =? 4 then Some true else if n =? 6 then Some false else None
  | Some (JStr s) =>
      let lower := toLowerCase s in
      if String.eqb lower "ipv4" || String.eqb lower "4" then Some true
      else if String.eqb lower "ipv6" || String.eqb lower "6" then Some false
      else if String.eqb lower "auto" || String.eqb lower "both" then None
      else Some true
  | Some _ => Some true
  end.

(** A template literal's [${v}] for a property that may be [undefined]. *)
Definition interpolate (o : option json) : string :=
  match o with
  | Some v => toString v
  | None => "undefined"
  end.

(** The cache key: [type://host:port:username], without the password. *)
Definition cacheKey (proxy : json) : string :=
  interpolate (get "type" proxy) +:+ "://" +:+ interpolate (get "host" proxy)
  +:+ ":" +:+ interpolate (get "port" proxy) +:+ ":"
  +:+ (if truthy_opt (get "username" proxy)
       then interpolate (get "username" proxy) else "").

(** [typeof proxyConfig === 'string' ? JSON.parse(proxyConfig) : proxyConfig];
    [None] when [JSON.parse] throws. *)
Definition parseConfig (env : environment) (proxyConfig : json) : option json :=
  match proxyConfig with
  | JStr text => parse env text
  | _ => Some proxyConfig
  end.

(** [createProxyAgent(proxyConfig, options)] with [options.useIPv4] as
    [useIPv4]; [None] is [null]. Whatever is thrown inside is caught and
    answered with [null]. *)
Definition createProxyAgent (env : environment) (proxyConfig : option json)
    (useIPv4 : option json) (s : state) : option agent * state :=
  match proxyConfig with
  | None => (None, s)
  | Some pc =>
      if negb (truthy pc) then (None, s)
      else
        match parseConfig env pc with
        | None | Some JNull => (None, s)
        | Some proxy =>
            if negb (truthy_opt (get "type" proxy)) || negb (truthy_opt (get "host" proxy))
               || negb (truthy_opt (get "port" proxy))
            then (None, s)
            else
              let key := cacheKey proxy in
              match agentCache s !! key with
              | Some cachedAgent =>
                  (Some cachedAgent,
                   {| agentCache := agentCache s; hits := S (hits s);
                      misses := misses s; nextRef := nextRef s |})
              | None =>
                  let preference := _getIPFamilyPreference env useIPv4 in
                  let auth :=
                    if truthy_opt (get "username" proxy) && truthy_opt (get "password" proxy)
                    then interpolate (get "username" proxy) +:+ ":"
                         +:+ interpolate (get "password" proxy) +:+ "@"
                    else "" in
                  let fam := match preference with
                             | Some true => Some 4
                             | Some false => Some 6
                             | None => None
                             end in
                  let build (k : agentKind) (u : string) :=
                    if acceptsUrl env u then
                      let a := {| ref := nextRef s; kind := k; proxyUrl := u; family := fam |} in
                      (Some a,
                       {| agentCache := <[key := a]> (agentCache s); hits := hits s;
                          misses := S (misses s); nextRef := S (nextRef s) |})
                    else (None, s) in
                  if is_str "socks5" (get "type" proxy) then
                    build SocksProxyAgent
                      ("socks5h://" +:+ auth +:+ interpolate (get "host" proxy) +:+ ":"
                       +:+ interpolate (get "port" proxy))
                  else if is_str "http" (get "type" proxy) || is_str "https" (get "type" proxy) then
                    build HttpsProxyAgent
                      (interpolate (get "type" proxy) +:+ "://" +:+ auth
                       +:+ interpolate (get "host" proxy) +:+ ":"
                       +:+ interpolate (get "port" proxy))
                  else (None, s)
              end
        end
  end.

(** [clearCache(force)] *)
Definition clearCache (force : bool) (s : state) : state :=
  if force
  then {| agentCache := ∅; hits := 0; misses := 0; nextRef := nextRef s |}
  else s.

(** [validateProxyConfig(proxyConfig)]. [parseInt] of a port that is a
    number reads its decimal text. *)
Definition validateProxyConfig (env : environment) (proxyConfig : option json) : bool :=
  match proxyConfig with
  | None => false
  | Some pc =>
      if negb (truthy pc) then false
      else
        match parseConfig env pc with
        | None | Some JNull => false
        | Some proxy =>
            if negb (truthy_opt (get "type" proxy)) || negb (truthy_opt (get "host" proxy))
               || negb (truthy_opt (get "port" proxy))
            then false
            else if negb (is_str "socks5" (get "type" proxy)
                          || is_str "http" (get "type" proxy)
                          || is_str "https" (get "type" proxy))
            then false
            else
              match ClaudeRelayService.parseInt (interpolate (get "port" proxy)) with
              | ClaudeRelayService.NaN => false
              | ClaudeRelayService.Num port =>
                  negb ((port <? 1) || (65535 <? port))
              end
        end
  end.

(** [getProxyDescription(proxyConfig)] *)
Definition getProxyDescription (env : environment) (proxyConfig : option json) : string :=
  match proxyConfig with
  | None => "No proxy"
  | Some pc =>
      if negb (truthy pc) then "No proxy"
      else
        match parseConfig env pc with
        | None | Some JNull => "Invalid proxy config"
        | Some proxy =>
            let hasAuth :=
              truthy_opt (get "username" proxy) && truthy_opt (get "password" proxy) in
            interpolate (get "type" proxy) +:+ "://" +:+ interpolate (get "host" proxy)
            +:+ ":" +:+ interpolate (get "port" proxy)
            +:+ (if hasAuth then " (with auth)" else "")
        end
  end.

(** ['*'.repeat(n)] *)
Fixpoint stars (n : nat) : string :=
  match n with
  | O => ""
  | S n' => String "*" (stars n')
  end.

(** The masked user name: short names as they are, of longer ones the
    first and the last character with stars between. *)
Definition maskedUsername (username : string) : string :=
  if (strlen username <=? 2)%nat then username
  else take 1 username +:+ stars (Nat.max 1 (strlen username - 2))
       +:+ drop (strlen username - 1) username.

(** [maskProxyInfo(proxyConfig)] for a descriptor whose credentials, when
    present, are strings; [Unmodelled] otherwise. *)
Definition maskProxyInfo (env : environment) (proxyConfig : option json) : result string :=
  match proxyConfig with
  | None => Ok "No proxy"
  | Some pc =>
      if negb (truthy pc) then Ok "No proxy"
      else
        match parseConfig env pc with
        | None | Some JNull => Ok "Invalid proxy config"
        | Some proxy =>
            let proxyDesc :=
              interpolate (get "type" proxy) +:+ "://" +:+ interpolate (get "host" proxy)
              +:+ ":" +:+ interpolate (get "port" proxy) in
            if truthy_opt (get "username" proxy) && truthy_opt (get "password" proxy) then
              match get "username" proxy, get "password" proxy with
              | Some (JStr username), Some (JStr password) =>
                  Ok (proxyDesc +:+ " (auth: " +:+ maskedUsername username +:+ ":"
                      +:+ stars (Nat.min 8 (strlen password)) +:+ ")")
              | _, _ => Unmodelled
              end
            else Ok proxyDesc
        end
  end.

(** [createProxy(proxyConfig, useIPv4 = true)], the deprecated entry. *)
Definition createProxy (env : environment) (proxyConfig : option json)
    (useIPv4 : option json) (s : state) : option agent * state :=
  createProxyAgent env proxyConfig (Some (default (JBool true) useIPv4)) s.

End ProxyHelper.

(** ** Request dumper (src/utils/requestDumper.js): what is written of the
       headers *)

Module RequestDumper.
Import Js.

Definition sensitiveKeys : list string :=
  ["authorization"; "x-api-key"; "cookie"; "proxy-authorization"].

(** The value a header is dumped with. *)
Definition sanitizeValue (key value : string) : string :=
  let lowerKey := toLowerCase key in
  if bool_decide (lowerKey ∈ sensitiveKeys) then
    if String.eqb lowerKey "authorization" && negb (String.eqb value "") then
      if startsWith value "Bearer " then "Bearer [MASKED]" else "[MASKED]"
    else "[MASKED]"
  else value.

(** [sanitizeHeaders(headers)]; [None] is a missing argument. *)
Definition sanitizeHeaders (headers : option (gmap string string)) : gmap string string :=
  match headers with
  | None => ∅
  | Some hs => map_imap (fun key value => Some (sanitizeValue key value)) hs
  end.

End RequestDumper.

(** ** Concrete requests used in the examples *)

Module Fixtures.
Import Js ClaudeRelayService.

(** The path of a request target: what precedes the query. *)
Fixpoint beforeQuery (s : string) : string :=
  match s with
  | EmptyString => EmptyString
  | String c s' => if Ascii.eqb c "?" then EmptyString else String c (beforeQuery s')
  end.

Definition dispatch : dispatchConfig :=
  {| claudeApiUrl := {| hostname := "api.anthropic.com"; port := "";
                        pathname := "/v1/messages" |};
     apiVersion := "2023-06-01";
     configBetaHeader := "claude-code-20250219,oauth-2025-04-20,interleaved-thinking-2025-05-14,fine-grained-tool-streaming-2025-05-14";
     resolvePathname := fun p => Some (beforeQuery p) |}.

Definition random : randomHeaders :=
  {| userAgent := "claude-cli/1.0.98 (external, cli)"; packageVersion := "0.59.0";
     os := "Linux"; arch := "x64"; runtime := "node"; runtimeVersion := "v22.3.0" |}.

Definition noOptions : BetaHeaderManager.requestOptions :=
  {| BetaHeaderManager.customPath := None; BetaHeaderManager.betaHeader := None |}.

(** No operator prompt, no pricing file, and a validator that takes no
    request for a real Claude Code request. *)
Definition plainConfig : config :=
  {| systemPrompt := ""; pricingData := None; validate := fun _ _ => false |}.

Definition uuid : string := "123e4567-e89b-42d3-a456-426614174000".

Definition clientId : string :=
  "0123456789abcdef0123456789abcdef0123456789abcdef0123456789abcdef".

Definition unifiedAccount : account :=
  {| useUnifiedClientId := true; unifiedClientId := clientId; banMode := "false" |}.

Definition thinkingBody : json :=
  JObj [ ("model", JStr "claude-sonnet-4-20250514:thinking");
         ("max_tokens", JNum 8000) ].

(** *** A JSON reader for the examples

    [JSON.parse] on the texts the examples use: objects, arrays, strings
    with the simple escapes, integers, [true], [false], [null]. Anything
    else is answered like a syntax error. *)

Fixpoint skipSpace (s : string) : string :=
  match s with
  | String c s' => if Ascii.is_space c then skipSpace s' else s
  | EmptyString => EmptyString
  end.

(** The characters of a string literal after its opening quote. *)
Fixpoint readString (s : string) : option (string * string) :=
  match s with
  | EmptyString => None
  | String c s' =>
      if Ascii.eqb c DQ then Some (EmptyString, s')
      else if Ascii.eqb c "\" then
        match s' with
        | String e s'' =>
            let unescaped :=
              if Ascii.eqb e DQ then Some DQ
              else if Ascii.eqb e "\" then Some "\"%char
              else if Ascii.eqb e "/" then Some "/"%char
              else if Ascii.eqb e "n" then Some LF
              else if Ascii.eqb e "t" then Some (ascii_of_nat 9)
              else if Ascii.eqb e "r" then Some (ascii_of_nat 13)
              else None in
            match unescaped, readString s'' with
            | Some u, Some (text, rest) => Some (String u text, rest)
            | _, _ => None
            end
        | EmptyString => None
        end
      else match readString s' with
           | Some (text, rest) => Some (String c text, rest)
           | None => None
           end
  end.

Fixpoint readDigits (acc : Z) (s : string) : Z * string :=
  match s with
  | String c s' =>
      match digit_of c with
      | Some d => readDigits (acc * 10 + d) s'
      | None => (acc, s)
      end
  | EmptyString => (acc, s)
  end.

Definition readNumber (s : string) : option (json * string) :=
  let '(negative, digits) :=
    match s with
    | String "-" r => (true, r)
    | _ => (false, s)
    end in
  match digits with
  | String c _ =>
      match digit_of c with
      | Some _ =>
          let '(n, rest) := readDigits 0 digits in
          match rest with
          | String "." _ | String "e" _ | String "E" _ => None
          | _ => Some (JNum (if negative : bool then - n else n), rest)
          end
      | None => None
      end
  | EmptyString => None
  end.

(** The elements of an array after [[], and the members of an object
    after [{], given the reader of a value. *)
Fixpoint readElements (value : string -> option (json * string)) (fuel : nat)
    (s : string) : option (list json * string) :=
  match fuel with
  | O => None
  | S fuel' =>
      match value s with
      | Some (v, rest) =>
          match skipSpace rest with
          | String "," rest' =>
              match readElements value fuel' rest' with
              | Some (vs, rest'') => Some (v :: vs, rest'')
              | None => None
              end
          | String "]" rest' => Some ([v], rest')
          | _ => None
          end
      | None => None
      end
  end.

Fixpoint readMembers (value : string -> option (json * string)) (fuel : nat)
    (s : string) : option (list (string * json) * string) :=
  match fuel with
  | O => None
  | S fuel' =>
      match skipSpace s with
      | String c afterQuote =>
          if Ascii.eqb c DQ then
            match readString afterQuote with
            | Some (key, rest) =>
                match skipSpace rest with
                | String ":" rest1 =>
                    match value rest1 with
                    | Some (v, rest2) =>
                        match skipSpace rest2 with
                        | String "," rest3 =>
                            match readMembers value fuel' rest3 with
                            | Some (ms, rest4) => Some ((key, v) :: ms, rest4)
                            | None => None
                            end
                        | String "}" rest3 => Some ([(key, v)], rest3)
                        | _ => None
                        end
                    | None => None
                    end
                | _ => None
                end
            | None => None
            end
          else None
      | EmptyString => None
      end
  end.

Fixpoint readValue (fuel : nat) (s : string) : option (json * string) :=
  match fuel with
  | O => None
  | S fuel' =>
      match skipSpace s with
      | String "{" r =>
          match skipSpace r with
          | String "}" r' => Some (JObj [], r')
          | _ => match readMembers (readValue fuel') fuel' r with
                 | Some (ms, rest) => Some (JObj ms, rest)
                 | None => None
                 end
          end
      | String "[" r =>
          match skipSpace r with
          | String "]" r' => Some (JArr [], r')
          | _ => match readElements (readValue fuel') fuel' r with
                 | Some (vs, rest) => Some (JArr vs, rest)
                 | None => None
                 end
          end
      | String c r as text =>
          if Ascii.eqb c DQ then
            match readString r with
            | Some (t, rest) => Some (JStr t, rest)
            | None => None
            end
          else if String.prefix "true" text then Some (JBool true, drop 4 text)
          else if String.prefix "false" text then Some (JBool false, drop 5 text)
          else if String.prefix "null" text then Some (JNull, drop 4 text)
          else readNumber text
      | EmptyString => None
      end
  end.

Definition parseJson (text : string) : option json :=
  match readValue (S (strlen text)) text with
  | Some (v, rest) => if String.eqb (skipSpace rest) "" then Some v else None
  | None => None
  end.

(** Build JSON text without writing a quote inside a string literal:
    [q "a"] is the literal ["a"] with its quotes. *)
Definition q (s : string) : string := dq +:+ s +:+ dq.

(** Collaborators that report no flag, and the JSON reader. *)
Definition quietHealth : health :=
  {| overloadHandling_enabled := 10;
     isAccountRateLimited := fun _ _ => false;
     isAccountOverloaded := fun _ => false;
     JSON_parse := parseJson |}.

(** Collaborators that report the account rate-limited and overloaded. *)
Definition flaggedHealth : health :=
  {| overloadHandling_enabled := 10;
     isAccountRateLimited := fun _ _ => true;
     isAccountOverloaded := fun _ => true;
     JSON_parse := parseJson |}.

Definition emptyWorld : world :=
  {| redis := {| kv_value := ∅; kv_ttl := ∅ |}; calls := [] |}.

(** A world in which the account has one 401 on record. *)
Definition worldWith401 (accountId : string) : world :=
  {| redis := {| kv_value := {[ key401 accountId := 1 ]};
                 kv_ttl := {[ key401 accountId := 300 ]} |};
     calls := [] |}.

End Fixtures.


(** * Properties *)

#[local] Arguments String.append : simpl nomatch.

(** ** Strings *)

Module JsFacts.
Import Js.

Lemma append_empty_r (s : string) : s +:+ "" = s.
Proof. induction s as [|a s IH]; simpl; [done | by rewrite IH]. Qed.

Lemma append_assoc (a b c : string) : (a +:+ b) +:+ c = a +:+ (b +:+ c).
Proof. induction a as [|x a IH]; simpl; [done | by rewrite IH]. Qed.

Lemma contains_append (c : ascii) (a b : string) :
  contains c (a +:+ b) = contains c a || contains c b.
Proof.
  induction a as [|x a IH]; simpl; [done |].
  rewrite IH. by rewrite orb_assoc.
Qed.

Lemma contains_rev_app (c : ascii) (a b : string) :
  contains c (String.rev_app a b) = contains c a || contains c b.
Proof.
  revert b. induction a as [|x a IH]; intros b; simpl; [done |].
  rewrite IH. simpl. destruct (Ascii.eqb x c), (contains c a); done.
Qed.

Lemma contains_rev (c : ascii) (s : string) :
  contains c (String.rev s) = contains c s.
Proof. unfold String.rev. rewrite contains_rev_app. simpl. by rewrite orb_false_r. Qed.

Lemma contains_trimStart (c : ascii) (s : string) :
  contains c (trimStart s) = true -> contains c s = true.
Proof.
  induction s as [|a s IH]; simpl; [done |].
  destruct (Ascii.is_space a); simpl; [|done].
  intros H. rewrite (IH H). by rewrite orb_true_r.
Qed.

Lemma contains_trim (c : ascii) (s : string) :
  contains c s = false -> contains c (trim s) = false.
Proof.
  intros Hs. destruct (contains c (trim s)) eqn:E; [|done].
  unfold trim in E. rewrite contains_rev in E.
  apply contains_trimStart in E. rewrite contains_rev in E.
  apply contains_trimStart in E. congruence.
Qed.

(** No piece of a split holds the separator. *)
Lemma split_pieces (sep : ascii) (s : string) :
  Forall (fun x => contains sep x = false) (split sep s).
Proof.
  induction s as [|a s IH]; simpl.
  - by constructor.
  - destruct (Ascii.eqb a sep) eqn:E.
    + by constructor.
    + destruct (split sep s) as [|h t].
      * constructor; [|done]. simpl. by rewrite E.
      * inversion IH; subst. constructor; [|done]. simpl. by rewrite E.
Qed.

Lemma split_nonempty (sep : ascii) (s : string) : split sep s <> [].
Proof.
  destruct s as [|a s]; simpl; [done |].
  destruct (Ascii.eqb a sep); [done |]. by destruct (split sep s).
Qed.

Lemma split_whole (sep : ascii) (x : string) :
  contains sep x = false -> split sep x = [x].
Proof.
  induction x as [|a x IH]; simpl; [done |].
  intros H. apply orb_false_iff in H as [Ha Hx].
  rewrite Ha, (IH Hx). done.
Qed.

Lemma split_cons (sep : ascii) (x rest : string) :
  contains sep x = false ->
  split sep (x +:+ String sep rest) = x :: split sep rest.
Proof.
  induction x as [|a x IH]; simpl.
  - intros _. by rewrite Ascii.eqb_refl.
  - intros H. apply orb_false_iff in H as [Ha Hx].
    rewrite Ha, (IH Hx). done.
Qed.

(** Splitting what was joined gives the pieces back. *)
Lemma split_join (sep : ascii) (l : list string) :
  l <> [] ->
  Forall (fun x => contains sep x = false) l ->
  split sep (join (String sep "") l) = l.
Proof.
  induction l as [|x l IH]; [done |].
  intros _ Hall. inversion Hall as [|? ? Hx Hl]; subst.
  destruct l as [|y l].
  - simpl. by apply split_whole.
  - change (join (String sep "") (x :: y :: l))
      with (x +:+ String sep "" +:+ join (String sep "") (y :: l)).
    change (String sep "" +:+ join (String sep "") (y :: l))
      with (String sep (join (String sep "") (y :: l))).
    rewrite split_cons by done. f_equal. by apply IH.
Qed.

Lemma endsWith_append (p s : string) : endsWith (p +:+ s) s = true.
Proof.
  induction p as [|a p IH]; simpl.
  - destruct s; simpl; [done |]. rewrite Ascii.eqb_refl, String.eqb_refl. done.
  - rewrite IH. by rewrite orb_true_r.
Qed.

Lemma endsWith_contains (c : ascii) (p s : string) :
  endsWith p s = true -> contains c s = true -> contains c p = true.
Proof.
  induction p as [|a p IH]; cbn [endsWith].
  - intros H Hc. rewrite orb_false_r in H.
    apply String.eqb_eq in H. by subst s.
  - intros H Hc. apply orb_true_iff in H as [H|H].
    + apply String.eqb_eq in H. by subst s.
    + cbn [contains]. rewrite (IH H Hc). by rewrite orb_true_r.
Qed.

Lemma strlen_append (a b : string) : strlen (a +:+ b) = (strlen a + strlen b)%nat.
Proof. unfold strlen. induction a as [|x a IH]; simpl; [done | by rewrite IH]. Qed.

Lemma substring_all (s : string) : String.substring 0 (strlen s) s = s.
Proof. unfold strlen. induction s as [|x s IH]; simpl; [done | by rewrite IH]. Qed.

Lemma take_append (a b : string) : take (strlen a) (a +:+ b) = a.
Proof.
  unfold take, strlen. induction a as [|x a IH]; simpl.
  - by destruct b.
  - by rewrite IH.
Qed.

Lemma drop_append (a b : string) : drop (strlen a) (a +:+ b) = b.
Proof.
  unfold drop. rewrite strlen_append.
  replace (strlen a + strlen b - strlen a)%nat with (strlen b) by lia.
  unfold strlen. induction a as [|x a IH]; simpl; [apply substring_all | apply IH].
Qed.

Lemma lastIndexOf_absent (c : ascii) (s : string) :
  contains c s = false -> lastIndexOf c s = None.
Proof.
  induction s as [|x s IH]; simpl; [done |].
  intros H. apply orb_false_iff in H as [Hx Hs]. by rewrite (IH Hs), Hx.
Qed.

(** The last occurrence of [c] in [a ++ c ++ b] when [b] holds none. *)
Lemma lastIndexOf_append (c : ascii) (a b : string) :
  contains c b = false -> lastIndexOf c (a +:+ String c b) = Some (strlen a).
Proof.
  intros Hb. induction a as [|x a IH]; simpl.
  - by rewrite (lastIndexOf_absent c b Hb), Ascii.eqb_refl.
  - by rewrite IH.
Qed.

(** A string with the prefix [p] is [p] followed by the rest. *)
Lemma startsWith_drop (s p : string) :
  startsWith s p = true -> s = p +:+ drop (strlen p) s.
Proof.
  unfold startsWith. revert s. induction p as [|x p IH]; intros s H.
  - simpl. unfold drop, strlen. rewrite Nat.sub_0_r.
    symmetry. apply substring_all.
  - destruct s as [|y s]; [done |]. simpl in H.
    destruct (Ascii.ascii_dec x y) as [->|]; [|done].
    simpl. f_equal. rewrite (IH s H) at 1. f_equal.
Qed.

End JsFacts.

(** ** Beta header *)

Module BetaHeaderFacts.
Import Js JsFacts BetaHeaderManager.

Definition comma : ascii := ","%char.

Definition commaFree (l : list string) : Prop :=
  Forall (fun x => contains comma x = false) l.

Lemma set_add_commaFree (x : string) (l : list string) :
  contains comma x = false -> commaFree l -> commaFree (set_add x l).
Proof.
  intros Hx Hl. unfold set_add. case_bool_decide; [done |].
  apply Forall_app. split; [done |]. by constructor.
Qed.

Lemma add_base_commaFree (model : json) (features : list string) (piece : string) :
  contains comma piece = false -> commaFree features ->
  commaFree (add_base model features piece).
Proof.
  intros Hp Hf. unfold add_base.
  destruct (negb _ && _); [|done].
  apply set_add_commaFree; [|done]. by apply contains_trim.
Qed.

Lemma fold_add_base_commaFree (model : json) (pieces features : list string) :
  commaFree pieces -> commaFree features ->
  commaFree (fold_left (add_base model) pieces features).
Proof.
  revert features. induction pieces as [|p ps IH]; intros features Hp Hf; simpl; [done |].
  inversion Hp; subst. apply IH; [done |]. by apply add_base_commaFree.
Qed.

Lemma collectFeatures_commaFree (model : json) (base client : string)
    (o : requestOptions) :
  commaFree (collectFeatures model base client o).
Proof.
  unfold collectFeatures.
  assert (H0 : commaFree (if String.eqb base "" then []
                          else fold_left (add_base model) (split "," base) [])).
  { destruct (String.eqb base ""); [by constructor |].
    apply fold_add_base_commaFree; [apply split_pieces | by constructor]. }
  assert (H1 : commaFree
            (if negb (String.eqb client "") && includes client "context-1m-2025-08-07"
             then set_add "context-1m-2025-08-07"
                    (if String.eqb base "" then []
                     else fold_left (add_base model) (split "," base) [])
             else if String.eqb base "" then []
                  else fold_left (add_base model) (split "," base) [])).
  { destruct (negb _ && _); [|done]. by apply set_add_commaFree. }
  destruct (isCountTokens o); [|done]. by apply set_add_commaFree.
Qed.

Lemma FEATURE_ORDER_commaFree : commaFree FEATURE_ORDER.
Proof. unfold commaFree, FEATURE_ORDER. repeat constructor. Qed.

Lemma filter_commaFree (P : string -> Prop) `{!forall x, Decision (P x)}
    (l : list string) :
  commaFree l -> commaFree (filter P l).
Proof.
  unfold commaFree. rewrite !Forall_forall. intros Hl x Hx.
  apply list_elem_of_filter in Hx as [_ Hx]. by apply Hl.
Qed.

Lemma orderFeatures_commaFree (features : list string) :
  commaFree features -> commaFree (orderFeatures features).
Proof.
  intros H. unfold orderFeatures. apply Forall_app. split.
  - apply filter_commaFree, FEATURE_ORDER_commaFree.
  - by apply filter_commaFree.
Qed.

(** The tokens of the emitted header are the ordered features. *)
Lemma buildBetaHeader_tokens (model : json) (base client : string)
    (o : requestOptions) (h : string) :
  buildBetaHeader model base client o = Some h ->
  h <> "" /\
  split comma h = orderFeatures (collectFeatures model base client o).
Proof.
  unfold buildBetaHeader.
  set (l := orderFeatures (collectFeatures model base client o)).
  destruct (String.eqb (join "," l) "") eqn:E; [done |].
  intros [= <-]. apply String.eqb_neq in E. split; [done |].
  apply (split_join comma).
  - intros ->. by apply E.
  - apply orderFeatures_commaFree, collectFeatures_commaFree.
Qed.

(** The ordered features: a subsequence of the canonical order, then
    tokens that are not canonical. *)
Lemma orderFeatures_shape (features : list string) :
  exists canon extras,
    orderFeatures features = canon ++ extras
    /\ sublist canon FEATURE_ORDER
    /\ Forall (fun x => x ∉ FEATURE_ORDER) extras
    /\ (forall x, x ∈ canon <-> x ∈ FEATURE_ORDER /\ x ∈ features)
    /\ (forall x, x ∈ extras <-> x ∈ features /\ x ∉ FEATURE_ORDER).
Proof.
  exists (filter (fun f => set_has f features = true) FEATURE_ORDER),
         (filter (fun f => f ∉ FEATURE_ORDER) features).
  split; [done |]. split; [apply sublist_filter |]. split.
  - apply Forall_forall. intros x Hx. by apply list_elem_of_filter in Hx as [? _].
  - split; intros x; rewrite list_elem_of_filter.
    + unfold set_has. rewrite bool_decide_eq_true. tauto.
    + tauto.
Qed.

End BetaHeaderFacts.

(** ** The outbound request *)

Module RequestFacts.
Import Js JsFacts BetaHeaderManager BetaHeaderFacts ClaudeRelayService.

Lemma spread_lookup_other (k : string) (l : list (string * string))
    (m : gmap string string) :
  Forall (fun kv => kv.1 <> k) l -> spread m l !! k = m !! k.
Proof.
  unfold spread. revert m. induction l as [|[k' v] l IH]; intros m Hl; simpl; [done |].
  inversion Hl; subst. rewrite IH by done. by apply lookup_insert_ne.
Qed.

Ltac other_keys := repeat constructor; simpl; discriminate.

(** Before the beta header is added no header is called [anthropic-beta]. *)
Lemma requestHeaders_without_beta (stream : bool) (dc : dispatchConfig)
    (acct : option account) (random : randomHeaders) (token : string) :
  requestHeaders stream dc acct random token !! "anthropic-beta" = None.
Proof.
  unfold requestHeaders.
  set (h0 := spread ∅ (FIXED_HEADERS ++ (if stream then STREAM_HEADER else []))).
  set (h1 := spread h0 _).
  assert (E0 : h0 !! "anthropic-beta" = None).
  { unfold h0. rewrite spread_lookup_other; [done |].
    destruct stream; other_keys. }
  assert (E1 : h1 !! "anthropic-beta" = None).
  { unfold h1. rewrite spread_lookup_other; [done | other_keys]. }
  destruct acct as [a|]; [|done].
  destruct (String.eqb (banMode a) "true"); [|done].
  rewrite spread_lookup_other; [done | other_keys].
Qed.

Lemma basePath_plain (dc : dispatchConfig) (o : requestOptions) (p0 : string) :
  contains "?" (pathname (claudeApiUrl dc)) = false ->
  (forall p q, resolvePathname dc p = Some q -> contains "?" q = false) ->
  basePath dc o = Ok p0 -> contains "?" p0 = false.
Proof.
  intros Hplain Hresolve. unfold basePath.
  destruct (customPath o) as [p|].
  - destruct (String.eqb p ""); [by intros [= <-] |].
    destruct (resolvePathname dc p) as [q|] eqn:Eq; [|done].
    intros [= <-]. by apply (Hresolve p).
  - by intros [= <-].
Qed.

(** The path before the query suffix is a URL path name. *)
Definition pathnames_plain (dc : dispatchConfig) : Prop :=
  contains "?" (pathname (claudeApiUrl dc)) = false
  /\ forall p q, resolvePathname dc p = Some q -> contains "?" q = false.

(** C6. The tokens of the emitted [anthropic-beta] header are a subsequence
    of the canonical order [FEATURE_ORDER] followed by the admitted tokens
    that are not canonical, for every model and every base and client beta
    string; and the request path of the outbound request ends in
    [?beta=true] exactly when a non-empty [anthropic-beta] header is set
    (the path names that the [URL] parser returns hold no question mark). *)
Theorem beta_header_order_and_query_suffix
    (model : json) (base client : string) (o1 : requestOptions)
    (stream : bool) (dc : dispatchConfig) (acct : option account)
    (random : randomHeaders) (body : json) (token : string)
    (clientHeaders : gmap string string) (o : requestOptions)
    (req : upstreamRequest) :
  pathnames_plain dc ->
  outboundRequest stream dc acct random body token clientHeaders o = Ok req ->
  (forall h, buildBetaHeader model base client o1 = Some h ->
     exists canon extras,
       split "," h = canon ++ extras
       /\ sublist canon FEATURE_ORDER
       /\ Forall (fun x => x ∉ FEATURE_ORDER) extras)
  /\ (forall h, headers req !! "anthropic-beta" = Some h ->
        exists canon extras,
          split "," h = canon ++ extras
          /\ sublist canon FEATURE_ORDER
          /\ Forall (fun x => x ∉ FEATURE_ORDER) extras)
  /\ (endsWith (requestPath req) "?beta=true" = true
      <-> exists h, headers req !! "anthropic-beta" = Some h /\ h <> "").
Proof.
  intros [Hplain Hresolve] Hreq.
  assert (Horder : forall m b c o' h, buildBetaHeader m b c o' = Some h ->
     exists canon extras,
       split "," h = canon ++ extras
       /\ sublist canon FEATURE_ORDER
       /\ Forall (fun x => x ∉ FEATURE_ORDER) extras).
  { intros m b c o' h Hh. apply buildBetaHeader_tokens in Hh as [_ Hh].
    destruct (orderFeatures_shape (collectFeatures m b c o'))
      as (canon & extras & Heq & Hsub & Hext & _).
    exists canon, extras. split; [|done]. unfold comma in Hh. by rewrite Hh. }
  split; [by apply Horder |].
  unfold outboundRequest in Hreq.
  destruct (basePath dc o) as [p0| |] eqn:Ep0; try discriminate.
  apply (basePath_plain _ _ _ Hplain Hresolve) in Ep0 as Hp0.
  pose proof (requestHeaders_without_beta stream dc acct random token) as Hbase.
  cbn [mbind result_bind] in Hreq.
  destruct (getBetaHeader (configBetaHeader dc) _ o clientHeaders) as [b|] eqn:Eb;
    injection Hreq as <-; cbn [headers requestPath].
  - unfold getBetaHeader in Eb. split.
    + intros h. rewrite lookup_insert_eq. intros [= <-]. by apply (Horder _ _ _ _ _ Eb).
    + split; [|intros _; apply endsWith_append].
      intros _. exists b. rewrite lookup_insert_eq. split; [done |].
      by apply buildBetaHeader_tokens in Eb as [? _].
  - split.
    + intros h Hh. rewrite Hbase in Hh. done.
    + split.
      * intros Hends. apply (endsWith_contains "?") in Hends; [|done]. congruence.
      * intros (h & Hh & _). rewrite Hbase in Hh. done.
Qed.

Lemma beforeQuery_plain (p : string) : contains "?" (Fixtures.beforeQuery p) = false.
Proof.
  induction p as [|c p IH]; simpl; [done |].
  destruct (Ascii.eqb c "?") eqn:E; simpl; [done |]. by rewrite E.
Qed.

Lemma beta_header_order_and_query_suffix_witness :
  pathnames_plain Fixtures.dispatch
  /\ exists req,
       outboundRequest true Fixtures.dispatch None Fixtures.random
         Fixtures.thinkingBody "token" ∅ Fixtures.noOptions = Ok req
       /\ (endsWith (requestPath req) "?beta=true" = true
           <-> exists h, headers req !! "anthropic-beta" = Some h /\ h <> "").
Proof.
  assert (Hplain : pathnames_plain Fixtures.dispatch).
  { split; [done |]. intros p q [= <-]. apply beforeQuery_plain. }
  split; [exact Hplain |].
  eexists. split; [reflexivity |].
  exact (proj2 (proj2 (beta_header_order_and_query_suffix
           (JStr "claude-sonnet-4-20250514") "" "" Fixtures.noOptions
           true Fixtures.dispatch None Fixtures.random Fixtures.thinkingBody
           "token" ∅ Fixtures.noOptions _ Hplain eq_refl))).
Defined.

End RequestFacts.

(** ** Request body preparation: which step touches which field *)

Module BodyFacts.
Import Js JsFacts ClaudeRelayService.

Lemma assoc_get_set_eq (k : string) (v : json) (fs : list (string * json)) :
  assoc_get k (assoc_set k v fs) = Some v.
Proof.
  induction fs as [|[k' v'] fs IH]; simpl.
  - by rewrite String.eqb_refl.
  - destruct (String.eqb k' k) eqn:E; simpl.
    + by rewrite String.eqb_refl.
    + by rewrite E.
Qed.

Lemma assoc_get_set_ne (k k' : string) (v : json) (fs : list (string * json)) :
  k <> k' -> assoc_get k (assoc_set k' v fs) = assoc_get k fs.
Proof.
  intros Hne. induction fs as [|[k0 v0] fs IH]; simpl.
  - destruct (String.eqb_spec k' k); [congruence | done].
  - destruct (String.eqb_spec k0 k'); simpl.
    + subst k0. destruct (String.eqb_spec k' k); [congruence | done].
    + destruct (String.eqb_spec k0 k); [done | apply IH].
Qed.

Lemma assoc_get_del_eq (k : string) (fs : list (string * json)) :
  assoc_get k (assoc_del k fs) = None.
Proof.
  induction fs as [|[k' v'] fs IH]; simpl; [done |].
  destruct (String.eqb k' k) eqn:E; simpl; [done |]. by rewrite E.
Qed.

Lemma assoc_get_del_ne (k k' : string) (fs : list (string * json)) :
  k <> k' -> assoc_get k (assoc_del k' fs) = assoc_get k fs.
Proof.
  intros Hne. induction fs as [|[k0 v0] fs IH]; simpl; [done |].
  destruct (String.eqb_spec k0 k'); simpl.
  - subst k0. destruct (String.eqb_spec k' k); [congruence | done].
  - destruct (String.eqb_spec k0 k); [done | apply IH].
Qed.

(** A step leaves the field [k] alone. *)
Definition keeps (k : string) (f : list (string * json) -> list (string * json)) : Prop :=
  forall pb, assoc_get k (f pb) = assoc_get k pb.

Definition keepsR (k : string)
    (f : list (string * json) -> result (list (string * json))) : Prop :=
  forall pb pb', f pb = Ok pb' -> assoc_get k pb' = assoc_get k pb.

(** Split every [match] and [if] of the goal, then rewrite the lookups. *)
Ltac split_cases :=
  repeat (cbn [mbind result_bind mret result_ret] in *;
          match goal with
          | |- context [match ?x with _ => _ end] => destruct x eqn:?
          | H : context [match ?x with _ => _ end] |- _ => destruct x eqn:?
          | |- context [mbind _ ?r] => destruct r eqn:?
          | H : context [mbind _ ?r] |- _ => destruct r eqn:?
          end);
  cbn [mbind result_bind mret result_ret] in *.

Ltac lookups :=
  repeat first
    [ rewrite assoc_get_set_ne by congruence
    | rewrite assoc_get_del_ne by congruence ];
  try done.

Ltac frame :=
  intros; split_cases; simplify_eq; lookups.

Lemma splitModelVariant_keeps (k : string) :
  k <> "model" -> k <> "_modelVariant" -> keeps k splitModelVariant.
Proof. intros ? ? pb. unfold splitModelVariant. frame. Qed.

Lemma stripSecondSystemMsg_keeps (k : string) :
  k <> "system" -> keepsR k stripSecondSystemMsg.
Proof. intros ? pb pb'. unfold stripSecondSystemMsg. frame. Qed.

Lemma stripReminders_keeps (k : string) :
  k <> "messages" -> keeps k stripReminders.
Proof. intros ? pb. unfold stripReminders. frame. Qed.

Lemma validate_keeps (cfg : config) (k : string) :
  k <> "max_tokens" -> keepsR k (_validateAndLimitMaxTokens cfg).
Proof.
  intros ? pb pb'. unfold _validateAndLimitMaxTokens, js_gt.
  frame.
Qed.

Lemma stripTtl_keeps (k : string) :
  k <> "system" -> k <> "messages" -> keeps k _stripTtlFromCacheControl.
Proof. intros ? ? pb. unfold _stripTtlFromCacheControl. frame. Qed.

Lemma inject_keeps (k : string) :
  k <> "system" -> keeps k injectClaudeCodePrompt.
Proof. intros ? pb. unfold injectClaudeCodePrompt. frame. Qed.

Lemma applySystemPrompt_keeps (cfg : config) (k : string) :
  k <> "system" -> keepsR k (applySystemPrompt cfg).
Proof.
  intros ? pb pb'. unfold applySystemPrompt. frame.
Qed.

Lemma dropTopP_keeps (k : string) : k <> "top_p" -> keeps k dropTopP.
Proof. intros ? pb. unfold dropTopP. frame. Qed.

Lemma replaceClientId_keeps (sessionId uid k : string) :
  k <> "metadata" -> keepsR k (_replaceClientId sessionId uid).
Proof. intros ? pb pb'. unfold _replaceClientId. frame. Qed.

Lemma applyThinking_keeps (variant : option json) (k : string) :
  k <> "thinking" -> keepsR k (applyThinking variant).
Proof.
  intros ? pb pb'. unfold applyThinking. cbn [mbind result_bind]. frame.
Qed.

(** The steps of [_processRequestBody] on an object body, one by one. *)
Inductive prepared (cfg : config) (sessionId : string) (pb0 : list (string * json))
    (clientHeaders : gmap string string) (acct : option account)
    (out : list (string * json)) : Prop :=
| Prepared (variant : option json) (pb2 pb3 pb5 pb7 pb8 pb10 : list (string * json))
    (step_variant : variant = assoc_get "_modelVariant" (splitModelVariant pb0))
    (step_pb2 : pb2 = if truthy_opt variant
                      then assoc_del "_modelVariant" (splitModelVariant pb0)
                      else splitModelVariant pb0)
    (step_pb3 : stripSecondSystemMsg pb2 = Ok pb3)
    (step_pb5 : _validateAndLimitMaxTokens cfg (stripReminders pb3) = Ok pb5)
    (step_pb7 : pb7 = if validate cfg (JObj (_stripTtlFromCacheControl pb5)) clientHeaders
                      then _stripTtlFromCacheControl pb5
                      else injectClaudeCodePrompt (_stripTtlFromCacheControl pb5))
    (step_pb8 : applySystemPrompt cfg pb7 = Ok pb8)
    (step_pb10 :
       match acct with
       | Some a =>
           if useUnifiedClientId a && negb (String.eqb (unifiedClientId a) "")
           then _replaceClientId sessionId (unifiedClientId a) (dropTopP pb8)
           else Ok (dropTopP pb8)
       | None => Ok (dropTopP pb8)
       end = Ok pb10)
    (step_out : applyThinking variant pb10 = Ok out).

Lemma processRequestBody_steps (cfg : config) (sessionId : string)
    (pb0 : list (string * json)) (clientHeaders : gmap string string)
    (acct : option account) (out : json) :
  _processRequestBody cfg sessionId (JObj pb0) clientHeaders acct false = Ok out ->
  exists pb, out = JObj pb /\ prepared cfg sessionId pb0 clientHeaders acct pb.
Proof.
  unfold _processRequestBody. cbn [truthy negb]. cbv zeta.
  destruct (stripSecondSystemMsg _) as [pb3| |] eqn:E3; cbn [mbind result_bind]; try done.
  destruct (_validateAndLimitMaxTokens cfg _) as [pb5| |] eqn:E5;
    cbn [mbind result_bind]; try done.
  destruct (applySystemPrompt cfg _) as [pb8| |] eqn:E8;
    cbn [mbind result_bind]; try done.
  match goal with
  | |- context [mbind _ ?r] => destruct r as [pb10| |] eqn:E10
  end; cbn [mbind result_bind]; try done.
  destruct (applyThinking _ pb10) as [pb11| |] eqn:E11;
    cbn [mbind result_bind]; try done.
  intros [= <-]. exists pb11. split; [done |].
  by econstructor.
Qed.

(** What the preparation does to a field that only one step writes. *)
Lemma prepared_top_p cfg sessionId pb0 hdrs acct out :
  prepared cfg sessionId pb0 hdrs acct out ->
  assoc_get "top_p" out =
    match assoc_get "top_p" pb0 with
    | Some JNull => Some JNull
    | _ => None
    end.
Proof.
  intros [variant pb2 pb3 pb5 pb7 pb8 pb10 Hv H2 H3 H5 H7 H8 H10 Hout].
  rewrite (applyThinking_keeps variant "top_p" ltac:(done) _ _ Hout).
  assert (E8 : assoc_get "top_p" pb8 = assoc_get "top_p" pb0).
  { rewrite (applySystemPrompt_keeps cfg "top_p" ltac:(done) _ _ H8).
    assert (E7 : assoc_get "top_p" pb7 = assoc_get "top_p" pb5).
    { rewrite H7. destruct (validate cfg _ hdrs).
      - by apply stripTtl_keeps.
      - rewrite inject_keeps by done. by apply stripTtl_keeps. }
    rewrite E7, (validate_keeps cfg "top_p" ltac:(done) _ _ H5).
    rewrite stripReminders_keeps by done.
    rewrite (stripSecondSystemMsg_keeps "top_p" ltac:(done) _ _ H3).
    rewrite H2. destruct (truthy_opt variant).
    - rewrite assoc_get_del_ne by done. by apply splitModelVariant_keeps.
    - by apply splitModelVariant_keeps. }
  assert (E9 : assoc_get "top_p" (dropTopP pb8) =
               match assoc_get "top_p" pb0 with
               | Some JNull => Some JNull
               | _ => None
               end).
  { rewrite <- E8. unfold dropTopP.
    destruct (assoc_get "top_p" pb8) as [[]|] eqn:E;
      rewrite ?assoc_get_del_eq, ?E; done. }
  destruct acct as [a|].
  - destruct (useUnifiedClientId a && _).
    + by rewrite (replaceClientId_keeps _ _ "top_p" ltac:(done) _ _ H10).
    + by injection H10 as <-.
  - by injection H10 as <-.
Qed.

(** C5 (amended). A request body that is prepared for anything but
    [count_tokens] leaves with no [top_p] other than [null]: a [top_p] that
    is present and not [null] is deleted, an explicit [null] is passed on
    as it came. A [count_tokens] body is returned unchanged, [top_p]
    included. *)
Theorem top_p_removed_unless_null
    (cfg : config) (sessionId : string) (body : json)
    (clientHeaders : gmap string string) (acct : option account)
    (isCountTokens : bool) (out : json) :
  _processRequestBody cfg sessionId body clientHeaders acct isCountTokens = Ok out ->
  (isCountTokens = true -> out = body)
  /\ (isCountTokens = false ->
      get "top_p" out =
        match get "top_p" body with
        | Some JNull => Some JNull
        | _ => None
        end).
Proof.
  intros Hout. split.
  - intros ->. unfold _processRequestBody in Hout.
    destruct (negb (truthy body)); by injection Hout.
  - intros ->. destruct body as [| b | n | s | items | pb0].
    all: try (unfold _processRequestBody in Hout; simpl in Hout;
              repeat match type of Hout with
                | context [if ?c then _ else _] => destruct c
                end; by simplify_eq).
    apply processRequestBody_steps in Hout as (pb & -> & Hprep).
    cbn [get]. by apply (prepared_top_p cfg sessionId pb0 clientHeaders acct).
Qed.

Definition topPBody (top_p : json) : json :=
  JObj [ ("model", JStr "claude-sonnet-4-20250514"); ("max_tokens", JNum 1024);
         ("temperature", JNum 1); ("top_p", top_p) ].

Lemma top_p_removed_unless_null_witness :
  exists out,
    _processRequestBody Fixtures.plainConfig Fixtures.uuid (topPBody (JNum 1)) ∅ None false
      = Ok out
    /\ get "top_p" out = None.
Proof.
  eexists. split; [reflexivity |].
  exact (proj2 (top_p_removed_unless_null Fixtures.plainConfig Fixtures.uuid
                  (topPBody (JNum 1)) ∅ None false _ eq_refl) eq_refl).
Defined.

(** The claim as it was stated fails: a [null] [top_p] is still a field of
    the outbound body. *)
Lemma top_p_null_stays :
  ~ (forall (cfg : config) (sessionId : string) (body : json)
       (clientHeaders : gmap string string) (acct : option account)
       (isCountTokens : bool) (out : json),
       _processRequestBody cfg sessionId body clientHeaders acct isCountTokens = Ok out ->
       get "top_p" out = None).
Proof.
  intros H.
  specialize (H Fixtures.plainConfig Fixtures.uuid (topPBody JNull) ∅ None false _ eq_refl).
  vm_compute in H. discriminate.
Qed.

(** A [count_tokens] body keeps its [top_p], whatever it holds. *)
Example top_p_count_tokens_stays :
  _processRequestBody Fixtures.plainConfig Fixtures.uuid (topPBody (JNum 1)) ∅ None true
  = Ok (topPBody (JNum 1)).
Proof. reflexivity. Qed.

(** The thinking budget in the spec's words: one below [max_tokens], and
    31999 when there is no (non-zero) [max_tokens]. *)
Definition budgetFor (max_tokens : option json) : Z :=
  match max_tokens with
  | Some (JNum n) => if n =? 0 then 31999 else n - 1
  | Some (JBool true) => 0
  | _ => 31999
  end.

Definition thinkingBlock (budget : Z) : json :=
  JObj [("type", JStr "enabled"); ("budget_tokens", JNum budget)].

Lemma splitModelVariant_thinking (pb0 : list (string * json)) (base : string) :
  assoc_get "model" pb0 = Some (JStr (base +:+ ":thinking")) ->
  splitModelVariant pb0 =
    let pb1 := assoc_set "model" (JStr base) pb0 in
    if negb (truthy_opt (assoc_get "_modelVariant" pb1))
    then assoc_set "_modelVariant" (JStr "thinking") pb1 else pb1.
Proof.
  intros Hm. unfold splitModelVariant. rewrite Hm.
  assert (Hne : String.eqb (base +:+ ":thinking") "" = false).
  { apply String.eqb_neq. by destruct base. }
  rewrite Hne.
  change (base +:+ ":thinking") with (base +:+ String ":" "thinking").
  rewrite lastIndexOf_append by done.
  rewrite take_append.
  replace (drop (strlen base + 1) (base +:+ String ":" "thinking")) with "thinking".
  - done.
  - change (base +:+ String ":" "thinking") with (base +:+ (":" +:+ "thinking")).
    rewrite <- append_assoc.
    replace (strlen base + 1)%nat with (strlen (base +:+ ":"))
      by (rewrite strlen_append; done).
    by rewrite drop_append.
Qed.

(** C7 (amended). A request that is not a [count_tokens] request, whose
    model ends in [:thinking] and whose body brings no other truthy
    [_modelVariant] of its own, leaves with the base model name and with
    [thinking = {type: "enabled", budget_tokens}], where the budget is one
    below the outbound [max_tokens] when that is a non-zero number and
    31999 when [max_tokens] is absent or zero; without a pricing table the
    outbound [max_tokens] is the inbound one. *)
Theorem thinking_variant_applied
    (cfg : config) (sessionId : string) (pb0 : list (string * json))
    (clientHeaders : gmap string string) (acct : option account)
    (base : string) (out : json) :
  assoc_get "model" pb0 = Some (JStr (base +:+ ":thinking")) ->
  truthy_opt (assoc_get "_modelVariant" pb0) = false
    \/ assoc_get "_modelVariant" pb0 = Some (JStr "thinking") ->
  _processRequestBody cfg sessionId (JObj pb0) clientHeaders acct false = Ok out ->
  get "model" out = Some (JStr base)
  /\ get "_modelVariant" out = None
  /\ get "thinking" out = Some (thinkingBlock (budgetFor (get "max_tokens" out)))
  /\ (pricingData cfg = None -> get "max_tokens" out = assoc_get "max_tokens" pb0).
Proof.
  intros Hm Hv Hout.
  apply processRequestBody_steps in Hout as (pb & -> & Hprep).
  destruct Hprep as [variant pb2 pb3 pb5 pb7 pb8 pb10 Hvar H2 H3 H5 H7 H8 H10 Hout].
  pose proof (splitModelVariant_thinking pb0 base Hm) as Hsplit. cbv zeta in Hsplit.
  rewrite (assoc_get_set_ne "_modelVariant" "model") in Hsplit by done.
  assert (Evar : variant = Some (JStr "thinking")).
  { rewrite Hvar, Hsplit. destruct Hv as [Hv|Hv].
    - rewrite Hv. simpl. apply assoc_get_set_eq.
    - rewrite Hv. simpl. by rewrite assoc_get_set_ne. }
  assert (E2 : forall k, k <> "_modelVariant" -> k <> "model" ->
                         assoc_get k pb2 = assoc_get k pb0).
  { intros k ? ?. rewrite H2, Evar. simpl.
    rewrite assoc_get_del_ne by done. by apply splitModelVariant_keeps. }
  assert (E2m : assoc_get "model" pb2 = Some (JStr base)).
  { rewrite H2, Evar. simpl. rewrite assoc_get_del_ne by done.
    rewrite Hsplit. destruct (negb _).
    - rewrite assoc_get_set_ne by done. apply assoc_get_set_eq.
    - apply assoc_get_set_eq. }
  assert (E2v : assoc_get "_modelVariant" pb2 = None).
  { rewrite H2, Evar. simpl. apply assoc_get_del_eq. }
  assert (Through : forall k, k <> "system" -> k <> "messages" -> k <> "max_tokens" ->
                      k <> "top_p" -> k <> "metadata" -> k <> "thinking" ->
                      assoc_get k pb = assoc_get k pb2).
  { intros k ? ? ? ? ? ?.
    rewrite (applyThinking_keeps variant k ltac:(done) _ _ Hout).
    assert (E10 : assoc_get k pb10 = assoc_get k pb8).
    { destruct acct as [a|]; [destruct (useUnifiedClientId a && _) |].
      - rewrite (replaceClientId_keeps _ _ k ltac:(done) _ _ H10).
        by apply dropTopP_keeps.
      - injection H10 as <-. by apply dropTopP_keeps.
      - injection H10 as <-. by apply dropTopP_keeps. }
    rewrite E10, (applySystemPrompt_keeps cfg k ltac:(done) _ _ H8), H7.
    assert (E6 : assoc_get k (_stripTtlFromCacheControl pb5) = assoc_get k pb2).
    { rewrite stripTtl_keeps by done.
      rewrite (validate_keeps cfg k ltac:(done) _ _ H5).
      rewrite stripReminders_keeps by done.
      by apply (stripSecondSystemMsg_keeps k ltac:(done) _ _ H3). }
    destruct (validate cfg _ clientHeaders); [done |].
    by rewrite inject_keeps. }
  cbn [get]. split; [by rewrite Through | split; [by rewrite Through |]].
  split.
  - unfold applyThinking in Hout. rewrite Evar in Hout. simpl in Hout.
    assert (Emt : assoc_get "max_tokens" pb = assoc_get "max_tokens" pb10).
    { apply (applyThinking_keeps variant "max_tokens" ltac:(done) pb10 pb).
      unfold applyThinking. rewrite Evar. exact Hout. }
    rewrite Emt. unfold budgetFor, thinkingBlock.
    destruct (assoc_get "max_tokens" pb10) as [[| [] | n | s | l | fs]|];
      simpl in Hout; try discriminate;
      try (injection Hout as <-; by rewrite assoc_get_set_eq).
    + destruct (n =? 0) eqn:En; simpl in Hout; injection Hout as <-;
        by rewrite assoc_get_set_eq.
    + destruct (String.eqb s ""); simpl in Hout; [|discriminate].
      injection Hout as <-. by rewrite assoc_get_set_eq.
  - intros Hnone.
    rewrite (applyThinking_keeps variant "max_tokens" ltac:(done) _ _ Hout).
    assert (E10 : assoc_get "max_tokens" pb10 = assoc_get "max_tokens" pb8).
    { destruct acct as [a|]; [destruct (useUnifiedClientId a && _) |].
      - rewrite (replaceClientId_keeps _ _ "max_tokens" ltac:(done) _ _ H10).
        by apply dropTopP_keeps.
      - injection H10 as <-. by apply dropTopP_keeps.
      - injection H10 as <-. by apply dropTopP_keeps. }
    rewrite E10, (applySystemPrompt_keeps cfg "max_tokens" ltac:(done) _ _ H8), H7.
    assert (E6 : assoc_get "max_tokens" (_stripTtlFromCacheControl pb5)
                 = assoc_get "max_tokens" pb0).
    { rewrite stripTtl_keeps by done.
      assert (E5 : pb5 = stripReminders pb3).
      { unfold _validateAndLimitMaxTokens in H5. rewrite Hnone in H5.
        destruct (assoc_get "max_tokens" (stripReminders pb3)) as [mt|];
          [destruct (negb (truthy mt)) |]; by injection H5. }
      rewrite E5, stripReminders_keeps by done.
      rewrite (stripSecondSystemMsg_keeps "max_tokens" ltac:(done) _ _ H3).
      by apply E2. }
    destruct (validate cfg _ clientHeaders); [done |].
    by rewrite inject_keeps.
Qed.

Lemma thinking_variant_applied_witness :
  exists out,
    _processRequestBody Fixtures.plainConfig Fixtures.uuid Fixtures.thinkingBody ∅ None false
      = Ok out
    /\ get "model" out = Some (JStr "claude-sonnet-4-20250514")
    /\ get "thinking" out = Some (thinkingBlock 7999).
Proof.
  eexists. split; [reflexivity |].
  pose proof (thinking_variant_applied Fixtures.plainConfig Fixtures.uuid
                [ ("model", JStr "claude-sonnet-4-20250514:thinking");
                  ("max_tokens", JNum 8000) ]
                ∅ None "claude-sonnet-4-20250514" _ eq_refl (or_introl eq_refl) eq_refl)
    as (Hmodel & _ & Hthinking & _).
  split; [exact Hmodel | exact Hthinking].
Defined.

(** The claim as it was stated fails: a [max_tokens] of zero is present,
    and the budget is 31999, not one below it. *)
Lemma thinking_budget_of_zero_max_tokens :
  ~ (forall (cfg : config) (sessionId : string) (pb0 : list (string * json))
       (clientHeaders : gmap string string) (acct : option account)
       (base : string) (n : Z) (out : json),
       assoc_get "model" pb0 = Some (JStr (base +:+ ":thinking")) ->
       assoc_get "max_tokens" pb0 = Some (JNum n) ->
       _processRequestBody cfg sessionId (JObj pb0) clientHeaders acct false = Ok out ->
       get "thinking" out = Some (thinkingBlock (n - 1))).
Proof.
  intros H.
  specialize (H Fixtures.plainConfig Fixtures.uuid
                [ ("model", JStr "claude-sonnet-4-20250514:thinking");
                  ("max_tokens", JNum 0) ]
                ∅ None "claude-sonnet-4-20250514" 0 _ eq_refl eq_refl eq_refl).
  vm_compute in H. discriminate.
Qed.

(** A variant that the body names itself wins over the suffix: the model
    loses its suffix, and no [thinking] is set. *)
Example thinking_variant_overridden :
  _processRequestBody Fixtures.plainConfig Fixtures.uuid
    (JObj [ ("model", JStr "claude-sonnet-4-20250514:thinking");
            ("_modelVariant", JStr "fast"); ("system", JStr "s") ])
    ∅ None false
  = Ok (JObj [ ("model", JStr "claude-sonnet-4-20250514");
               ("system", JArr [claudeCodePrompt; textBlock "s"]) ]).
Proof. reflexivity. Qed.

(** A pricing table with a lower ceiling lowers [max_tokens] first. *)
Example thinking_budget_after_clamp :
  _processRequestBody
    {| systemPrompt := "";
       pricingData := Some [ ("claude-sonnet-4-20250514",
                              JObj [("max_tokens", JNum 4096)]) ];
       validate := fun _ _ => true |}
    Fixtures.uuid Fixtures.thinkingBody ∅ None false
  = Ok (JObj [ ("model", JStr "claude-sonnet-4-20250514");
               ("max_tokens", JNum 4096);
               ("thinking", thinkingBlock 4095) ]).
Proof. reflexivity. Qed.

(** [metadata.user_id] of a body. *)
Definition user_id_of (body : json) : option json :=
  match get "metadata" body with
  | Some md => get "user_id" md
  | None => None
  end.

(** [s] matches [^user_<unifiedClientId>_account__session_[a-f0-9-]{36}$],
    the client id read literally. *)
Definition matchesUnified (unifiedClientId s : string) : Prop :=
  exists session,
    s = "user_" +:+ unifiedClientId +:+ "_account__session_" +:+ session
    /\ strlen session = 36%nat
    /\ all_chars is_hex_dash session = true.

(** What [crypto.randomUUID()] returns: 36 characters, hexadecimal digits
    and dashes. *)
Definition uuidShaped (s : string) : Prop :=
  strlen s = 36%nat /\ all_chars is_hex_dash s = true.

Lemma match_user_id_group (userId group : string) :
  match_user_id userId = Some group ->
  exists session,
    group = "_account__session_" +:+ session
    /\ strlen session = 36%nat /\ all_chars is_hex_dash session = true.
Proof.
  unfold match_user_id.
  destruct (startsWith userId "user_"); [|done].
  destruct (strlen (take 64 (drop 5 userId)) =? 64)%nat; [|done].
  destruct (all_chars is_hex_lower _); [|done].
  destruct (startsWith (drop 64 (drop 5 userId)) "_account__session_") eqn:Ep; [|done].
  destruct (strlen (drop 18 (drop 64 (drop 5 userId))) =? 36)%nat eqn:El; [|done].
  destruct (all_chars is_hex_dash _) eqn:Ea; [|done].
  cbn [andb]. intros [= <-].
  exists (drop 18 (drop 64 (drop 5 userId))). split; [|split].
  - by apply startsWith_drop in Ep.
  - by apply Nat.eqb_eq.
  - done.
Qed.

(** [_replaceClientId] on the three kinds of [metadata.user_id]. *)
Lemma replaceClientId_user_id (sessionId uid : string) (pb pb' : list (string * json)) :
  uid <> "" ->
  _replaceClientId sessionId uid pb = Ok pb' ->
  (truthy_opt (user_id_of (JObj pb)) = false ->
   user_id_of (JObj pb')
   = Some (JStr ("user_" +:+ uid +:+ "_account__session_" +:+ sessionId)))
  /\ (forall userId group,
        user_id_of (JObj pb) = Some (JStr userId) -> userId <> "" ->
        match_user_id userId = Some group ->
        user_id_of (JObj pb') = Some (JStr ("user_" +:+ uid +:+ group)))
  /\ (forall userId,
        user_id_of (JObj pb) = Some (JStr userId) -> userId <> "" ->
        match_user_id userId = None ->
        user_id_of (JObj pb') = Some (JStr userId)).
Proof.
  intros Huid. unfold _replaceClientId, user_id_of. cbn [get].
  apply String.eqb_neq in Huid. rewrite Huid.
  destruct (assoc_get "metadata" pb) as [md|] eqn:Emd; cbn [truthy_opt].
  - destruct (truthy md) eqn:Etr.
    + rewrite Emd. destruct md as [| | | | |fs]; try done. cbn [get].
      destruct (assoc_get "user_id" fs) as [v|] eqn:Ev.
      * destruct v as [| b | n | s | l | o]; cbn [truthy truthy_opt].
        all: try (intros [= <-]; rewrite assoc_get_set_eq; cbn [get];
                  rewrite assoc_get_set_eq; repeat split; intros; by simplify_eq).
        all: try done.
        -- destruct b; [done |]. intros [= <-]. rewrite assoc_get_set_eq. cbn [get].
           rewrite assoc_get_set_eq. repeat split; intros; by simplify_eq.
        -- destruct (n =? 0); [|done]. intros [= <-]. rewrite assoc_get_set_eq.
           cbn [get]. rewrite assoc_get_set_eq. repeat split; intros; by simplify_eq.
        -- destruct (String.eqb_spec s "") as [->|Hs]; cbn [negb].
           ++ intros [= <-]. rewrite assoc_get_set_eq. cbn [get].
              rewrite assoc_get_set_eq. repeat split; intros; by simplify_eq.
           ++ destruct (match_user_id s) as [group|] eqn:Eg.
              ** destruct (String.eqb_spec group "") as [->|Hg].
                 { apply match_user_id_group in Eg as (? & ? & _). done. }
                 intros [= <-]. rewrite assoc_get_set_eq. cbn [get].
                 rewrite assoc_get_set_eq.
                 repeat split; intros; simplify_eq; done.
              ** intros [= <-]. rewrite Emd. cbn [get]. rewrite Ev.
                 repeat split; intros; simplify_eq; done.
      * intros [= <-]. rewrite assoc_get_set_eq. cbn [get].
        rewrite assoc_get_set_eq. repeat split; intros; by simplify_eq.
    + rewrite assoc_get_set_eq. cbn [assoc_get].
      intros [= <-]. rewrite assoc_get_set_eq. cbn [get assoc_set assoc_get].
      rewrite String.eqb_refl.
      repeat split; intros; try done.
      all: destruct md; cbn [get truthy] in *; try done.
      all: by destruct (assoc_get "user_id" fields) as [[]|]; simplify_eq.
  - rewrite assoc_get_set_eq. cbn [assoc_get].
    intros [= <-]. rewrite assoc_get_set_eq. cbn [get assoc_set assoc_get].
    rewrite String.eqb_refl. repeat split; intros; done.
Qed.

Lemma prepared_metadata cfg sessionId pb0 hdrs (a : account) out :
  useUnifiedClientId a = true -> unifiedClientId a <> "" ->
  prepared cfg sessionId pb0 hdrs (Some a) out ->
  exists pb9,
    assoc_get "metadata" pb9 = assoc_get "metadata" pb0
    /\ exists pb10, _replaceClientId sessionId (unifiedClientId a) pb9 = Ok pb10
       /\ assoc_get "metadata" out = assoc_get "metadata" pb10.
Proof.
  intros Hflag Huid [variant pb2 pb3 pb5 pb7 pb8 pb10 Hv H2 H3 H5 H7 H8 H10 Hout].
  rewrite Hflag in H10. apply String.eqb_neq in Huid. rewrite Huid in H10.
  cbn [andb negb] in H10.
  exists (dropTopP pb8). split.
  - rewrite dropTopP_keeps by done.
    rewrite (applySystemPrompt_keeps cfg "metadata" ltac:(done) _ _ H8), H7.
    assert (E6 : assoc_get "metadata" (_stripTtlFromCacheControl pb5)
                 = assoc_get "metadata" pb0).
    { rewrite stripTtl_keeps by done.
      rewrite (validate_keeps cfg "metadata" ltac:(done) _ _ H5).
      rewrite stripReminders_keeps by done.
      rewrite (stripSecondSystemMsg_keeps "metadata" ltac:(done) _ _ H3).
      rewrite H2. destruct (truthy_opt variant).
      - rewrite assoc_get_del_ne by done. by apply splitModelVariant_keeps.
      - by apply splitModelVariant_keeps. }
    destruct (validate cfg _ hdrs); [done |]. by rewrite inject_keeps.
  - exists pb10. split; [done |].
    by apply (applyThinking_keeps variant "metadata" ltac:(done) _ _ Hout).
Qed.

(** C4 (amended). Under [useUnifiedClientId], for a request that is not a
    [count_tokens] request: when [metadata.user_id] is absent (or falsy) a
    fresh id [user_<unifiedClientId>_account__session_<uuid>] is written;
    when it is present and matches
    [^user_[a-f0-9]{64}(_account__session_[a-f0-9-]{36})$] the client part
    is replaced; in both cases the outbound [metadata.user_id] matches
    [^user_<unifiedClientId>_account__session_[a-f0-9-]{36}$]. Any other
    [user_id] string is passed on unchanged. *)
Theorem unified_client_id_rewrite
    (cfg : config) (sessionId : string) (pb0 : list (string * json))
    (clientHeaders : gmap string string) (a : account) (out : json) :
  useUnifiedClientId a = true ->
  unifiedClientId a <> "" ->
  uuidShaped sessionId ->
  _processRequestBody cfg sessionId (JObj pb0) clientHeaders (Some a) false = Ok out ->
  (truthy_opt (user_id_of (JObj pb0)) = false ->
   user_id_of out
   = Some (JStr ("user_" +:+ unifiedClientId a +:+ "_account__session_" +:+ sessionId))
   /\ matchesUnified (unifiedClientId a)
        ("user_" +:+ unifiedClientId a +:+ "_account__session_" +:+ sessionId))
  /\ (forall userId group,
        user_id_of (JObj pb0) = Some (JStr userId) -> userId <> "" ->
        match_user_id userId = Some group ->
        user_id_of out = Some (JStr ("user_" +:+ unifiedClientId a +:+ group))
        /\ matchesUnified (unifiedClientId a) ("user_" +:+ unifiedClientId a +:+ group))
  /\ (forall userId,
        user_id_of (JObj pb0) = Some (JStr userId) -> userId <> "" ->
        match_user_id userId = None ->
        user_id_of out = Some (JStr userId)).
Proof.
  intros Hflag Huid [Hlen Hchars] Hout.
  apply processRequestBody_steps in Hout as (pb & -> & Hprep).
  destruct (prepared_metadata _ _ _ _ _ _ Hflag Huid Hprep)
    as (pb9 & E9 & pb10 & Hrep & Eout).
  destruct (replaceClientId_user_id _ _ _ _ Huid Hrep) as (Hfresh & Hsplice & Hkeep).
  assert (Ein : user_id_of (JObj pb9) = user_id_of (JObj pb0)).
  { unfold user_id_of. cbn [get]. by rewrite E9. }
  assert (Eo : user_id_of (JObj pb) = user_id_of (JObj pb10)).
  { unfold user_id_of. cbn [get]. by rewrite Eout. }
  rewrite Eo. rewrite Ein in Hfresh, Hsplice, Hkeep.
  split; [|split].
  - intros Hnone. split; [by apply Hfresh |]. by exists sessionId.
  - intros userId group Hid Hne Hm. split; [by apply (Hsplice userId) |].
    apply match_user_id_group in Hm as (session & -> & ? & ?). by exists session.
  - intros userId Hid Hne Hm. by apply Hkeep.
Qed.

Definition aliceBody : list (string * json) :=
  [ ("model", JStr "claude-sonnet-4-20250514");
    ("metadata", JObj [("user_id", JStr "alice")]) ].

Lemma uuid_shaped : uuidShaped Fixtures.uuid.
Proof. by split. Qed.

Lemma unified_client_id_rewrite_witness :
  exists out,
    _processRequestBody Fixtures.plainConfig Fixtures.uuid
      (JObj [("model", JStr "claude-sonnet-4-20250514")]) ∅
      (Some Fixtures.unifiedAccount) false = Ok out
    /\ user_id_of out
       = Some (JStr ("user_" +:+ Fixtures.clientId +:+ "_account__session_"
                     +:+ Fixtures.uuid)).
Proof.
  eexists. split; [reflexivity |].
  exact (proj1 (proj1 (unified_client_id_rewrite Fixtures.plainConfig Fixtures.uuid
                         [("model", JStr "claude-sonnet-4-20250514")] ∅
                         Fixtures.unifiedAccount _ eq_refl ltac:(done) uuid_shaped
                         eq_refl) eq_refl)).
Defined.

(** The claim as it was stated fails: a [user_id] of another shape leaves
    as it came, and does not match the unified pattern. *)
Lemma foreign_user_id_is_kept :
  ~ (forall (cfg : config) (sessionId : string) (pb0 : list (string * json))
       (clientHeaders : gmap string string) (a : account) (out : json),
       useUnifiedClientId a = true -> unifiedClientId a <> "" ->
       uuidShaped sessionId ->
       _processRequestBody cfg sessionId (JObj pb0) clientHeaders (Some a) false = Ok out ->
       exists s, user_id_of out = Some (JStr s) /\ matchesUnified (unifiedClientId a) s).
Proof.
  intros H.
  destruct (H Fixtures.plainConfig Fixtures.uuid aliceBody ∅ Fixtures.unifiedAccount _
              eq_refl ltac:(done) uuid_shaped eq_refl) as (s & Hs & session & Heq & _).
  vm_compute in Hs. injection Hs as <-. discriminate.
Qed.

(** A [user_id] of the expected shape: the client part is replaced, the
    session part stays. *)
Example unified_client_id_spliced :
  user_id_of
    (match _processRequestBody Fixtures.plainConfig Fixtures.uuid
             (JObj [ ("metadata",
                      JObj [("user_id",
                             JStr ("user_" +:+ "ffffffffffffffffffffffffffffffffffffffffffffffffffffffffffffffff"
                                   +:+ "_account__session_"
                                   +:+ "00000000-1111-2222-3333-444444444444"))]) ])
             ∅ (Some Fixtures.unifiedAccount) false with
     | Ok out => out
     | _ => JNull
     end)
  = Some (JStr ("user_" +:+ Fixtures.clientId +:+ "_account__session_"
                +:+ "00000000-1111-2222-3333-444444444444")).
Proof. reflexivity. Qed.

End BodyFacts.

(** ** Health classification of a non-streaming response *)

Module HealthFacts.
Import Js JsFacts ClaudeRelayService.

(** The statuses that an earlier branch of the chain takes. *)
Definition earlierBranch (status : Z) : bool :=
  (status =? 401) || (status =? 403) || (status =? 529)
  || ((500 <=? status) && (status <? 600)).

Definition resetHeader (hs : gmap string string) : option jsnum :=
  match header "anthropic-ratelimit-unified-reset" hs with
  | Some v => Some (parseInt v)
  | None => None
  end.

Definition isRateLimitCall (c : call) : bool :=
  match c with
  | MarkAccountRateLimited _ _ _ _ => true
  | _ => false
  end.

(** The calls of the error chain, branch by branch; [count] is the 401
    counter as it stood before the response. *)
Definition chainCalls (h : health) (accountId accountType : string)
    (sessionHash : option string) (r : response) (count : Z) : list call :=
  if statusCode r =? 401 then
    (if 1 <=? count + 1
     then [MarkAccountUnauthorized accountId accountType sessionHash] else [])
  else if statusCode r =? 403 then
    [MarkAccountBlocked accountId accountType sessionHash]
  else if statusCode r =? 529 then
    (if 0 <? overloadHandling_enabled h then [MarkAccountOverloaded accountId] else [])
  else if (500 <=? statusCode r) && (statusCode r <? 600) then
    [RecordServerError accountId (statusCode r)]
  else if statusCode r =? 429 then
    [MarkAccountRateLimited accountId accountType sessionHash
       (resetHeader (resp_headers r))]
  else if bodySaysRateLimited h (resp_body r) then
    [MarkAccountRateLimited accountId accountType sessionHash None]
  else [].

Lemma count_after_record (key : string) (seconds : Z) (s : kv) :
  default 0 (kv_get key (kv_expire key seconds (kv_incr key s)))
  = default 0 (kv_get key s) + 1.
Proof. unfold kv_get, kv_expire, kv_incr. cbn. by rewrite lookup_insert_eq. Qed.

(** Run the calls of the state monad. *)
Ltac run_eff :=
  cbv [mbind eff_bind mret eff_ret emit on_redis read_redis
       recordUnauthorizedError getUnauthorizedErrorCount clearUnauthorizedErrors
       _handleServerError clearHealthFlags];
  cbn [redis calls fst snd];
  rewrite ?count_after_record.

Lemma relayRequest_error_chain (h : health) (accountId accountType : string)
    (sessionHash : option string) (r : response) (w0 : world) :
  statusCode r <> 200 -> statusCode r <> 201 ->
  calls (relayRequest_onResponse h accountId accountType sessionHash r w0).2
  = calls w0 ++ chainCalls h accountId accountType sessionHash r
                  (default 0 (kv_get (key401 accountId) (redis w0))).
Proof.
  intros H200 H201. unfold relayRequest_onResponse, chainCalls.
  apply Z.eqb_neq in H200, H201. rewrite H200, H201. cbn [negb andb].
  destruct (statusCode r =? 401) eqn:E401.
  { run_eff.
    destruct (1 <=? default 0 (kv_get (key401 accountId) (redis w0)) + 1);
      cbn [calls snd]; by rewrite ?app_nil_r. }
  destruct (statusCode r =? 403) eqn:E403; [by run_eff |].
  destruct (statusCode r =? 529) eqn:E529.
  { destruct (0 <? overloadHandling_enabled h); run_eff; cbn; by rewrite ?app_nil_r. }
  destruct ((500 <=? statusCode r) && (statusCode r <? 600)) eqn:E5xx; [by run_eff |].
  destruct (statusCode r =? 429) eqn:E429; [by run_eff |].
  destruct (bodySaysRateLimited h (resp_body r)); run_eff; cbn; by rewrite ?app_nil_r.
Qed.


(** A 429 with a reset header (scenario 1 of the specification). *)
Definition limited429 : response :=
  {| statusCode := 429;
     resp_headers := {[ "anthropic-ratelimit-unified-reset" := "1700000000" ]};
     resp_body := "" |}.


(** A 500 whose body carries the rate-limit message. *)
Definition overloaded500 : response :=
  {| statusCode := 500;
     resp_headers := ∅;
     resp_body :=
       "{" +:+ Fixtures.q "type" +:+ ":" +:+ Fixtures.q "error" +:+ ","
       +:+ Fixtures.q "error" +:+ ":{" +:+ Fixtures.q "type" +:+ ":"
       +:+ Fixtures.q "api_error" +:+ "," +:+ Fixtures.q "message" +:+ ":"
       +:+ Fixtures.q "This request would exceed your account's rate limit. Please try again later."
       +:+ "}}" |}.


(** The same body under a 400 does mark it, without a reset time. *)
Example rate_limit_body_marks_on_400 :
  calls (relayRequest_onResponse Fixtures.quietHealth "acct-1" "claude-official"
           (Some "hash")
           {| statusCode := 400; resp_headers := ∅;
              resp_body := resp_body overloaded500 |}
           Fixtures.emptyWorld).2
  = [MarkAccountRateLimited "acct-1" "claude-official" (Some "hash") None].
Proof. vm_compute. reflexivity. Qed.

(** A body that parses is judged by [error.message] alone. *)
Example rate_limit_message_elsewhere :
  bodySaysRateLimited Fixtures.quietHealth
    ("{" +:+ Fixtures.q "detail" +:+ ":"
     +:+ Fixtures.q "exceed your account's rate limit" +:+ "}")
  = false.
Proof. vm_compute. reflexivity. Qed.

(** A 2xx response clears the account's health: the 401 counter is gone
    and the flags the collaborators report are lifted. *)
Definition clearingCalls (h : health) (accountId accountType : string) : list call :=
  [ClearInternalErrors accountId]
  ++ (if isAccountRateLimited h accountId accountType
      then [RemoveAccountRateLimit accountId accountType] else [])
  ++ (if isAccountOverloaded h accountId
      then [RemoveAccountOverload accountId] else []).

Lemma clearHealthFlags_spec (h : health) (accountId accountType : string) (w0 : world) :
  kv_get (key401 accountId) (redis (clearHealthFlags h accountId accountType w0).2) = None
  /\ calls (clearHealthFlags h accountId accountType w0).2
     = calls w0 ++ clearingCalls h accountId accountType.
Proof.
  unfold clearingCalls. run_eff.
  destruct (isAccountRateLimited h accountId accountType),
           (isAccountOverloaded h accountId);
    cbn [redis calls fst snd]; split;
    try (unfold kv_get, kv_del; cbn [kv_value]; apply lookup_delete_eq);
    by rewrite <- ?app_assoc.
Qed.

Definition windowCalls (accountId : string) (hs : gmap string string) : list call :=
  match get5hStatus hs with
  | Some s => [UpdateSessionWindowStatus accountId s]
  | None => []
  end.

Lemma relayRequest_success (h : health) (accountId accountType : string)
    (sessionHash : option string) (r : response) (w0 : world) :
  statusCode r = 200 \/ statusCode r = 201 ->
  let w1 := (relayRequest_onResponse h accountId accountType sessionHash r w0).2 in
  kv_get (key401 accountId) (redis w1) = None
  /\ calls w1 = calls w0 ++ windowCalls accountId (resp_headers r)
                ++ clearingCalls h accountId accountType.
Proof.
  intros Hs w1. unfold w1, relayRequest_onResponse, windowCalls.
  assert (Hc : negb (statusCode r =? 200) && negb (statusCode r =? 201) = false).
  { destruct Hs as [-> | ->]; done. }
  rewrite Hc.
  destruct (get5hStatus (resp_headers r)) as [s|].
  - cbv [mbind eff_bind mret eff_ret emit]. cbn [redis calls fst snd].
    match goal with
    | |- context [clearHealthFlags h accountId accountType ?w] =>
        destruct (clearHealthFlags_spec h accountId accountType w) as [Hk Hcalls];
        destruct (clearHealthFlags h accountId accountType w) as [[] w2]
    end.
    cbn [snd fst calls redis] in *. split; [done |]. by rewrite Hcalls, <- app_assoc.
  - cbv [mbind eff_bind mret eff_ret]. cbn [redis calls fst snd].
    destruct (clearHealthFlags_spec h accountId accountType w0) as [Hk Hcalls].
    destruct (clearHealthFlags h accountId accountType w0) as [[] w2].
    cbn [snd fst calls redis] in *. split; [done |]. by rewrite Hcalls.
Qed.

End HealthFacts.

(** ** The streaming request *)

Module StreamFacts.
Import Js JsFacts ClaudeRelayService HealthFacts.

(** What the data listener leaves alone. *)
Definition sameOutside (st st' : streamState) : Prop :=
  w st' = w st
  /\ stream_statusCode st' = stream_statusCode st
  /\ stream_headers st' = stream_headers st
  /\ errorMode st' = errorMode st
  /\ settled st' = settled st
  /\ destroyed st' = destroyed st.

Lemma sameOutside_refl (st : streamState) : sameOutside st st.
Proof. by repeat split. Qed.

Lemma sameOutside_trans (a b c : streamState) :
  sameOutside a b -> sameOutside b c -> sameOutside a c.
Proof.
  intros (?&?&?&?&?&?) (?&?&?&?&?&?). repeat split; congruence.
Qed.

Lemma tokens_cases (o : option json) :
  (exists n, tokens o = Ok n) \/ tokens o = Unmodelled.
Proof.
  destruct o as [v|]; cbn; [|eauto].
  destruct (truthy v); [|eauto]. destruct v; eauto.
Qed.

Ltac tokens_case H :=
  match type of H with
  | context [tokens ?o] =>
      let n := fresh "n" in
      let E := fresh "E" in
      destruct (tokens_cases o) as [[n E]|E]; rewrite E in H;
      cbn [mbind result_bind] in H; [|discriminate H]
  end.

Lemma onMessageStart_outside (data : json) (st st' : streamState) :
  onMessageStart data st = Ok st' -> sameOutside st st'.
Proof.
  unfold onMessageStart. intros H.
  destruct (get "message" data) as [message|]; [|by simplify_eq; apply sameOutside_refl].
  destruct (get "usage" message) as [usage|]; [|by simplify_eq; apply sameOutside_refl].
  destruct (_ && _); [|by simplify_eq; apply sameOutside_refl].
  destruct (match input_tokens _ with Some _ => _ | None => _ end) as [allU cur].
  do 3 tokens_case H.
  destruct (get "cache_creation" usage) as [c|]; cbn [mbind result_bind] in H.
  - destruct (_ && _); cbn [mbind result_bind] in H.
    + do 2 tokens_case H. by simplify_eq.
    + by simplify_eq.
  - by simplify_eq.
Qed.

Lemma onMessageDelta_outside (data : json) (st st' : streamState) :
  onMessageDelta data st = Ok st' -> sameOutside st st'.
Proof.
  unfold onMessageDelta. intros H.
  destruct (get "usage" data) as [usage|]; [|by simplify_eq; apply sameOutside_refl].
  destruct (get "output_tokens" usage) as [out|]; [|by simplify_eq; apply sameOutside_refl].
  destruct (_ && _); [|by simplify_eq; apply sameOutside_refl].
  tokens_case H.
  destruct (input_tokens _); by simplify_eq.
Qed.

Lemma onErrorEvent_outside (data : json) (st : streamState) :
  sameOutside st (onErrorEvent data st).
Proof.
  unfold onErrorEvent.
  repeat match goal with
    | |- context [match ?x with _ => _ end] => destruct x eqn:?
    end; by repeat split.
Qed.

Lemma onLine_outside (env : streamEnv) (st st' : streamState) (line : string) :
  onLine env st line = Ok st' -> sameOutside st st'.
Proof.
  unfold onLine. destruct (startsWith line "data: " && _);
    [|intros [= <-]; apply sameOutside_refl].
  destruct (JSON_parse _ _) as [data|]; [|intros [= <-]; apply sameOutside_refl].
  assert (Hsteps :
    (st1 ← onMessageStart data st; st2 ← onMessageDelta data st1;
     Ok (onErrorEvent data st2)) = Ok st' -> sameOutside st st').
  { destruct (onMessageStart data st) as [st1| |] eqn:E1;
      cbn [mbind result_bind]; try done.
    destruct (onMessageDelta data st1) as [st2| |] eqn:E2;
      cbn [mbind result_bind]; try done.
    intros [= <-].
    eapply sameOutside_trans; [by eapply onMessageStart_outside |].
    eapply sameOutside_trans; [by eapply onMessageDelta_outside |].
    apply onErrorEvent_outside. }
  destruct data; exact Hsteps.
Qed.

Lemma onLines_outside (env : streamEnv) (lines : list string) (st st' : streamState) :
  onLines env st lines = Ok st' -> sameOutside st st'.
Proof.
  revert st. induction lines as [|line rest IH]; intros st; simpl.
  - intros [= <-]. apply sameOutside_refl.
  - destruct (onLine env st line) as [st1| |] eqn:E1; cbn [mbind result_bind]; try done.
    intros H. eapply sameOutside_trans; [by eapply onLine_outside | by apply IH].
Qed.

Lemma onData_outside (env : streamEnv) (st st' : streamState) (chunk : string) :
  onData env st chunk = Ok st' -> sameOutside st st'.
Proof.
  unfold onData. intros H. apply onLines_outside in H.
  eapply sameOutside_trans; [|exact H].
  destruct (removelast _); [by repeat split |].
  cbn [set_buffer destroyed]. destruct (destroyed st); by repeat split.
Qed.

(** The usage records that the end listener merges: the finished ones and,
    last, the one still being collected when it has its input count (its
    output count is 0 when none came). *)
Definition captured (st : streamState) : list usageData :=
  let cur := currentUsageData st in
  match input_tokens cur with
  | Some _ =>
      allUsageData st
      ++ [ {| input_tokens := input_tokens cur;
              cache_creation_input_tokens := cache_creation_input_tokens cur;
              cache_read_input_tokens := cache_read_input_tokens cur;
              model := model cur;
              cache_creation := cache_creation cur;
              output_tokens := Some (default 0 (output_tokens cur)) |} ]
  | None => allUsageData st
  end.

(** The callback the end listener makes: one for a non-empty list. *)
Definition usageCall (env : streamEnv) (records : list usageData) : list call :=
  match records with
  | [] => []
  | _ => [UsageCallback (mergeUsage (se_bodyModel env) records) (se_accountId env)]
  end.

(** The calls of [endHealth], by status. *)
Definition endHealthCalls (env : streamEnv) (st : streamState) : list call :=
  windowCalls (se_accountId env) (stream_headers st)
  ++ (if rateLimitDetected st || bool_decide (stream_statusCode st = Some 429)
      then [MarkAccountRateLimited (se_accountId env) (se_accountType env)
              (se_sessionHash env) (resetHeader (stream_headers st))]
      else if bool_decide (stream_statusCode st = Some 200)
      then clearingCalls (se_health env) (se_accountId env) (se_accountType env)
      else []).

Lemma endHealth_calls (env : streamEnv) (st : streamState) (w0 : world) :
  calls (endHealth env st w0).2 = calls w0 ++ endHealthCalls env st.
Proof.
  unfold endHealth, endHealthCalls, windowCalls, resetHeader.
  destruct (get5hStatus (stream_headers st)) as [s|];
    cbv [mbind eff_bind mret eff_ret emit]; cbn [redis calls fst snd];
    destruct (rateLimitDetected st || _); cbn [redis calls fst snd app];
    try (by rewrite <- ?app_assoc);
    destruct (bool_decide (stream_statusCode st = Some 200));
    cbn [redis calls fst snd]; rewrite ?app_nil_r; try done.
  - match goal with
    | |- context [clearHealthFlags ?h ?a ?t ?w] =>
        destruct (clearHealthFlags_spec h a t w) as [_ Hc];
        destruct (clearHealthFlags h a t w) as [[] w2]
    end.
    cbn [snd calls] in *. by rewrite Hc, <- app_assoc.
  - destruct (clearHealthFlags_spec (se_health env) (se_accountId env)
                (se_accountType env) w0) as [_ Hc].
    destruct (clearHealthFlags _ _ _ w0) as [[] w2]. cbn [snd calls] in *. done.
Qed.

Lemma endHealth_clears (env : streamEnv) (st : streamState) (w0 : world) :
  stream_statusCode st = Some 200 -> rateLimitDetected st = false ->
  kv_get (key401 (se_accountId env)) (redis (endHealth env st w0).2) = None.
Proof.
  intros Hs Hr. unfold endHealth. rewrite Hs, Hr. cbn [orb].
  rewrite bool_decide_eq_false_2 by done. rewrite bool_decide_eq_true_2 by done.
  destruct (get5hStatus (stream_headers st)) as [s|];
    cbv [mbind eff_bind mret eff_ret emit]; cbn [redis calls fst snd].
  - match goal with
    | |- context [clearHealthFlags ?h ?a ?t ?w] =>
        destruct (clearHealthFlags_spec h a t w) as [Hk _];
        destruct (clearHealthFlags h a t w) as [[] w2]
    end. done.
  - destruct (clearHealthFlags_spec (se_health env) (se_accountId env)
                (se_accountType env) w0) as [Hk _].
    by destruct (clearHealthFlags _ _ _ w0) as [[] w2].
Qed.

(** The world after the end listener: the usage callback, then the health
    update. Nothing the listener does to the client or to its own
    bookkeeping shows in the world. *)
Ltac end_simpl :=
  cbn [client set_usage in_world settle w destroyed currentUsageData allUsageData
       errorMode stream_statusCode stream_headers rateLimitDetected emit snd app].

Lemma onEnd_world (env : streamEnv) (st : streamState) :
  w (onEnd env st)
  = (endHealth env st
       {| redis := redis (w st);
          calls := calls (w st) ++ usageCall env (captured st) |}).2.
Proof.
  unfold onEnd, captured, usageCall.
  destruct (negb (String.eqb (trim (buffer st)) "") && negb (destroyed st));
    destruct (destroyed st) eqn:Ed; end_simpl; rewrite ?Ed; end_simpl;
    destruct (input_tokens (currentUsageData st)) eqn:Ei; end_simpl;
    (destruct (allUsageData st) as [|u us] eqn:Ea; end_simpl);
    repeat match goal with
      | |- context [if errorMode ?s then _ else _] => destruct (errorMode s)
      | |- context [if endAwaits ?s then _ else _] => destruct (endAwaits s)
      end;
    end_simpl; rewrite ?Ed; end_simpl; rewrite ?app_nil_r;
    try (destruct (w st); reflexivity); reflexivity.
Qed.

(** The sum of one token field over the captured records. *)
Definition sumOf (field : usageData -> option Z) (records : list usageData) : Z :=
  foldr (fun u acc => default 0 (field u) + acc) 0 records.

Lemma fold_addUsage (records : list usageData) (acc : totalUsage) :
  fold_left addUsage records acc
  = {| t_input_tokens := t_input_tokens acc + sumOf input_tokens records;
       t_output_tokens := t_output_tokens acc + sumOf output_tokens records;
       t_cache_creation_input_tokens :=
         t_cache_creation_input_tokens acc
         + sumOf cache_creation_input_tokens records;
       t_cache_read_input_tokens :=
         t_cache_read_input_tokens acc + sumOf cache_read_input_tokens records |}.
Proof.
  revert acc. induction records as [|u us IH]; intros acc.
  - destruct acc. cbn. f_equal; lia.
  - cbn [fold_left]. rewrite IH. unfold addUsage, sumOf.
    cbn [foldr t_input_tokens t_output_tokens t_cache_creation_input_tokens
         t_cache_read_input_tokens]. f_equal; lia.
Qed.

(** The merged record: every token field is the sum over the records, the
    model is the last record's or else the request's. *)
Lemma mergeUsage_sums (bodyModel : option json) (records : list usageData) :
  let u := mergeUsage bodyModel records in
  fu_input_tokens u = sumOf input_tokens records
  /\ fu_output_tokens u = sumOf output_tokens records
  /\ fu_cache_creation_input_tokens u = sumOf cache_creation_input_tokens records
  /\ fu_cache_read_input_tokens u = sumOf cache_read_input_tokens records
  /\ fu_model u = match model (List.last records emptyUsage) with
                  | Some m => if truthy m then Some m else bodyModel
                  | None => bodyModel
                  end.
Proof.
  unfold mergeUsage. rewrite fold_addUsage.
  destruct (fold_left addEphemeral records (0, 0)) as [e5 e1]. cbn.
  repeat split; lia.
Qed.

Definition isUsageCall (c : call) : bool :=
  match c with
  | UsageCallback _ _ => true
  | _ => false
  end.

Lemma usageCallbacks_app (w0 : world) (more : list call) :
  usageCallbacks {| redis := redis w0; calls := calls w0 ++ more |}
  = usageCallbacks w0
    ++ omap (fun c => match c with UsageCallback u a => Some (u, a) | _ => None end) more.
Proof. unfold usageCallbacks. cbn [calls]. apply omap_app. Qed.

Lemma omap_no_usage (l : list call) :
  Forall (fun c => isUsageCall c = false) l ->
  omap (fun c => match c with UsageCallback u a => Some (u, a) | _ => None end) l = [].
Proof.
  induction 1 as [|c l Hc _ IH]; [done |]. cbn. destruct c; try done.
Qed.

Lemma usageCallbacks_calls (w0 w1 : world) (more : list call) :
  calls w1 = calls w0 ++ more ->
  Forall (fun c => isUsageCall c = false) more ->
  usageCallbacks w1 = usageCallbacks w0.
Proof.
  intros Hc Hm. unfold usageCallbacks. rewrite Hc, omap_app, (omap_no_usage more Hm).
  by rewrite app_nil_r.
Qed.

Lemma handleErrorResponse_calls (h : health) (accountId accountType : string)
    (sessionHash : option string) (status : Z) (w0 : world) :
  exists more,
    calls (handleErrorResponse h accountId accountType sessionHash status w0).2
    = calls w0 ++ more
    /\ Forall (fun c => isUsageCall c = false) more.
Proof.
  unfold handleErrorResponse.
  destruct (status =? 401).
  { run_eff.
    destruct (1 <=? default 0 (kv_get (key401 accountId) (redis w0)) + 1);
      cbn [calls snd]; eexists; (split; [reflexivity || (by rewrite app_nil_r) |]);
      by repeat constructor. }
  destruct (status =? 403).
  { run_eff. eexists. split; [reflexivity | by repeat constructor]. }
  destruct (status =? 529).
  { destruct (0 <? overloadHandling_enabled h); run_eff.
    - eexists. split; [reflexivity | by repeat constructor].
    - exists []. split; [by rewrite app_nil_r | done]. }
  destruct ((500 <=? status) && (status <? 600)).
  { run_eff. eexists. split; [reflexivity | by repeat constructor]. }
  exists []. split; [by rewrite app_nil_r | done].
Qed.

Lemma step_data_outside (env : streamEnv) (st st' : streamState) (chunk : string) :
  step env st (EvData chunk) = Ok st' -> sameOutside st st'.
Proof.
  cbn [step]. destruct (onData env st chunk) as [st1| |] eqn:E; cbn [mbind result_bind];
    try done.
  apply onData_outside in E. intros [= <-].
  eapply sameOutside_trans; [exact E |].
  destruct (errorMode st1); [by repeat split | apply sameOutside_refl].
Qed.

Lemma run_data_outside (env : streamEnv) (chunks : list string) (st st' : streamState) :
  run env st (map EvData chunks) = Ok st' -> sameOutside st st'.
Proof.
  revert st. induction chunks as [|c cs IH]; intros st.
  - intros [= <-]. apply sameOutside_refl.
  - cbn [map run]. destruct (step env st (EvData c)) as [st1| |] eqn:E;
      cbn [mbind result_bind]; try done.
    intros H. eapply sameOutside_trans; [by eapply step_data_outside | by apply IH].
Qed.

Lemma run_app (env : streamEnv) (a b : list event) (st : streamState) :
  run env st (a ++ b) = st' ← run env st a; run env st' b.
Proof.
  revert st. induction a as [|e a IH]; intros st; [done |].
  cbn [app run]. destruct (step env st e); cbn [mbind result_bind]; [apply IH | done..].
Qed.

Lemma failClient_w (status : Z) (payload : list (string * json)) (st : streamState) :
  w (failClient status payload st) = w st.
Proof.
  unfold failClient.
  destruct (headersSent st);
    [destruct (destroyed st) | destruct (destroyed (client _ st))]; done.
Qed.

(** Nothing but the end listener calls [usageCallback]. *)
Lemma step_without_end (env : streamEnv) (st st' : streamState) (e : event) :
  e <> EvEnd -> step env st e = Ok st' ->
  usageCallbacks (w st') = usageCallbacks (w st).
Proof.
  intros He H. destruct e as [status hs | chunk | | code | |]; try done.
  - cbn [step] in H. injection H as <-. unfold onResponse.
    destruct (stream_statusCode st); [done |].
    destruct (status =? 200); [done |]. cbn [in_world w].
    destruct (handleErrorResponse_calls (se_health env) (se_accountId env)
                (se_accountType env) (se_sessionHash env) status (w st))
      as (more & Hc & Hm).
    by apply (usageCallbacks_calls _ _ more).
  - apply step_data_outside in H as [-> _]. done.
  - cbn [step] in H. injection H as <-. unfold onError.
    destruct (classifyStreamError code). cbn [settle w]. by rewrite failClient_w.
  - cbn [step] in H. injection H as <-. unfold onTimeout.
    cbn [settle w]. by rewrite failClient_w.
  - cbn [step] in H. by injection H as <-.
Qed.

Lemma run_without_end (env : streamEnv) (events : list event) (st st' : streamState) :
  EvEnd ∉ events -> run env st events = Ok st' ->
  usageCallbacks (w st') = usageCallbacks (w st).
Proof.
  revert st. induction events as [|e es IH]; intros st Hno.
  - by intros [= <-].
  - cbn [run]. destruct (step env st e) as [st1| |] eqn:E; cbn [mbind result_bind];
      try done.
    intros H. rewrite (IH st1); [| set_solver | done].
    apply (step_without_end env st st1 e); [|done]. set_solver.
Qed.

Lemma endHealthCalls_no_usage (env : streamEnv) (st : streamState) :
  Forall (fun c => isUsageCall c = false) (endHealthCalls env st).
Proof.
  unfold endHealthCalls, windowCalls, clearingCalls.
  apply Forall_app. split.
  - destruct (get5hStatus _); by repeat constructor.
  - destruct (rateLimitDetected st || _); [by repeat constructor |].
    destruct (bool_decide _); [|done].
    destruct (isAccountRateLimited _ _ _), (isAccountOverloaded _ _);
      by repeat constructor.
Qed.

(** The calls the end listener adds to the world. *)
Lemma onEnd_calls (env : streamEnv) (st : streamState) :
  calls (w (onEnd env st))
  = calls (w st) ++ usageCall env (captured st) ++ endHealthCalls env st.
Proof. rewrite onEnd_world, endHealth_calls. cbn [calls]. by rewrite app_assoc. Qed.

Lemma onEnd_usageCallbacks (env : streamEnv) (st : streamState) :
  usageCallbacks (w (onEnd env st))
  = usageCallbacks (w st)
    ++ match captured st with
       | [] => []
       | records => [(mergeUsage (se_bodyModel env) records, se_accountId env)]
       end.
Proof.
  unfold usageCallbacks. rewrite onEnd_calls, !omap_app.
  rewrite (omap_no_usage _ (endHealthCalls_no_usage env st)), app_nil_r.
  f_equal. unfold usageCall. by destruct (captured st).
Qed.

(** The events of a stream that answered and sent data. *)
Definition answered (status : Z) (hs : gmap string string) (chunks : list string)
  : list event :=
  EvResponse status hs :: map EvData chunks.

Lemma answered_without_end (status : Z) (hs : gmap string string)
    (chunks : list string) :
  EvEnd ∉ answered status hs chunks.
Proof.
  unfold answered. intros H. apply elem_of_cons in H as [H|H]; [done |].
  apply list_elem_of_fmap in H as (c & Hc & _). done.
Qed.


(** The stream of scenario 3 of the specification: a [message_start] with
    the input counts, a content delta, a [message_delta] with the output
    count. *)
Definition sseChunks : list string :=
  [ "data: {" +:+ Fixtures.q "type" +:+ ":" +:+ Fixtures.q "message_start" +:+ ","
    +:+ Fixtures.q "message" +:+ ":{" +:+ Fixtures.q "model" +:+ ":"
    +:+ Fixtures.q "claude-sonnet-4-20250514" +:+ "," +:+ Fixtures.q "usage" +:+ ":{"
    +:+ Fixtures.q "input_tokens" +:+ ":10,"
    +:+ Fixtures.q "cache_creation_input_tokens" +:+ ":5,"
    +:+ Fixtures.q "cache_read_input_tokens" +:+ ":2}}}" +:+ nl +:+ nl;
    "data: {" +:+ Fixtures.q "type" +:+ ":" +:+ Fixtures.q "content_block_delta" +:+ ","
    +:+ Fixtures.q "delta" +:+ ":{" +:+ Fixtures.q "text" +:+ ":" +:+ Fixtures.q "Hi"
    +:+ "}}" +:+ nl +:+ nl;
    "data: {" +:+ Fixtures.q "type" +:+ ":" +:+ Fixtures.q "message_delta" +:+ ","
    +:+ Fixtures.q "usage" +:+ ":{" +:+ Fixtures.q "output_tokens" +:+ ":42}}"
    +:+ nl +:+ nl ].

Definition sseEnvWith (h : health) : streamEnv :=
  {| se_health := h; se_accountId := "acct-1";
     se_accountType := "claude-official"; se_sessionHash := Some "hash";
     se_bodyModel := Some (JStr "claude-sonnet-4-20250514");
     se_streamTransformer := None; se_timestamp := "2025-01-01T00:00:00.000Z" |}.

Definition sseEnv : streamEnv := sseEnvWith Fixtures.quietHealth.

(** The state of the request when the three chunks have arrived. *)
Definition sseAnswered : streamState :=
  Eval vm_compute in
    match _makeClaudeStreamRequestWithUsageCapture sseEnv true Fixtures.emptyWorld
            (answered 200 ∅ sseChunks) with
    | Ok st => st
    | _ => initialState true Fixtures.emptyWorld
    end.


(** The whole run of scenario 3: what reaches the callback, the client and
    the promise. *)
Example usage_capture_scenario :
  match _makeClaudeStreamRequestWithUsageCapture sseEnv true Fixtures.emptyWorld
          (answered 200 ∅ sseChunks ++ [EvEnd]) with
  | Ok st => Some (calls (w st), settled st)
  | _ => None
  end
  = Some
      ([ UsageCallback
           {| fu_input_tokens := 10; fu_output_tokens := 42;
              fu_cache_creation_input_tokens := 5; fu_cache_read_input_tokens := 2;
              fu_model := Some (JStr "claude-sonnet-4-20250514");
              fu_cache_creation := None |} "acct-1";
         ClearInternalErrors "acct-1" ],
       Some Resolved).
Proof. vm_compute. reflexivity. Qed.


(** The state a stream is in when a 200 has arrived, then data. *)
Lemma answered_200_state (env : streamEnv) (headersSent0 : bool) (w0 : world)
    (hs : gmap string string) (chunks : list string) (st : streamState) :
  _makeClaudeStreamRequestWithUsageCapture env headersSent0 w0
    (answered 200 hs chunks) = Ok st ->
  w st = w0 /\ stream_statusCode st = Some 200 /\ stream_headers st = hs.
Proof.
  unfold _makeClaudeStreamRequestWithUsageCapture, answered.
  cbn [run step mbind result_bind]. intros H.
  apply run_data_outside in H as (Hw & Hs & Hh & _). by rewrite Hw, Hs, Hh.
Qed.


(** A stream that ends after a 200: the counter of 401 errors is gone and
    both flags are lifted. *)
Example stream_end_clears_flags :
  match run (sseEnvWith Fixtures.flaggedHealth) 
            (initialState true (Fixtures.worldWith401 "acct-1"))
            (answered 200 ∅ sseChunks ++ [EvEnd]) with
  | Ok st => Some (kv_get (key401 "acct-1") (redis (w st)),
                   filter (fun c => isUsageCall c = false) (calls (w st)))
  | _ => None
  end
  = Some (None, [ ClearInternalErrors "acct-1";
                  RemoveAccountRateLimit "acct-1" "claude-official";
                  RemoveAccountOverload "acct-1" ]).
Proof. vm_compute. reflexivity. Qed.


(** Nor does a stream that ends after a 201 clear anything. *)
Example stream_201_keeps_unauthorized_counter :
  match run sseEnv (initialState true (Fixtures.worldWith401 "acct-1"))
            (answered 201 ∅ sseChunks ++ [EvEnd]) with
  | Ok st => kv_get (key401 "acct-1") (redis (w st))
  | _ => None
  end = Some 1.
Proof. vm_compute. reflexivity. Qed.

End StreamFacts.

(** ** The HTTP/2 session pool *)

Module PoolFacts.
Import Js Http2Client.

(** What every reachable pool satisfies: an entry refers to the session
    most recently created for its key, and every session that was created
    is in the heap with the listener for its key. *)
Record poolInv (p : pool) : Prop := {
  inv_latest : forall key e,
    sessions p !! key = Some e -> latestFor key (created p) = Some (session e);
  inv_listener : forall key sid,
    (key, sid) ∈ created p -> exists o, heap p !! sid = Some o /\ key ∈ evicts o
}.

Lemma fresh_unused (p : pool) : heap p !! fresh p = None.
Proof.
  apply not_elem_of_dom. intros H. apply elem_of_elements in H.
  apply max_list_elem_of_le in H. unfold fresh in H. lia.
Qed.

Lemma deletes_lookup (keys : list string) (m : gmap string sessionInfo)
    (key : string) (e : sessionInfo) :
  fold_left (fun m key => delete key m) keys m !! key = Some e -> m !! key = Some e.
Proof.
  revert m. induction keys as [|k ks IH]; intros m; [done |].
  cbn [fold_left]. intros H. apply IH in H.
  by apply lookup_delete_Some in H as [_ H].
Qed.

Lemma deletes_gone (keys : list string) (m : gmap string sessionInfo) (key : string) :
  key ∈ keys -> fold_left (fun m key => delete key m) keys m !! key = None.
Proof.
  revert m. induction keys as [|k ks IH]; intros m Hin; [by apply elem_of_nil in Hin |].
  cbn [fold_left]. destruct (decide (key ∈ ks)) as [Hks|Hks]; [by apply IH |].
  apply elem_of_cons in Hin as [->|Hin]; [|done].
  destruct (fold_left _ ks (delete k m) !! k) as [e|] eqn:E; [|done].
  apply deletes_lookup in E. by rewrite lookup_delete_eq in E.
Qed.

Lemma emptyPool_inv : poolInv emptyPool.
Proof.
  split; cbn.
  - intros key e H. by rewrite lookup_empty in H.
  - intros key sid H. by apply elem_of_nil in H.
Qed.

Lemma lookup_inv (key : string) (now : Z) (p : pool) :
  poolInv p -> poolInv (getSession_lookup key now p).2.
Proof.
  intros [Hl Hc]. unfold getSession_lookup.
  destruct (sessions p !! key) as [info|] eqn:E; [|done].
  destruct (usable p (session info)); split; cbn; try done.
  - intros k e H. destruct (decide (k = key)) as [->|Hne].
    + rewrite lookup_insert_eq in H. injection H as <-. cbn. by apply Hl.
    + rewrite lookup_insert_ne in H by done. by apply Hl.
  - intros k e H. apply lookup_delete_Some in H as [_ H]. by apply Hl.
Qed.

Lemma store_inv (key : string) (now : Z) (p : pool) :
  poolInv p -> poolInv (getSession_store key now p).2.
Proof.
  intros [Hl Hc]. unfold getSession_store. split; cbn.
  - intros k e H. destruct (decide (k = key)) as [->|Hne].
    + rewrite lookup_insert_eq in H. injection H as <-. cbn.
      by rewrite String.eqb_refl.
    + rewrite lookup_insert_ne in H by done.
      destruct (String.eqb_spec key k) as [->|_]; [done | by apply Hl].
  - intros k sid H. apply elem_of_cons in H as [[= -> ->]|H].
    + eexists. rewrite lookup_insert_eq. split; [done |]. cbn. set_solver.
    + destruct (Hc k sid H) as (o & Ho & Hk). exists o. split; [|done].
      rewrite lookup_insert_ne; [done |]. intros <-.
      by rewrite fresh_unused in Ho.
Qed.

Lemma emit_inv (sid : nat) (ev : sessionEvent) (p : pool) :
  poolInv p -> poolInv (emitSessionEvent sid ev p).
Proof.
  intros [Hl Hc]. split; cbn; [|done].
  intros k e H. apply deletes_lookup in H. by apply Hl.
Qed.

Lemma mark_inv (sid : nat) (closes destroys : bool) (p : pool) :
  poolInv p -> poolInv (markSession sid closes destroys p).
Proof.
  intros [Hl Hc]. unfold markSession.
  destruct (heap p !! sid) as [o|] eqn:E; [|done]. split; cbn; [done |].
  intros k sid' H. destruct (Hc k sid' H) as (o' & Ho & Hk).
  destruct (decide (sid' = sid)) as [->|Hne].
  - rewrite lookup_insert_eq. eexists. split; [done |]. cbn. congruence.
  - rewrite lookup_insert_ne by done. eauto.
Qed.

Lemma cleanupEntry_inv (now : Z) (p : pool) (entry : string * sessionInfo) :
  poolInv p -> poolInv (cleanupEntry now p entry).
Proof.
  intros Hp. unfold cleanupEntry. destruct (sessionTimeout <? _); [|done].
  destruct (mark_inv (session entry.2) true false p Hp) as [Hl Hc].
  split; cbn; [|done].
  intros k e H. apply lookup_delete_Some in H as [_ H]. by apply Hl.
Qed.

Lemma cleanup_inv (now : Z) (p : pool) : poolInv p -> poolInv (cleanup now p).
Proof.
  unfold cleanup. generalize (map_to_list (sessions p)). intros entries.
  revert p. induction entries as [|e es IH]; intros p Hp; [done |].
  cbn [fold_left]. by apply IH, cleanupEntry_inv.
Qed.

Lemma apply_inv (o : op) (p : pool) : poolInv p -> poolInv (apply o p).
Proof.
  destruct o; cbn [apply];
    auto using lookup_inv, store_inv, emit_inv, mark_inv, cleanup_inv.
Qed.

Lemma runOps_inv (ops : list op) (p : pool) : poolInv p -> poolInv (runOps ops p).
Proof.
  unfold runOps. revert p. induction ops as [|o ops IH]; intros p Hp; [done |].
  cbn [fold_left]. by apply IH, apply_inv.
Qed.

Lemma created_in_listener (p : pool) (key : string) (sid : nat) :
  poolInv p -> (key, sid) ∈ created p -> key ∈ evicts (deref p sid).
Proof.
  intros [_ Hc] H. destruct (Hc key sid H) as (o & Ho & Hk).
  unfold deref. by rewrite Ho.
Qed.

(** C9. In every pool that the operations of the client can reach
    (lookups, stores after a creation, session events, sessions closing,
    cleanup rounds, in any order): [getSession] answers with a session
    that is neither closed nor destroyed; a cached entry is reused only
    if its session is neither; an entry whose session is closed or
    destroyed is deleted by the lookup, and the store that follows the
    creation puts the new session under the same key; an event of a
    created session removes the entry under its key; an entry refers to
    the session created last for its key. *)
Theorem pool_holds_latest_usable_session (ops : list op) :
  let p := runOps ops emptyPool in
  (forall hostname port now connects sid p',
     getSession hostname port now connects p = (Ok sid, p') -> usable p' sid = true)
  /\ (forall key now sid,
        (getSession_lookup key now p).1 = Reuse sid ->
        usable p sid = true
        /\ exists e, sessions p !! key = Some e /\ session e = sid)
  /\ (forall key now e,
        sessions p !! key = Some e -> usable p (session e) = false ->
        (getSession_lookup key now p).1 = Create
        /\ sessions (getSession_lookup key now p).2 !! key = None
        /\ forall now',
             let stored := getSession_store key now' (getSession_lookup key now p).2 in
             sessions stored.2 !! key = Some {| session := stored.1; lastUsed := now' |}
             /\ latestFor key (created stored.2) = Some stored.1)
  /\ (forall key sid ev,
        (key, sid) ∈ created p -> sessions (emitSessionEvent sid ev p) !! key = None)
  /\ (forall key e,
        sessions p !! key = Some e -> latestFor key (created p) = Some (session e)).
Proof.
  intros p. assert (Hp : poolInv p) by apply runOps_inv, emptyPool_inv.
  repeat split.
  - intros hostname port now connects sid p'. unfold getSession, getSession_lookup.
    destruct (sessions p !! _) as [info|] eqn:E.
    + destruct (usable p (session info)) eqn:Eu.
      * intros [= <- <-]. exact Eu.
      * destruct connects; [|done]. intros [= <- <-].
        unfold usable, deref, getSession_store. cbn. by rewrite lookup_insert_eq.
    + destruct connects; [|done]. intros [= <- <-].
      unfold usable, deref, getSession_store. cbn. by rewrite lookup_insert_eq.
  - revert H. unfold getSession_lookup.
    destruct (sessions p !! key) as [info|]; [|done].
    destruct (usable p (session info)) eqn:Eu; [|done]. by intros [= <-].
  - revert H. unfold getSession_lookup.
    destruct (sessions p !! key) as [info|]; [|done].
    destruct (usable p (session info)) eqn:Eu; [|done]. intros [= <-]. eauto.
  - unfold getSession_lookup. by rewrite H, H0.
  - unfold getSession_lookup. rewrite H, H0. cbn. apply lookup_delete_eq.
  - cbn. by rewrite lookup_insert_eq.
  - cbn. by rewrite String.eqb_refl.
  - intros key sid ev H. cbn. by apply deletes_gone, created_in_listener.
  - intros key e. apply Hp.
Qed.

(** Two requests for one key that both miss: each stores its session, the
    later store wins; when the first session then closes, its listener
    removes the entry of the second. *)
Example concurrent_creations :
  let p := runOps [Lookup "h:443" 0; Lookup "h:443" 1; Store "h:443" 2; Store "h:443" 3]
             emptyPool in
  (session <$> sessions p !! "h:443") = Some 2%nat
  /\ created p = [("h:443", 2%nat); ("h:443", 1%nat)]
  /\ sessions (runOps [SessionChanges 1 true false; SessionEmits 1 OnClose] p) !! "h:443"
     = None.
Proof. vm_compute. done. Qed.

(** An idle session is closed and dropped by the cleanup round; the next
    request creates a new one. *)
Example cleanup_then_create :
  let p := runOps [Lookup "h:443" 0; Store "h:443" 0; CleanupTick 300001] emptyPool in
  sessions p !! "h:443" = None
  /\ closed (deref p 1) = true
  /\ (getSession "h" "" 300002 true p).1 = Ok 2%nat.
Proof. vm_compute. done. Qed.

End PoolFacts.

(** ** Session creation through a proxy *)

Module TunnelFacts.
Import Js Http2Client.

(** [proxyUrl.username && proxyUrl.password] *)
Definition hasCredentials (proxy : proxyUrl) : bool :=
  negb (String.eqb (username proxy) "") && negb (String.eqb (password proxy) "").

Definition target (hostname : string) (o : options) : string :=
  hostname +:+ ":" +:+ (if String.eqb (port o) "" then "443" else port o).

Definition isTls (a : action) : bool :=
  match a with
  | TlsConnect _ _ _ => true
  | _ => false
  end.

(** The header of a request, by name. *)
Fixpoint headerOf (name : string) (hs : list (string * string)) : option string :=
  match hs with
  | [] => None
  | (k, v) :: rest => if String.eqb k name then Some v else headerOf name rest
  end.

(** C8. With an HTTP/S proxy agent, the first thing session creation does
    is a CONNECT request to the proxy for [host:port]; it carries
    [Proxy-Authorization: Basic base64(user:pass)] exactly when the proxy
    URL has a user name and a password. An answer other than 200 destroys
    the tunnel socket and fails the creation, and nothing else is done. An
    answer of 200 is followed by the HTTP/2 session over a TLS connection
    on the tunnel socket, with ALPN h2 and the target host as server name;
    no TLS handshake comes before the CONNECT request. *)
Theorem proxy_connect_tunnel (hostname : string) (o : options) (proxy : proxyUrl)
    (answer : proxyAnswer) (fate : sessionFate) :
  agentOption o = Some (AgentProxyUrl proxy) ->
  exists proxyPort headers rest,
    (createSession hostname o answer fate).1
    = ConnectRequest (proxyHostname proxy) proxyPort (target hostname o) headers :: rest
    /\ headerOf "Proxy-Authorization" headers
       = (if hasCredentials proxy
          then Some ("Basic " +:+ base64 (username proxy +:+ ":" +:+ password proxy))
          else None)
    /\ (forall status, answer = ConnectAnswer status -> status <> 200 ->
          rest = [SocketDestroy]
          /\ (createSession hostname o answer fate).2
             = Failed ("Proxy CONNECT failed with status " +:+ pretty status))
    /\ (answer = ConnectAnswer 200 ->
          exists ms more,
            rest = [Http2Connect ("https://" +:+ target hostname o);
                    TlsConnect true hostname ["h2"]; SetTimeout ms] ++ more
            /\ forallb (fun a => negb (isTls a)) more = true
            /\ (fate = Connects ->
                (createSession hostname o answer fate).2 = Fulfilled)).
Proof.
  intros Ha. unfold createSession. rewrite Ha. unfold target, hasCredentials.
  destruct answer as [status | m |].
  - destruct (negb (status =? 200)) eqn:Es.
    + do 3 eexists. split; [reflexivity |]. split.
      { cbn [fst]. destruct (negb _ && negb _); reflexivity. }
      split; [by intros status' [= <-] _ |]. intros [= ->]. discriminate Es.
    + destruct (awaitSession hostname fate) as [acts out] eqn:Ef.
      do 3 eexists. split; [reflexivity |]. split.
      { destruct (negb _ && negb _); reflexivity. }
      split.
      { intros status' [= <-] Hne. apply negb_false_iff, Z.eqb_eq in Es. done. }
      intros _. do 2 eexists. split; [reflexivity |]. split.
      * destruct fate; injection Ef as <- <-; reflexivity.
      * intros ->. by injection Ef as <- <-.
  - do 3 eexists. split; [reflexivity |]. split.
    { destruct (negb _ && negb _); reflexivity. }
    split; done.
  - do 3 eexists. split; [reflexivity |]. split.
    { destruct (negb _ && negb _); reflexivity. }
    split; done.
Qed.

(** The proxy of scenario 6 of the specification. *)
Definition tunnelOptions : options :=
  {| port := ""; timeout := None;
     agentOption :=
       Some (AgentProxyUrl {| protocol := "http:"; proxyHostname := "p";
                              proxyPortText := "8080"; username := "u";
                              password := "p" |}) |}.

Lemma proxy_connect_tunnel_witness :
  exists proxyPort headers rest,
    (createSession "api.anthropic.com" tunnelOptions (ConnectAnswer 200) Connects).1
    = ConnectRequest "p" proxyPort "api.anthropic.com:443" headers :: rest
    /\ headerOf "Proxy-Authorization" headers = Some "Basic dTpw".
Proof.
  destruct (proxy_connect_tunnel "api.anthropic.com" tunnelOptions _
              (ConnectAnswer 200) Connects eq_refl)
    as (proxyPort & headers & rest & Hacts & Hauth & _).
  exists proxyPort, headers, rest. split; [exact Hacts | exact Hauth].
Defined.

Example tunnel_scenario :
  createSession "api.anthropic.com" tunnelOptions (ConnectAnswer 200) Connects
  = ([ ConnectRequest "p" "8080" "api.anthropic.com:443"
         [("Host", "api.anthropic.com:443"); ("Proxy-Authorization", "Basic dTpw")];
       Http2Connect "https://api.anthropic.com:443";
       TlsConnect true "api.anthropic.com" ["h2"];
       SetTimeout 30000 ],
     Fulfilled).
Proof. vm_compute. reflexivity. Qed.

Example tunnel_refused :
  createSession "api.anthropic.com" tunnelOptions (ConnectAnswer 407) Connects
  = ([ ConnectRequest "p" "8080" "api.anthropic.com:443"
         [("Host", "api.anthropic.com:443"); ("Proxy-Authorization", "Basic dTpw")];
       SocketDestroy ],
     Failed "Proxy CONNECT failed with status 407").
Proof. vm_compute. reflexivity. Qed.

End TunnelFacts.

(** ** The proxy agent cache *)

Module ProxyFacts.
Import Js ProxyHelper.

(** Two descriptors that agree on everything the cache key reads. *)
Definition sameEndpoint (a b : json) : Prop :=
  get "type" a = get "type" b /\ get "host" a = get "host" b
  /\ get "port" a = get "port" b /\ get "username" a = get "username" b.

Lemma cacheKey_sameEndpoint (a b : json) : sameEndpoint a b -> cacheKey a = cacheKey b.
Proof. intros (Ht & Hh & Hp & Hu). unfold cacheKey. by rewrite Ht, Hh, Hp, Hu. Qed.

(** A call that answers with an agent leaves that agent in the cache under
    the descriptor's key. *)
Lemma createProxyAgent_cached (env : environment) (pc : json) (useIPv4 : option json)
    (s s1 : state) (a : agent) :
  createProxyAgent env (Some pc) useIPv4 s = (Some a, s1) ->
  exists proxy,
    parseConfig env pc = Some proxy
    /\ truthy pc = true
    /\ truthy_opt (get "type" proxy) = true /\ truthy_opt (get "host" proxy) = true
    /\ truthy_opt (get "port" proxy) = true
    /\ agentCache s1 !! cacheKey proxy = Some a.
Proof.
  unfold createProxyAgent. destruct (truthy pc); [|done]. cbn [negb].
  destruct (parseConfig env pc) as [proxy|]; [|done].
  assert (Hmain :
    (if negb (truthy_opt (get "type" proxy)) || negb (truthy_opt (get "host" proxy))
        || negb (truthy_opt (get "port" proxy))
     then (None, s)
     else
       match agentCache s !! cacheKey proxy with
       | Some cachedAgent =>
           (Some cachedAgent,
            {| agentCache := agentCache s; hits := S (hits s);
               misses := misses s; nextRef := nextRef s |})
       | None =>
           let preference := _getIPFamilyPreference env useIPv4 in
           let auth :=
             if truthy_opt (get "username" proxy) && truthy_opt (get "password" proxy)
             then interpolate (get "username" proxy) +:+ ":"
                  +:+ interpolate (get "password" proxy) +:+ "@"
             else "" in
           let fam := match preference with
                      | Some true => Some 4
                      | Some false => Some 6
                      | None => None
                      end in
           let build (k : agentKind) (u : string) :=
             if acceptsUrl env u then
               let a := {| ref := nextRef s; kind := k; proxyUrl := u; family := fam |} in
               (Some a,
                {| agentCache := <[cacheKey proxy := a]> (agentCache s); hits := hits s;
                   misses := S (misses s); nextRef := S (nextRef s) |})
             else (None, s) in
           if is_str "socks5" (get "type" proxy) then
             build SocksProxyAgent
               ("socks5h://" +:+ auth +:+ interpolate (get "host" proxy) +:+ ":"
                +:+ interpolate (get "port" proxy))
           else if is_str "http" (get "type" proxy) || is_str "https" (get "type" proxy) then
             build HttpsProxyAgent
               (interpolate (get "type" proxy) +:+ "://" +:+ auth
                +:+ interpolate (get "host" proxy) +:+ ":"
                +:+ interpolate (get "port" proxy))
           else (None, s)
       end) = (Some a, s1) ->
    exists proxy0,
      Some proxy = Some proxy0 /\ true = true
      /\ truthy_opt (get "type" proxy0) = true /\ truthy_opt (get "host" proxy0) = true
      /\ truthy_opt (get "port" proxy0) = true
      /\ agentCache s1 !! cacheKey proxy0 = Some a).
  { destruct (truthy_opt (get "type" proxy)) eqn:Et; [|done].
    destruct (truthy_opt (get "host" proxy)) eqn:Eh; [|done].
    destruct (truthy_opt (get "port" proxy)) eqn:Ep; [|done]. cbn [negb orb].
    destruct (agentCache s !! cacheKey proxy) as [cached|] eqn:Ec.
    - intros [= <- <-]. exists proxy. repeat split; assumption.
    - cbv zeta.
      destruct (is_str "socks5" _); [|destruct (_ || _)];
        try destruct (acceptsUrl env _); try done;
        intros [= <- <-]; exists proxy; repeat split; try assumption;
        cbn [agentCache]; apply lookup_insert_eq. }
  destruct proxy; exact Hmain.
Qed.

(** C10. Two proxy descriptors that agree on type, host, port and user
    name have the same cache key, whatever their passwords. Once a call
    for the first has answered with an agent, a call for the second answers
    with that same agent object, builds nothing and leaves the cache as it
    is. *)
Theorem password_is_not_part_of_the_cache_key (env : environment)
    (first second proxyA proxyB : json) (useA useB : option json)
    (s s1 : state) (a : agent) :
  parseConfig env first = Some proxyA ->
  parseConfig env second = Some proxyB ->
  truthy second = true ->
  sameEndpoint proxyA proxyB ->
  createProxyAgent env (Some first) useA s = (Some a, s1) ->
  cacheKey proxyA = cacheKey proxyB
  /\ createProxyAgent env (Some second) useB s1
     = (Some a,
        {| agentCache := agentCache s1; hits := S (hits s1);
           misses := misses s1; nextRef := nextRef s1 |}).
Proof.
  intros Ha Hb Htruthy Hsame Hfirst.
  pose proof (cacheKey_sameEndpoint _ _ Hsame) as Hkey. split; [done |].
  apply createProxyAgent_cached in Hfirst
    as (proxy & Hp & _ & Ht & Hh & Hport & Hc).
  rewrite Ha in Hp. injection Hp as <-.
  destruct Hsame as (Et & Eh & Ep & _). rewrite Et in Ht. rewrite Eh in Hh.
  rewrite Ep in Hport. rewrite Hkey in Hc.
  unfold createProxyAgent. rewrite Htruthy, Hb. cbn [negb].
  rewrite Ht, Hh, Hport, Hc. cbn [negb orb].
  destruct proxyB; try done. 
Qed.

Definition proxyEnv : environment :=
  {| parse := Fixtures.parseJson; defaultUseIPv4 := None; acceptsUrl := fun _ => true |}.

Definition descriptorWith (pass : string) : json :=
  JObj [("type", JStr "http"); ("host", JStr "p"); ("port", JNum 8080);
        ("username", JStr "u"); ("password", JStr pass)].

Definition emptyState : state :=
  {| agentCache := ∅; hits := 0; misses := 0; nextRef := 0 |}.

Definition firstAgent : agent :=
  {| ref := 0; kind := HttpsProxyAgent; proxyUrl := "http://u:old@p:8080";
     family := Some 4 |}.

Lemma password_is_not_part_of_the_cache_key_witness :
  createProxyAgent proxyEnv (Some (descriptorWith "new")) None
    {| agentCache := {[ "http://p:8080:u" := firstAgent ]}; hits := 0; misses := 1;
       nextRef := 1 |}
  = (Some firstAgent,
     {| agentCache := {[ "http://p:8080:u" := firstAgent ]}; hits := 1; misses := 1;
        nextRef := 1 |}).
Proof.
  refine (proj2 (password_is_not_part_of_the_cache_key proxyEnv
                   (descriptorWith "old") (descriptorWith "new")
                   (descriptorWith "old") (descriptorWith "new") None None
                   emptyState _ firstAgent eq_refl eq_refl eq_refl _ _)).
  - repeat split.
  - vm_compute. reflexivity.
Defined.

End ProxyFacts.

Set Warnings "-clear-no-such-hyp".

(** ** Beta header: which tokens are admitted *)

Module BetaAdmission.
Import Js JsFacts BetaHeaderManager BetaHeaderFacts.

Lemma set_add_elem (x y : string) (l : list string) :
  y ∈ set_add x l <-> y ∈ l \/ y = x.
Proof.
  unfold set_add. case_bool_decide as Hx; [|set_solver].
  split; [by left |]. intros [H | ->]; done.
Qed.

Lemma set_add_NoDup (x : string) (l : list string) : NoDup l -> NoDup (set_add x l).
Proof.
  intros Hl. unfold set_add. case_bool_decide as Hx; [done |].
  apply NoDup_app. split; [done |]. split; [set_solver | apply NoDup_singleton].
Qed.

(** A piece of the base header that the first loop admits. *)
Definition admitted (model : json) (pieces : list string) (t : string) : Prop :=
  exists piece, piece ∈ pieces /\ t = trim piece /\ t <> ""
                /\ shouldIncludeFeature t model = true.

Lemma add_base_elem (model : json) (features : list string) (piece t : string) :
  t ∈ add_base model features piece
  <-> t ∈ features
      \/ (t = trim piece /\ t <> "" /\ shouldIncludeFeature t model = true).
Proof.
  unfold add_base. destruct (String.eqb_spec (trim piece) "") as [He|He]; cbn [negb andb].
  - split; [by left |]. intros [H | (-> & Hne & _)]; done.
  - destruct (shouldIncludeFeature (trim piece) model) eqn:Es.
    + rewrite set_add_elem. split; intros [H | H]; auto.
      * subst. by right.
      * destruct H as (-> & _). by right.
    + split; [by left |]. intros [H | (-> & _ & Hs)]; [done | congruence].
Qed.

Lemma fold_add_base_elem (model : json) (pieces features : list string) (t : string) :
  t ∈ fold_left (add_base model) pieces features
  <-> t ∈ features \/ admitted model pieces t.
Proof.
  revert features. induction pieces as [|p ps IH]; intros features; cbn [fold_left].
  - split; [by left |]. intros [H | (piece & Hin & _)]; [done |].
    by apply elem_of_nil in Hin.
  - rewrite IH, add_base_elem. unfold admitted. split.
    + intros [[H | H] | (piece & Hin & H)]; [by left | right.. ].
      * exists p. split; [left | done].
      * exists piece. split; [by right | done].
    + intros [H | (piece & Hin & H)]; [by left; left |].
      apply elem_of_cons in Hin as [-> | Hin]; [left; by right |].
      right. by exists piece.
Qed.

Lemma fold_add_base_NoDup (model : json) (pieces features : list string) :
  NoDup features -> NoDup (fold_left (add_base model) pieces features).
Proof.
  revert features. induction pieces as [|p ps IH]; intros features Hf; [done |].
  cbn [fold_left]. apply IH. unfold add_base.
  destruct (_ && _); [by apply set_add_NoDup | done].
Qed.

(** The set [features] of [buildBetaHeader]: what is in it, and that it is
    a set. *)
Lemma collectFeatures_elem (model : json) (base client : string)
    (o : requestOptions) (t : string) :
  t ∈ collectFeatures model base client o
  <-> (base <> "" /\ admitted model (split "," base) t)
      \/ (t = "context-1m-2025-08-07" /\ client <> ""
          /\ includes client "context-1m-2025-08-07" = true)
      \/ (t = "token-counting-2024-11-01" /\ isCountTokens o = true).
Proof.
  unfold collectFeatures.
  set (f0 := if String.eqb base "" then [] else fold_left _ _ _).
  assert (H0 : t ∈ f0 <-> base <> "" /\ admitted model (split "," base) t).
  { unfold f0. destruct (String.eqb_spec base "") as [->|Hb].
    - split; [intros H; by apply elem_of_nil in H | by intros [? _]].
    - rewrite fold_add_base_elem. split.
      + intros [H | H]; [by apply elem_of_nil in H | done].
      + intros [_ H]. by right. }
  set (f1 := if negb (String.eqb client "") && _ then _ else f0).
  assert (H1 : t ∈ f1 <-> t ∈ f0
             \/ (t = "context-1m-2025-08-07" /\ client <> ""
                 /\ includes client "context-1m-2025-08-07" = true)).
  { unfold f1. destruct (String.eqb_spec client "") as [->|Hc]; cbn [negb andb].
    - split; [by left |]. intros [H | (_ & H & _)]; done.
    - destruct (includes client "context-1m-2025-08-07") eqn:Ei.
      + rewrite set_add_elem. split; intros [H | H]; auto.
        destruct H as (-> & _). by right.
      + split; [by left |]. intros [H | (_ & _ & H)]; done. }
  destruct (isCountTokens o).
  - rewrite set_add_elem, H1, H0. split.
    + intros [[H | H] | H]; auto.
    + intros [H | [H | [H _]]]; auto.
  - rewrite H1, H0. split.
    + intros [H | H]; auto.
    + intros [H | [H | [_ H]]]; auto. done.
Qed.

Lemma collectFeatures_NoDup (model : json) (base client : string) (o : requestOptions) :
  NoDup (collectFeatures model base client o).
Proof.
  unfold collectFeatures.
  assert (H0 : NoDup (if String.eqb base "" then []
                      else fold_left (add_base model) (split "," base) [])).
  { destruct (String.eqb base ""); [apply NoDup_nil_2 |].
    apply fold_add_base_NoDup, NoDup_nil_2. }
  destruct (isCountTokens o), (negb (String.eqb client "") && _);
    auto using set_add_NoDup.
Qed.

Lemma orderFeatures_elem (features : list string) (t : string) :
  t ∈ orderFeatures features <-> t ∈ features.
Proof.
  unfold orderFeatures. rewrite elem_of_app, !list_elem_of_filter.
  unfold set_has. rewrite bool_decide_eq_true.
  destruct (decide (t ∈ FEATURE_ORDER)); naive_solver.
Qed.

Lemma orderFeatures_NoDup (features : list string) :
  NoDup features -> NoDup (orderFeatures features).
Proof.
  intros Hf. unfold orderFeatures. apply NoDup_app. split; [|split].
  - apply NoDup_filter. unfold FEATURE_ORDER.
    repeat (apply NoDup_cons; split; [set_solver |]). apply NoDup_nil_2.
  - intros x Hx Hx'. apply list_elem_of_filter in Hx as [_ Hx].
    apply list_elem_of_filter in Hx' as [Hx' _]. done.
  - by apply NoDup_filter.
Qed.

(** X1. The tokens of an emitted beta header are exactly: the trimmed,
    non-empty pieces of the base header that the feature rules admit for
    the model; [context-1m-2025-08-07] when the client's header names it;
    [token-counting-2024-11-01] when the request is a [count_tokens]
    request. No token is emitted twice. *)
Theorem beta_header_tokens_characterised (model : json) (base client : string)
    (o : requestOptions) (h : string) :
  buildBetaHeader model base client o = Some h ->
  NoDup (split comma h)
  /\ forall t,
       t ∈ split comma h
       <-> (base <> "" /\ admitted model (split "," base) t)
           \/ (t = "context-1m-2025-08-07" /\ client <> ""
               /\ includes client "context-1m-2025-08-07" = true)
           \/ (t = "token-counting-2024-11-01" /\ isCountTokens o = true).
Proof.
  intros H. apply buildBetaHeader_tokens in H as [_ ->]. split.
  - apply orderFeatures_NoDup, collectFeatures_NoDup.
  - intros t. by rewrite orderFeatures_elem, collectFeatures_elem.
Qed.

Lemma beta_header_tokens_characterised_witness :
  NoDup (split comma "oauth-2025-04-20,context-1m-2025-08-07")
  /\ forall t,
       t ∈ split comma "oauth-2025-04-20,context-1m-2025-08-07"
       <-> ("oauth-2025-04-20, oauth-2025-04-20,interleaved-thinking-2025-05-14" <> ""
            /\ admitted (JStr "claude-3-5-haiku-20241022")
                 (split "," "oauth-2025-04-20, oauth-2025-04-20,interleaved-thinking-2025-05-14")
                 t)
           \/ (t = "context-1m-2025-08-07" /\ "context-1m-2025-08-07" <> ""
               /\ includes "context-1m-2025-08-07" "context-1m-2025-08-07" = true)
           \/ (t = "token-counting-2024-11-01"
               /\ isCountTokens {| customPath := None; betaHeader := None |} = true).
Proof.
  apply (beta_header_tokens_characterised (JStr "claude-3-5-haiku-20241022")
           "oauth-2025-04-20, oauth-2025-04-20,interleaved-thinking-2025-05-14"
           "context-1m-2025-08-07" {| customPath := None; betaHeader := None |}).
  vm_compute. reflexivity.
Defined.

Definition thinkingModels : list string :=
  ["claude-sonnet-4-20250514"; "claude-opus-4-20250514"; "claude-opus-4-1-20250805"].



(** A model outside both rules gets neither gated token. *)
Example beta_header_for_other_model :
  buildBetaHeader (JStr "claude-3-5-haiku-20241022")
    "claude-code-20250219,oauth-2025-04-20,interleaved-thinking-2025-05-14,fine-grained-tool-streaming-2025-05-14"
    "" {| customPath := None; betaHeader := None |}
  = Some "oauth-2025-04-20,fine-grained-tool-streaming-2025-05-14".
Proof. vm_compute. reflexivity. Qed.

End BetaAdmission.

(** ** The outbound request: credentials, fingerprint, client headers *)

Module OutboundFacts.
Import Js JsFacts BetaHeaderManager ClaudeRelayService RequestFacts.

(** [account && account.banMode === 'true'] *)
Definition banned (acct : option account) : bool :=
  match acct with
  | Some a => String.eqb (banMode a) "true"
  | None => false
  end.

Lemma requestHeaders_credentials (stream : bool) (dc : dispatchConfig)
    (acct : option account) (random : randomHeaders) (token : string) :
  let hs := requestHeaders stream dc acct random token in
  hs !! "Authorization" = Some ("Bearer " +:+ token)
  /\ hs !! "anthropic-version" = Some (apiVersion dc)
  /\ hs !! "User-Agent" = Some (if banned acct then userAgent random else USER_AGENT)
  /\ hs !! "x-stainless-os" = Some (if banned acct then os random else "MacOS")
  /\ hs !! "x-stainless-helper-method" = (if stream then Some "stream" else None).
Proof.
  unfold requestHeaders, banned.
  destruct acct as [a|]; [destruct (String.eqb (banMode a) "true") |];
    destruct stream; vm_compute; done.
Qed.


Definition haikuBody : json := JObj [("model", JStr "claude-3-5-haiku-20241022")].


Definition humanised : list string :=
  [ "Connection reset by Claude API server";
    "Unable to resolve Claude API hostname";
    "Connection refused by Claude API server";
    "Connection timed out to Claude API server";
    "Upstream request failed" ].


(** A reset is not held against the account; a time-out is. *)
Example upstream_reset_and_timeout :
  let failing (message : string) :=
    _makeClaudeRequest Fixtures.dispatch Fixtures.random (fun _ => Throw message)
      haikuBody "tok" ∅ "acct-1" None Fixtures.noOptions Fixtures.emptyWorld in
  (failing "read ECONNRESET").1 = Throw "Connection reset by Claude API server"
  /\ calls (failing "read ECONNRESET").2 = []
  /\ (failing "HTTP/2 request timeout").1
     = Throw "Connection timed out to Claude API server"
  /\ calls (failing "HTTP/2 request timeout").2 = [RecordServerError "acct-1" 504].
Proof. vm_compute. done. Qed.

End OutboundFacts.

(** ** Request body preparation: the system prompt, cache lifetimes, the
       token limit *)

Module BodyExtras.
Import Js JsFacts ClaudeRelayService BodyFacts.

(** The first system block is the Claude Code prompt. *)
Definition promptFirst (system : option json) : Prop :=
  exists first rest,
    system = Some (JArr (first :: rest))
    /\ get "type" first = Some (JStr "text")
    /\ get "text" first = Some (JStr claudeCodeSystemPrompt).

Lemma is_text_block_with_fields (text : string) (item : json) :
  is_text_block_with text item = true ->
  get "type" item = Some (JStr "text") /\ get "text" item = Some (JStr text).
Proof.
  unfold is_text_block_with, is_str. intros H.
  apply andb_true_iff in H as [H Htext]. apply andb_true_iff in H as [_ Htype].
  destruct (get "type" item) as [[]|]; try done.
  destruct (get "text" item) as [[]|]; try done.
  apply String.eqb_eq in Htype, Htext. by subst.
Qed.

Lemma inject_promptFirst (pb : list (string * json)) :
  promptFirst (assoc_get "system" (injectClaudeCodePrompt pb)).
Proof.
  unfold injectClaudeCodePrompt, promptFirst.
  destruct (assoc_get "system" pb) as [sys|] eqn:Es;
    [|rewrite assoc_get_set_eq; by eexists _, _].
  destruct (truthy sys); [|rewrite assoc_get_set_eq; by eexists _, _].
  destruct sys as [| | |s|items|]; try (rewrite assoc_get_set_eq; by eexists _, _).
  - destruct (String.eqb _ _); rewrite assoc_get_set_eq; by eexists _, _.
  - destruct items as [|firstItem rest]; cbn [lookup list_lookup].
    + rewrite assoc_get_set_eq. by eexists _, _.
    + destruct (is_text_block_with claudeCodeSystemPrompt firstItem) eqn:Ef.
      * rewrite Es. apply is_text_block_with_fields in Ef as [? ?]. by eexists _, _.
      * rewrite assoc_get_set_eq. by eexists _, _.
Qed.

Lemma prompt_valid (first : json) (rest : list json) :
  get "type" first = Some (JStr "text") ->
  get "text" first = Some (JStr claudeCodeSystemPrompt) ->
  hasValidContent (first :: rest) = Ok true.
Proof.
  intros Htype Htext. destruct first; try done.
  cbn [hasValidContent truthy andb]. rewrite Htext. by vm_compute.
Qed.

Lemma applySystemPrompt_promptFirst (cfg : config) (pb pb' : list (string * json)) :
  promptFirst (assoc_get "system" pb) ->
  applySystemPrompt cfg pb = Ok pb' ->
  promptFirst (assoc_get "system" pb').
Proof.
  intros (first & rest & Es & Htype & Htext). unfold applySystemPrompt. rewrite Es.
  destruct (negb _ && negb _).
  - destruct (hasSystemPrompt _ _); intros [= <-].
    + by exists first, rest.
    + rewrite assoc_get_set_eq. by exists first, (rest ++ [textBlock (systemPrompt cfg)]).
  - rewrite (prompt_valid first rest Htype Htext). cbn [mbind result_bind].
    intros [= <-]. by exists first, rest.
Qed.

(** The steps after the system prompt leave other fields alone. *)
Lemma tail_keeps (sessionId : string) (acct : option account) (variant : option json)
    (pb8 pb10 out : list (string * json)) (k : string) :
  k <> "top_p" -> k <> "metadata" -> k <> "thinking" ->
  match acct with
  | Some a =>
      if useUnifiedClientId a && negb (String.eqb (unifiedClientId a) "")
      then _replaceClientId sessionId (unifiedClientId a) (dropTopP pb8)
      else Ok (dropTopP pb8)
  | None => Ok (dropTopP pb8)
  end = Ok pb10 ->
  applyThinking variant pb10 = Ok out ->
  assoc_get k out = assoc_get k pb8.
Proof.
  intros H1 H2 H3 H10 Hout.
  rewrite (applyThinking_keeps variant k H3 _ _ Hout).
  rewrite <- (dropTopP_keeps k H1 pb8).
  destruct acct as [a|]; [destruct (useUnifiedClientId a && _) |].
  - by rewrite (replaceClientId_keeps _ _ k H2 _ _ H10).
  - by injection H10 as <-.
  - by injection H10 as <-.
Qed.


Definition stringSystemBody : json :=
  JObj [("model", JStr "claude-3-5-haiku-20241022");
        ("system", JStr "You are terse.");
        ("messages", JArr [])].


Example string_system_becomes_blocks :
  (out ← _processRequestBody Fixtures.plainConfig Fixtures.uuid stringSystemBody
           ∅ None false;
   Ok (get "system" out))
  = Ok (Some (JArr [claudeCodePrompt; textBlock "You are terse."])).
Proof. vm_compute. reflexivity. Qed.

(** [item.cache_control && item.cache_control.ttl] *)
Definition carriesTtl (item : json) : bool :=
  match get "cache_control" item with
  | Some cc => truthy cc && truthy_opt (get "ttl" cc)
  | None => false
  end.

Definition ttlFree (items : list json) : bool :=
  forallb (fun item => negb (carriesTtl item)) items.

Definition messageTtlFree (message : json) : bool :=
  match get "content" message with
  | Some (JArr items) => ttlFree items
  | _ => true
  end.

Definition systemTtlFree (pb : list (string * json)) : Prop :=
  forall items, assoc_get "system" pb = Some (JArr items) -> ttlFree items = true.

Lemma stripTtlItem_clean (item : json) : carriesTtl (stripTtlItem item) = false.
Proof.
  destruct item as [| | | | |fs]; try done.
  unfold stripTtlItem.
  destruct (get "cache_control" (JObj fs)) as [cc|] eqn:Ec;
    [|unfold carriesTtl; by rewrite Ec].
  destruct (truthy cc && truthy_opt (get "ttl" cc)) eqn:Et;
    [|unfold carriesTtl; by rewrite Ec].
  unfold carriesTtl. cbn [obj_set get]. rewrite assoc_get_set_eq.
  destruct cc as [| | | | |ccfs]; try (cbn in Et; by rewrite ?andb_false_r in Et).
  cbn [obj_del get]. rewrite assoc_get_del_eq. apply andb_false_r.
Qed.

Lemma processContentArray_clean (items : list json) :
  ttlFree (processContentArray items) = true.
Proof.
  unfold ttlFree, processContentArray. apply forallb_forall. intros item Hin.
  apply in_map_iff in Hin as (x & <- & _). by rewrite stripTtlItem_clean.
Qed.

Lemma stripTtlMessage_clean (message : json) :
  messageTtlFree (stripTtlMessage message) = true.
Proof.
  unfold stripTtlMessage, messageTtlFree.
  destruct (truthy message) eqn:Et.
  - destruct (get "content" message) as [[| | | |items|]|] eqn:Ec; rewrite ?Ec; try done.
    destruct message as [| | | | |fs]; try done.
    cbn [obj_set get]. rewrite assoc_get_set_eq. apply processContentArray_clean.
  - destruct message as [| | | | |fs]; try done.
Qed.

Lemma stripTtl_messages (pb : list (string * json)) (msgs : list json) :
  assoc_get "messages" (_stripTtlFromCacheControl pb) = Some (JArr msgs) ->
  forallb messageTtlFree msgs = true.
Proof.
  unfold _stripTtlFromCacheControl.
  set (pb1 := match assoc_get "system" pb with
              | Some (JArr sys) => assoc_set "system" (JArr (processContentArray sys)) pb
              | _ => pb
              end).
  destruct (assoc_get "messages" pb1) as [[| | | |ms|]|] eqn:Em; rewrite ?Em; try done.
  rewrite assoc_get_set_eq. intros [= <-]. apply forallb_forall.
  intros m Hin. apply in_map_iff in Hin as (x & <- & _). apply stripTtlMessage_clean.
Qed.

Lemma stripTtl_system_field (pb : list (string * json)) :
  assoc_get "system" (_stripTtlFromCacheControl pb)
  = match assoc_get "system" pb with
    | Some (JArr sys) => Some (JArr (processContentArray sys))
    | other => other
    end.
Proof.
  unfold _stripTtlFromCacheControl.
  set (pb1 := match assoc_get "system" pb with
              | Some (JArr sys) => assoc_set "system" (JArr (processContentArray sys)) pb
              | _ => pb
              end).
  assert (E1 : assoc_get "system" pb1
               = match assoc_get "system" pb with
                 | Some (JArr sys) => Some (JArr (processContentArray sys))
                 | other => other
                 end).
  { unfold pb1. destruct (assoc_get "system" pb) as [[| | | |sys|]|] eqn:Es;
      rewrite ?Es; try done. apply assoc_get_set_eq. }
  destruct (assoc_get "messages" pb1) as [[| | | |ms|]|]; try done.
  by rewrite assoc_get_set_ne.
Qed.

Lemma stripTtl_system (pb : list (string * json)) :
  systemTtlFree (_stripTtlFromCacheControl pb).
Proof.
  intros items. rewrite stripTtl_system_field.
  destruct (assoc_get "system" pb) as [[| | | |sys|]|]; try done.
  intros [= <-]. apply processContentArray_clean.
Qed.

Lemma inject_system (pb : list (string * json)) :
  systemTtlFree pb -> systemTtlFree (injectClaudeCodePrompt pb).
Proof.
  intros Hpb items. unfold injectClaudeCodePrompt.
  destruct (assoc_get "system" pb) as [sys|] eqn:Es;
    [|rewrite assoc_get_set_eq; by intros [= <-]].
  destruct (truthy sys); [|rewrite assoc_get_set_eq; by intros [= <-]].
  destruct sys as [| | |s|sysItems|];
    try (rewrite assoc_get_set_eq; by intros [= <-]).
  - destruct (String.eqb _ _); rewrite assoc_get_set_eq; by intros [= <-].
  - destruct (match sysItems !! 0%nat with Some _ => _ | None => _ end).
    + rewrite Es. intros [= <-]. by apply Hpb.
    + rewrite assoc_get_set_eq. intros [= <-].
      specialize (Hpb sysItems Es). unfold ttlFree in *. cbn [forallb]. 
      apply andb_true_iff. split; [done |].
      apply forallb_forall. intros x Hin. apply List.filter_In in Hin as [Hin _].
      by apply (proj1 (forallb_forall _ _) Hpb).
Qed.

Lemma applySystemPrompt_system (cfg : config) (pb pb' : list (string * json)) :
  systemTtlFree pb -> applySystemPrompt cfg pb = Ok pb' -> systemTtlFree pb'.
Proof.
  intros Hpb H items. revert H. unfold applySystemPrompt.
  destruct (negb _ && negb _).
  - destruct (assoc_get "system" pb) as [[| | | |sys|]|] eqn:Es;
      try (intros [= <-]; rewrite assoc_get_set_eq; by intros [= <-]).
    destruct (hasSystemPrompt _ _); intros [= <-].
    + rewrite Es. intros [= <-]. by apply Hpb.
    + rewrite assoc_get_set_eq. intros [= <-]. unfold ttlFree.
      rewrite forallb_app. apply andb_true_iff. split; [by apply Hpb | done].
  - destruct (assoc_get "system" pb) as [[| | | |sys|]|] eqn:Es;
      try (intros [= <-]; rewrite Es; by intros [=]).
    destruct (hasValidContent sys) as [[]| |]; cbn [mbind result_bind]; try done;
      intros [= <-].
    + rewrite Es. intros [= <-]. by apply Hpb.
    + by rewrite assoc_get_del_eq.
Qed.

(** X6. A request body that is prepared for anything but [count_tokens]
    leaves without cache lifetimes: no block of the outbound [system]
    array and no content block of an outbound message has a
    [cache_control] with a truthy [ttl]. *)
Theorem cache_ttl_is_stripped (cfg : config) (sessionId : string)
    (pb0 : list (string * json)) (clientHeaders : gmap string string)
    (acct : option account) (out : json) :
  _processRequestBody cfg sessionId (JObj pb0) clientHeaders acct false = Ok out ->
  (forall items, get "system" out = Some (JArr items) -> ttlFree items = true)
  /\ (forall msgs, get "messages" out = Some (JArr msgs) ->
        forallb messageTtlFree msgs = true).
Proof.
  intros H. apply processRequestBody_steps in H as (pb & -> & Hp).
  destruct Hp as [variant pb2 pb3 pb5 pb7 pb8 pb10 _ _ _ _ H7 H8 H10 Hout].
  cbn [get]. split.
  - rewrite (tail_keeps _ _ _ _ _ _ "system" ltac:(done) ltac:(done)
               ltac:(done) H10 Hout).
    apply (applySystemPrompt_system cfg pb7 pb8); [|done].
    rewrite H7. destruct (validate cfg _ clientHeaders);
      [|apply inject_system]; apply stripTtl_system.
  - rewrite (tail_keeps _ _ _ _ _ _ "messages" ltac:(done) ltac:(done)
               ltac:(done) H10 Hout).
    rewrite (applySystemPrompt_keeps cfg "messages" ltac:(done) _ _ H8).
    rewrite H7. destruct (validate cfg _ clientHeaders);
      rewrite ?inject_keeps by done; apply stripTtl_messages.
Qed.

Definition ttlBody : json :=
  JObj [("model", JStr "claude-3-5-haiku-20241022");
        ("system",
         JArr [JObj [("type", JStr "text"); ("text", JStr "Be brief.");
                     ("cache_control",
                      JObj [("type", JStr "ephemeral"); ("ttl", JStr "1h")])]]);
        ("messages",
         JArr [JObj [("role", JStr "user");
                     ("content",
                      JArr [JObj [("type", JStr "text"); ("text", JStr "Hello");
                                  ("cache_control",
                                   JObj [("type", JStr "ephemeral");
                                         ("ttl", JStr "5m")])]])]])].

Lemma cache_ttl_is_stripped_witness :
  exists out,
    _processRequestBody Fixtures.plainConfig Fixtures.uuid ttlBody ∅ None false = Ok out
    /\ (forall items, get "system" out = Some (JArr items) -> ttlFree items = true)
    /\ (forall msgs, get "messages" out = Some (JArr msgs) ->
          forallb messageTtlFree msgs = true).
Proof.
  assert (Hrun : exists out,
            _processRequestBody Fixtures.plainConfig Fixtures.uuid ttlBody ∅ None false
            = Ok out).
  { vm_compute. eexists. reflexivity. }
  destruct Hrun as (out & Hout). exists out. split; [exact Hout |].
  exact (cache_ttl_is_stripped _ _ _ _ _ _ Hout).
Defined.

Example ttl_body_prepared :
  (out ← _processRequestBody Fixtures.plainConfig Fixtures.uuid ttlBody ∅ None false;
   Ok (get "messages" out))
  = Ok (Some (JArr [JObj [("role", JStr "user");
                          ("content",
                           JArr [JObj [("type", JStr "text"); ("text", JStr "Hello");
                                       ("cache_control",
                                        JObj [("type", JStr "ephemeral")])]])]])).
Proof. vm_compute. reflexivity. Qed.

(** [body.model || 'claude-sonnet-4-20250514'] as a key of the pricing
    table. *)
Definition pricingKey (pb : list (string * json)) : string :=
  match assoc_get "model" pb with
  | Some m => if truthy m then toString m else "claude-sonnet-4-20250514"
  | None => "claude-sonnet-4-20250514"
  end.

(** [modelConfig.max_tokens || modelConfig.max_output_tokens] *)
Definition maxLimit (modelConfig : json) : option json :=
  match get "max_tokens" modelConfig with
  | Some l => if truthy l then Some l else get "max_output_tokens" modelConfig
  | None => get "max_output_tokens" modelConfig
  end.

(** X7. With a pricing table that gives the request's model (or, for a
    request without a model, [claude-sonnet-4-20250514]) a positive
    numeric limit, a numeric [max_tokens] leaves as the smaller of itself
    and the limit; it is never raised. Without a pricing table, or for a
    model the table does not list, the body is left as it is. *)
Theorem max_tokens_is_capped (cfg : config) (pb : list (string * json)) (n : Z) :
  assoc_get "max_tokens" pb = Some (JNum n) ->
  (forall pricing modelConfig l,
     pricingData cfg = Some pricing ->
     assoc_get (pricingKey pb) pricing = Some modelConfig ->
     truthy modelConfig = true ->
     maxLimit modelConfig = Some (JNum l) -> 0 < l ->
     exists out,
       _validateAndLimitMaxTokens cfg pb = Ok out
       /\ assoc_get "max_tokens" out = Some (JNum (Z.min n l)))
  /\ (pricingData cfg = None
      \/ (exists pricing, pricingData cfg = Some pricing
                          /\ assoc_get (pricingKey pb) pricing = None) ->
      _validateAndLimitMaxTokens cfg pb = Ok pb).
Proof.
  intros Hn. unfold _validateAndLimitMaxTokens. rewrite Hn. cbn [truthy].
  split.
  - intros pricing modelConfig l Hp Hm Ht Hl Hl0.
    destruct (n =? 0) eqn:En; cbn [negb].
    + apply Z.eqb_eq in En as ->. eexists. split; [done |].
      rewrite Hn. do 2 f_equal. lia.
    + rewrite Hp. fold (pricingKey pb). rewrite Hm, Ht. cbn [negb].
      fold (maxLimit modelConfig). rewrite Hl. cbn [truthy].
      replace (l =? 0) with false by (symmetry; apply Z.eqb_neq; lia).
      cbn [negb js_gt toNumber mbind result_bind].
      destruct (l <? n) eqn:Ec; eexists; (split; [done |]).
      * rewrite assoc_get_set_eq. do 2 f_equal. apply Z.ltb_lt in Ec. lia.
      * rewrite Hn. do 2 f_equal. apply Z.ltb_ge in Ec. lia.
  - intros H. destruct (negb (negb (n =? 0))); [done |].
    destruct H as [-> | (pricing & -> & Hnone)]; [done |].
    fold (pricingKey pb). by rewrite Hnone.
Qed.

Definition pricedConfig : config :=
  {| systemPrompt := "";
     pricingData :=
       Some [("claude-3-5-haiku-20241022", JObj [("max_output_tokens", JNum 8192)])];
     validate := fun _ _ => false |}.

Lemma max_tokens_is_capped_witness :
  exists out,
    _validateAndLimitMaxTokens pricedConfig
      [("model", JStr "claude-3-5-haiku-20241022"); ("max_tokens", JNum 100000)] = Ok out
    /\ assoc_get "max_tokens" out = Some (JNum (Z.min 100000 8192)).
Proof.
  refine (proj1 (max_tokens_is_capped pricedConfig
                   [("model", JStr "claude-3-5-haiku-20241022");
                    ("max_tokens", JNum 100000)] 100000 eq_refl)
            _ (JObj [("max_output_tokens", JNum 8192)]) 8192
            eq_refl eq_refl eq_refl eq_refl _).
  lia.
Defined.

End BodyExtras.

(** ** The streaming request: what reaches the client *)

Module StreamExtras.
Import Js JsFacts ClaudeRelayService HealthFacts StreamFacts.

(** The text written to the client. *)
Fixpoint written (ops : list clientOp) : string :=
  match ops with
  | [] => ""
  | Write chunk :: rest => chunk +:+ written rest
  | _ :: rest => written rest
  end.

Lemma written_app (a b : list clientOp) : written (a ++ b) = written a +:+ written b.
Proof.
  induction a as [|[] a IH]; cbn [app written]; try done.
  by rewrite IH, append_assoc.
Qed.

Lemma join_cons2 (sep a b : string) (l : list string) :
  join sep (a :: b :: l) = a +:+ sep +:+ join sep (b :: l).
Proof. done. Qed.

Lemma join_split (sep : ascii) (s : string) : join (String sep "") (split sep s) = s.
Proof.
  induction s as [|c s IH]; [done |]. cbn [split].
  destruct (Ascii.eqb_spec c sep) as [->|Hne].
  - destruct (split sep s) as [|h t] eqn:E; [by destruct (split_nonempty sep s) |].
    by rewrite join_cons2, IH.
  - destruct (split sep s) as [|h t] eqn:E; [by destruct (split_nonempty sep s) |].
    destruct t as [|h' t].
    + cbn [join] in *. by rewrite IH.
    + rewrite join_cons2. rewrite join_cons2 in IH. by rewrite <- IH.
Qed.

Lemma join_snoc (sep : string) (l : list string) (x : string) :
  l <> [] -> join sep (l ++ [x]) = join sep l +:+ sep +:+ x.
Proof.
  induction l as [|a l IH]; [done |]. intros _.
  destruct l as [|b l]; [done |].
  cbn [app]. rewrite !join_cons2. cbn [app] in IH. rewrite IH by done.
  by rewrite !append_assoc.
Qed.

(** The complete lines and the rest after the last line feed: together
    they are the text. *)
Lemma lines_and_rest (s : string) :
  let pieces := split LF s in
  (removelast pieces = [] /\ List.last pieces "" = s)
  \/ (removelast pieces <> []
      /\ join nl (removelast pieces) +:+ nl +:+ List.last pieces "" = s).
Proof.
  cbv zeta. pose proof (split_nonempty LF s) as Hne. pose proof (join_split LF s) as Hj.
  rewrite (app_removelast_last "" Hne) in Hj.
  destruct (removelast (split LF s)) as [|l ls] eqn:E.
  - left. split; [done |]. exact Hj.
  - right. split; [done |]. rewrite join_snoc in Hj by done. exact Hj.
Qed.

(** What the usage capture leaves alone: everything but its own
    bookkeeping. *)
Definition sameClient (st st' : streamState) : Prop :=
  clientOps st' = clientOps st /\ buffer st' = buffer st
  /\ headersSent st' = headersSent st /\ errorData st' = errorData st
  /\ upstreamClosed st' = upstreamClosed st.

Lemma sameClient_refl (st : streamState) : sameClient st st.
Proof. by repeat split. Qed.

Lemma sameClient_trans (a b c : streamState) :
  sameClient a b -> sameClient b c -> sameClient a c.
Proof. intros (?&?&?&?&?) (?&?&?&?&?). repeat split; congruence. Qed.

Lemma onMessageStart_client (data : json) (st st' : streamState) :
  onMessageStart data st = Ok st' -> sameClient st st'.
Proof.
  unfold onMessageStart. intros H.
  destruct (get "message" data) as [message|]; [|by simplify_eq; apply sameClient_refl].
  destruct (get "usage" message) as [usage|]; [|by simplify_eq; apply sameClient_refl].
  destruct (_ && _); [|by simplify_eq; apply sameClient_refl].
  destruct (match input_tokens _ with Some _ => _ | None => _ end) as [allU cur].
  do 3 tokens_case H.
  destruct (get "cache_creation" usage) as [c|]; cbn [mbind result_bind] in H.
  - destruct (_ && _); cbn [mbind result_bind] in H.
    + do 2 tokens_case H. by simplify_eq.
    + by simplify_eq.
  - by simplify_eq.
Qed.

Lemma onMessageDelta_client (data : json) (st st' : streamState) :
  onMessageDelta data st = Ok st' -> sameClient st st'.
Proof.
  unfold onMessageDelta. intros H.
  destruct (get "usage" data) as [usage|]; [|by simplify_eq; apply sameClient_refl].
  destruct (get "output_tokens" usage) as [out|]; [|by simplify_eq; apply sameClient_refl].
  destruct (_ && _); [|by simplify_eq; apply sameClient_refl].
  tokens_case H.
  destruct (input_tokens _); by simplify_eq.
Qed.

Lemma onErrorEvent_client (data : json) (st : streamState) :
  sameClient st (onErrorEvent data st).
Proof.
  unfold onErrorEvent.
  repeat match goal with
    | |- context [match ?x with _ => _ end] => destruct x eqn:?
    end; by repeat split.
Qed.

Lemma onLine_client (env : streamEnv) (st st' : streamState) (line : string) :
  onLine env st line = Ok st' -> sameClient st st'.
Proof.
  unfold onLine. destruct (startsWith line "data: " && _);
    [|intros [= <-]; apply sameClient_refl].
  destruct (JSON_parse _ _) as [data|]; [|intros [= <-]; apply sameClient_refl].
  assert (Hsteps :
    (st1 ← onMessageStart data st; st2 ← onMessageDelta data st1;
     Ok (onErrorEvent data st2)) = Ok st' -> sameClient st st').
  { destruct (onMessageStart data st) as [st1| |] eqn:E1;
      cbn [mbind result_bind]; try done.
    destruct (onMessageDelta data st1) as [st2| |] eqn:E2;
      cbn [mbind result_bind]; try done.
    intros [= <-].
    eapply sameClient_trans; [by eapply onMessageStart_client |].
    eapply sameClient_trans; [by eapply onMessageDelta_client |].
    apply onErrorEvent_client. }
  destruct data; exact Hsteps.
Qed.

Lemma onLines_client (env : streamEnv) (lines : list string) (st st' : streamState) :
  onLines env st lines = Ok st' -> sameClient st st'.
Proof.
  revert st. induction lines as [|line rest IH]; intros st; simpl.
  - intros [= <-]. apply sameClient_refl.
  - destruct (onLine env st line) as [st1| |] eqn:E1; cbn [mbind result_bind]; try done.
    intros H. eapply sameClient_trans; [by eapply onLine_client | by apply IH].
Qed.

Lemma onData_forward (env : streamEnv) (st st' : streamState) (chunk : string) :
  se_streamTransformer env = None -> destroyed st = false ->
  onData env st chunk = Ok st' ->
  written (clientOps st') +:+ buffer st'
  = written (clientOps st) +:+ buffer st +:+ chunk.
Proof.
  intros Hno Hd. unfold onData. intros H. apply onLines_client in H as (Hops & Hbuf & _).
  rewrite Hops, Hbuf. clear Hops Hbuf.
  destruct (lines_and_rest (buffer st +:+ chunk)) as [[E Hlast] | [Hne Hjoin]].
  - rewrite E. cbn [set_buffer clientOps buffer]. by rewrite Hlast.
  - destruct (removelast (split LF (buffer st +:+ chunk))) as [|l ls] eqn:E; [done |].
    cbn [set_buffer destroyed]. rewrite Hd. unfold forward. rewrite Hno.
    cbn [client clientOps buffer set_buffer]. rewrite written_app. cbn [written].
    rewrite append_empty_r, !append_assoc. by rewrite Hjoin.
Qed.

Lemma step_data_forward (env : streamEnv) (st st' : streamState) (chunk : string) :
  se_streamTransformer env = None -> destroyed st = false ->
  step env st (EvData chunk) = Ok st' ->
  written (clientOps st') +:+ buffer st'
  = written (clientOps st) +:+ buffer st +:+ chunk.
Proof.
  intros Hno Hd. cbn [step].
  destruct (onData env st chunk) as [st1| |] eqn:E; cbn [mbind result_bind]; try done.
  intros [= <-]. rewrite <- (onData_forward env st st1 chunk Hno Hd E).
  by destruct (errorMode st1).
Qed.

(** The chunks the upstream sent, end to end. *)
Definition received (chunks : list string) : string := foldr String.append "" chunks.

Lemma run_data_forward (env : streamEnv) (chunks : list string) (st st' : streamState) :
  se_streamTransformer env = None -> destroyed st = false ->
  run env st (map EvData chunks) = Ok st' ->
  written (clientOps st') +:+ buffer st'
  = written (clientOps st) +:+ buffer st +:+ received chunks.
Proof.
  intros Hno. revert st. induction chunks as [|c cs IH]; intros st Hd.
  - intros [= <-]. cbn [received foldr]. by rewrite append_empty_r.
  - cbn [map run]. destruct (step env st (EvData c)) as [st1| |] eqn:E;
      cbn [mbind result_bind]; try done.
    intros H. pose proof (step_data_outside env st st1 c E) as (_ & _ & _ & _ & _ & Hd1).
    rewrite (IH st1) by (done || congruence).
    rewrite <- (append_assoc (written (clientOps st1))).
    rewrite (step_data_forward env st st1 c Hno Hd E).
    cbn [received foldr]. by rewrite !append_assoc.
Qed.

(** What the end listener writes after a 200, to a client that is there. *)
Lemma onEnd_clientOps (env : streamEnv) (st : streamState) :
  se_streamTransformer env = None -> destroyed st = false -> errorMode st = false ->
  clientOps (onEnd env st)
  = clientOps st
    ++ (if String.eqb (trim (buffer st)) "" then [] else [Write (buffer st)])
    ++ [End_].
Proof.
  intros Hno Hd He. unfold onEnd, forward. rewrite Hno, Hd.
  destruct (String.eqb (trim (buffer st)) ""); cbn [negb andb];
    repeat (progress (cbn -[endHealth mergeUsage]; rewrite ?Hd, ?He));
    destruct (input_tokens (currentUsageData st));
    repeat (progress (cbn -[endHealth mergeUsage]; rewrite ?Hd, ?He));
    destruct (allUsageData st);
    repeat (progress (cbn -[endHealth mergeUsage]; rewrite ?Hd, ?He));
    rewrite <- ?app_assoc; done.
Qed.

Lemma onEnd_settled (env : streamEnv) (st : streamState) :
  errorMode st = false -> settled st = None -> settled (onEnd env st) = Some Resolved.
Proof.
  intros He Hs. unfold onEnd.
  destruct (negb _ && negb _); destruct (destroyed st) eqn:Hd;
    repeat (progress (cbn -[endHealth mergeUsage forward]; rewrite ?Hd, ?He, ?Hs));
    destruct (input_tokens (currentUsageData st));
    repeat (progress (cbn -[endHealth mergeUsage forward]; rewrite ?Hd, ?He, ?Hs));
    destruct (allUsageData st);
    repeat (progress (cbn -[endHealth mergeUsage forward]; rewrite ?Hd, ?He, ?Hs));
    done.
Qed.

(** The state when the response has arrived, for a request that starts
    with nothing written. *)
Lemma answered_start (env : streamEnv) (headersSent0 : bool) (w0 : world)
    (status : Z) (hs : gmap string string) :
  let st := onResponse env (initialState headersSent0 w0) status hs in
  clientOps st = [] /\ buffer st = "" /\ destroyed st = false
  /\ settled st = None /\ errorMode st = negb (status =? 200).
Proof. unfold onResponse. cbn. by destruct (status =? 200). Qed.


Definition cutChunks : list string :=
  [ "event: pi"; "ng" +:+ nl +:+ "data: {}" +:+ nl +:+ nl +:+ "data: [DO"; "NE]" ].

Definition cutState : streamState :=
  Eval vm_compute in
    match _makeClaudeStreamRequestWithUsageCapture sseEnv true Fixtures.emptyWorld
            (answered 200 ∅ cutChunks) with
    | Ok st => st
    | _ => initialState true Fixtures.emptyWorld
    end.



Definition limitedChunks : list string :=
  [ "event: error" +:+ nl +:+ "data: {" +:+ Fixtures.q "type" +:+ ":"
    +:+ Fixtures.q "error" +:+ "," +:+ Fixtures.q "error" +:+ ":{"
    +:+ Fixtures.q "type" +:+ ":" +:+ Fixtures.q "rate_limit_error" +:+ ","
    +:+ Fixtures.q "message" +:+ ":"
    +:+ Fixtures.q "This request would EXCEED your account's rate limit."
    +:+ "}}" +:+ nl +:+ nl ].

Definition limitedState : streamState :=
  Eval vm_compute in
    match _makeClaudeStreamRequestWithUsageCapture sseEnv true
            (Fixtures.worldWith401 "acct-1")
            (answered 200 {[ "anthropic-ratelimit-unified-reset" := "1700000000" ]}
               limitedChunks) with
    | Ok st => st
    | _ => initialState true Fixtures.emptyWorld
    end.


Lemma failClient_fields (status : Z) (payload : list (string * json))
    (st : streamState) :
  let st' := failClient status payload st in
  clientOps st'
  = clientOps st ++ (if headersSent st then [] else [WriteHead status])
    ++ (if destroyed st then [] else errorFrame payload)
  /\ settled st' = settled st /\ upstreamClosed st' = upstreamClosed st.
Proof.
  unfold failClient.
  destruct (headersSent st), (destroyed st) eqn:Ed; cbn [client destroyed];
    rewrite ?Ed; cbn [client clientOps settled upstreamClosed];
    rewrite ?app_nil_r, <- ?app_assoc; done.
Qed.

(** The status line of the reply to a stream error. *)
Definition errorStatus (code : string) : Z := (classifyStreamError code).2.

(** X10. An error or a time-out of the upstream stream is answered to the
    client and is not held against the account: the world (counters,
    marks, usage callback) is left as it was. The client gets a status
    line only if no headers were sent before, 502 for [ECONNRESET],
    [ENOTFOUND] and [ECONNREFUSED], 504 for [ETIMEDOUT] and for a
    time-out, 500 for any other code; then, unless it is gone, one error
    event and the end of the response. The promise is rejected unless it
    was settled before; a time-out also closes the upstream stream. *)
Theorem stream_failure_reply (env : streamEnv) (st : streamState) (code : string) :
  let failed := onError env st code in
  let timedOut := onTimeout env st in
  w failed = w st /\ w timedOut = w st
  /\ (exists payload,
        clientOps failed
        = clientOps st
          ++ (if headersSent st then [] else [WriteHead (errorStatus code)])
          ++ (if destroyed st then [] else errorFrame payload))
  /\ (exists payload,
        clientOps timedOut
        = clientOps st
          ++ (if headersSent st then [] else [WriteHead 504])
          ++ (if destroyed st then [] else errorFrame payload))
  /\ errorStatus code
     = (if bool_decide (code ∈ ["ECONNRESET"; "ENOTFOUND"; "ECONNREFUSED"]) then 502
        else if String.eqb code "ETIMEDOUT" then 504 else 500)
  /\ (settled st = None ->
      settled failed = Some (Rejected code)
      /\ settled timedOut = Some (Rejected "Request timeout"))
  /\ upstreamClosed timedOut = true.
Proof.
  cbv zeta. unfold onError, onTimeout, errorStatus.
  destruct (classifyStreamError code) as [message status] eqn:Ec.
  cbn [settle w clientOps settled upstreamClosed].
  rewrite !failClient_w.
  match goal with
  | |- context [failClient status ?p st] =>
      destruct (failClient_fields status p st) as (-> & -> & _)
  end.
  match goal with
  | |- context [failClient 504 ?p ?s] =>
      destruct (failClient_fields 504 p s) as (-> & -> & ->)
  end.
  cbn [closeUpstream w clientOps headersSent destroyed settled upstreamClosed].
  rewrite orb_false_r.
  repeat split; try by eexists.
  - revert Ec. unfold classifyStreamError.
    destruct (String.eqb_spec code "ECONNRESET") as [->|?]; [by intros [= <- <-] |].
    destruct (String.eqb_spec code "ENOTFOUND") as [->|?]; [by intros [= <- <-] |].
    destruct (String.eqb_spec code "ECONNREFUSED") as [->|?]; [by intros [= <- <-] |].
    rewrite bool_decide_eq_false_2 by set_solver.
    destruct (String.eqb code "ETIMEDOUT"); by intros [= <- <-].
  - by rewrite H.
  - by rewrite H.
Qed.

(** A connection reset before anything was sent. *)
Example stream_reset_before_headers :
  match _makeClaudeStreamRequestWithUsageCapture sseEnv false
          (Fixtures.worldWith401 "acct-1") [EvError "ECONNRESET"] with
  | Ok st => Some (clientOps st, settled st, calls (w st))
  | _ => None
  end
  = Some ([ WriteHead 502; Write ("event: error" +:+ nl);
            WriteErrorData [ ("error", JStr "Connection reset by Claude API server");
                             ("code", JStr "ECONNRESET");
                             ("timestamp", JStr "2025-01-01T00:00:00.000Z") ];
            End_ ],
          Some (Rejected "ECONNRESET"), []).
Proof. vm_compute. reflexivity. Qed.

End StreamExtras.

(** ** The streaming request: a stream that cannot be opened *)

Module SetupFacts.
Import Js JsFacts BetaHeaderManager ClaudeRelayService HealthFacts StreamFacts.



End SetupFacts.

(** ** The session pool: the cleanup round and closing the pool *)

Module PoolExtras.
Import Js Http2Client PoolFacts.

(** Idle for more than [sessionTimeout] at [now]. *)
Definition idle (now : Z) (e : sessionInfo) : bool := sessionTimeout <? now - lastUsed e.

Lemma markSession_closes (sid : nat) (d : bool) (p : pool) :
  closed (deref (markSession sid true d p) sid) = true.
Proof.
  unfold markSession, deref. destruct (heap p !! sid) as [o|] eqn:E.
  - cbn [heap]. rewrite lookup_insert_eq. cbn. apply orb_true_r.
  - by rewrite E.
Qed.

Lemma markSession_closed_mono (sid sid' : nat) (c d : bool) (p : pool) :
  closed (deref p sid') = true -> closed (deref (markSession sid c d p) sid') = true.
Proof.
  unfold markSession, deref. destruct (heap p !! sid) as [o|] eqn:E; [|done].
  cbn [heap]. destruct (decide (sid' = sid)) as [->|Hne].
  - rewrite lookup_insert_eq, E. cbn. by intros ->.
  - by rewrite lookup_insert_ne.
Qed.

Lemma cleanupEntry_sessions (now : Z) (p : pool) (entry : string * sessionInfo) :
  sessions (cleanupEntry now p entry)
  = (if idle now entry.2 then delete entry.1 (sessions p) else sessions p)
  /\ created (cleanupEntry now p entry) = created p.
Proof.
  unfold cleanupEntry, idle. destruct (sessionTimeout <? _); [|done].
  cbn [sessions created]. unfold markSession. by destruct (heap p !! _).
Qed.

Lemma cleanupEntry_closed_mono (now : Z) (p : pool) (entry : string * sessionInfo)
    (sid : nat) :
  closed (deref p sid) = true -> closed (deref (cleanupEntry now p entry) sid) = true.
Proof.
  intros H. unfold cleanupEntry. destruct (sessionTimeout <? _); [|done].
  apply (markSession_closed_mono (session entry.2) sid true false p) in H.
  exact H.
Qed.

Lemma cleanupEntry_closes (now : Z) (p : pool) (entry : string * sessionInfo) :
  idle now entry.2 = true ->
  closed (deref (cleanupEntry now p entry) (session entry.2)) = true.
Proof.
  unfold cleanupEntry, idle. intros ->.
  exact (markSession_closes (session entry.2) false p).
Qed.

(** The fold of the cleanup round over a list of entries. *)
Lemma cleanup_fold (now : Z) (entries : list (string * sessionInfo)) (p : pool)
    (key : string) :
  let q := fold_left (cleanupEntry now) entries p in
  sessions q !! key
  = (if existsb (fun entry => bool_decide (entry.1 = key) && idle now entry.2) entries
     then None else sessions p !! key)
  /\ created q = created p
  /\ (forall sid, closed (deref p sid) = true -> closed (deref q sid) = true)
  /\ (forall entry, entry ∈ entries -> idle now entry.2 = true ->
        closed (deref q (session entry.2)) = true).
Proof.
  cbv zeta. revert p. induction entries as [|entry entries IH]; intros p.
  - cbn. repeat split; try done. intros entry H. by apply elem_of_nil in H.
  - cbn [fold_left existsb].
    destruct (IH (cleanupEntry now p entry)) as (Hs & Hc & Hmono & Hclosed).
    destruct (cleanupEntry_sessions now p entry) as (Es & Ec).
    repeat split.
    + rewrite Hs, Es. destruct (existsb _ entries).
      * by rewrite orb_true_r.
      * rewrite orb_false_r. destruct (idle now entry.2); [|by rewrite andb_false_r].
        rewrite andb_true_r. case_bool_decide as Hk.
        -- subst. apply lookup_delete_eq.
        -- by apply lookup_delete_ne.
    + by rewrite Hc, Ec.
    + intros sid H. by apply Hmono, cleanupEntry_closed_mono.
    + intros e He Hidle. apply elem_of_cons in He as [->|He].
      * by apply Hmono, cleanupEntry_closes.
      * by apply Hclosed.
Qed.

(** X11. A cleanup round keeps exactly the entries that were used within
    the last five minutes, unchanged, and drops every other one; the
    session of a dropped entry is closed (sessions that were closed stay
    so). *)
Theorem cleanup_keeps_recent_sessions (now : Z) (p : pool) :
  (forall key e,
     sessions (cleanup now p) !! key = Some e
     <-> sessions p !! key = Some e /\ now - lastUsed e <= sessionTimeout)
  /\ (forall key e,
        sessions p !! key = Some e -> sessionTimeout < now - lastUsed e ->
        sessions (cleanup now p) !! key = None
        /\ closed (deref (cleanup now p) (session e)) = true)
  /\ (forall sid, closed (deref p sid) = true -> closed (deref (cleanup now p) sid) = true).
Proof.
  unfold cleanup.
  assert (Hex : forall key,
            existsb (fun entry : string * sessionInfo =>
                       bool_decide (entry.1 = key) && idle now entry.2)
                    (map_to_list (sessions p)) = true
            <-> exists e, sessions p !! key = Some e /\ idle now e = true).
  { intros key. rewrite existsb_exists. split.
    - intros ([k e] & Hin & H). apply andb_true_iff in H as [Hk Hi].
      apply bool_decide_eq_true in Hk. cbn in Hk, Hi. subst k.
      exists e. split; [|done]. apply elem_of_map_to_list. by apply list_elem_of_In.
    - intros (e & He & Hi). exists (key, e). split.
      + apply list_elem_of_In. by apply elem_of_map_to_list.
      + cbn. rewrite Hi. by rewrite bool_decide_eq_true_2. }
  assert (Hidle : forall e, idle now e = true <-> sessionTimeout < now - lastUsed e).
  { intros e. unfold idle. apply Z.ltb_lt. }
  split; [|split].
  - intros key e.
    destruct (cleanup_fold now (map_to_list (sessions p)) p key) as (-> & _).
    destruct (existsb _ _) eqn:E.
    + apply Hex in E as (e' & He' & Hi). apply Hidle in Hi. split; [done |].
      intros [He Hle]. rewrite He in He'. injection He' as <-. lia.
    + split; [|by intros [? _]]. intros He. split; [done |].
      destruct (Z.leb_spec (now - lastUsed e) sessionTimeout) as [|Hlt]; [done |].
      assert (Hyes : existsb (fun entry : string * sessionInfo =>
                         bool_decide (entry.1 = key) && idle now entry.2)
                      (map_to_list (sessions p)) = true).
      { apply Hex. exists e. split; [done | by apply Hidle]. }
      congruence.
  - intros key e He Hlt.
    destruct (cleanup_fold now (map_to_list (sessions p)) p key) as (-> & _ & _ & Hc).
    assert (Hyes : existsb (fun entry : string * sessionInfo =>
                       bool_decide (entry.1 = key) && idle now entry.2)
                    (map_to_list (sessions p)) = true).
    { apply Hex. exists e. split; [done | by apply Hidle]. }
    rewrite Hyes. split; [done |].
    apply (Hc (key, e)); [by apply elem_of_map_to_list | by apply Hidle].
  - intros sid.
    destruct (cleanup_fold now (map_to_list (sessions p)) p "") as (_ & _ & Hm & _).
    apply Hm.
Qed.

Lemma closeAll_fold (entries : list (string * sessionInfo)) (p : pool) :
  let q := fold_left (fun q (entry : string * sessionInfo) =>
                        markSession (session entry.2) true false q) entries p in
  created q = created p
  /\ (forall sid, closed (deref p sid) = true -> closed (deref q sid) = true)
  /\ (forall entry, entry ∈ entries -> closed (deref q (session entry.2)) = true).
Proof.
  cbv zeta. revert p. induction entries as [|entry entries IH]; intros p.
  - cbn. repeat split; try done. intros entry H. by apply elem_of_nil in H.
  - cbn [fold_left].
    destruct (IH (markSession (session entry.2) true false p)) as (Hc & Hmono & Hclosed).
    split; [|split].
    + rewrite Hc. unfold markSession. by destruct (heap p !! _).
    + intros sid H. by apply Hmono, markSession_closed_mono.
    + intros e He. apply elem_of_cons in He as [->|He].
      * apply Hmono, markSession_closes.
      * by apply Hclosed.
Qed.

(** X12. [closeAll] empties the pool and closes every session that was in
    it; sessions that were handed out before can no longer be told usable
    through the pool, and the next request for any host creates a new
    session. *)
Theorem closeAll_closes_every_pooled_session (p : pool) :
  sessions (closeAll p) = ∅
  /\ (forall key e,
        sessions p !! key = Some e -> usable (closeAll p) (session e) = false)
  /\ (forall hostname port now,
        (getSession hostname port now true (closeAll p)).1 = Ok (fresh (closeAll p))
        /\ heap (closeAll p) !! fresh (closeAll p) = None)
  /\ created (closeAll p) = created p.
Proof.
  destruct (closeAll_fold (map_to_list (sessions p)) p) as (Hc & _ & Hclosed).
  split; [done |]. split; [|split].
  - intros key e He. unfold usable.
    assert (H : closed (deref (closeAll p) (session e)) = true).
    { apply (Hclosed (key, e)). by apply elem_of_map_to_list. }
    by rewrite H.
  - intros hostname port now. split; [|apply fresh_unused].
    unfold getSession, getSession_lookup. cbn [closeAll sessions].
    by rewrite lookup_empty.
  - exact Hc.
Qed.

(** A session in use when the pool is closed. *)
Example closeAll_then_request :
  let p := runOps [Lookup "h:443" 0; Store "h:443" 0] emptyPool in
  usable p 1 = true
  /\ usable (closeAll p) 1 = false
  /\ (getSession "h" "443" 5 true (closeAll p)).1 = Ok 2%nat.
Proof. vm_compute. done. Qed.

End PoolExtras.

(** ** HTTP/2 header blocks *)

Module WireFacts.
Import Js JsFacts Http2Client.

Lemma lower_ascii_idem (c : ascii) : lower_ascii (lower_ascii c) = lower_ascii c.
Proof. destruct c as [[] [] [] [] [] [] [] []]; vm_compute; reflexivity. Qed.

Lemma toLowerCase_idem (s : string) : toLowerCase (toLowerCase s) = toLowerCase s.
Proof. induction s as [|c s IH]; [done |]. cbn. by rewrite lower_ascii_idem, IH. Qed.

Lemma lower_ascii_colon (c : ascii) :
  Ascii.eqb (lower_ascii c) ":" = Ascii.eqb c ":".
Proof. destruct c as [[] [] [] [] [] [] [] []]; vm_compute; reflexivity. Qed.

Lemma startsWith_colon (s : string) :
  startsWith s ":" = match s with String c _ => Ascii.eqb c ":" | EmptyString => false end.
Proof.
  unfold startsWith. destruct s as [|c s]; [done |].
  destruct c as [[] [] [] [] [] [] [] []]; cbn; try reflexivity; by destruct s.
Qed.

Lemma startsWith_colon_lower (s : string) :
  startsWith (toLowerCase s) ":" = startsWith s ":".
Proof.
  rewrite !startsWith_colon. destruct s as [|c s]; [done |]. cbn.
  apply lower_ascii_colon.
Qed.

(** A header name as HTTP/2 wants it. *)
Definition wireName (k : string) : Prop :=
  toLowerCase k = k /\ startsWith k ":" = false.

Lemma normalizeHeaders_names (headers : list (string * string)) (k v : string) :
  normalizeHeaders headers !! k = Some v -> wireName k.
Proof.
  unfold normalizeHeaders.
  assert (H : forall acc : gmap string string,
            (forall k v, acc !! k = Some v -> wireName k) ->
            forall k v,
              fold_left (fun normalized (kv : string * string) =>
                           if startsWith kv.1 ":" then normalized
                           else <[toLowerCase kv.1 := kv.2]> normalized)
                        headers acc !! k = Some v -> wireName k).
  { induction headers as [|[k0 v0] headers IH]; intros acc Hacc; [exact Hacc |].
    cbn [fold_left fst snd]. apply IH.
    destruct (startsWith k0 ":") eqn:E; [exact Hacc |].
    intros k' v' Hk. destruct (decide (k' = toLowerCase k0)) as [->|Hne].
    - split; [apply toLowerCase_idem | by rewrite startsWith_colon_lower].
    - rewrite lookup_insert_ne in Hk by done. by apply (Hacc k' v'). }
  apply H. intros k' v' Hk. by rewrite lookup_empty in Hk.
Qed.

Lemma normalizeHeaders_pseudo (headers : list (string * string)) (k : string) :
  startsWith k ":" = true -> normalizeHeaders headers !! k = None.
Proof.
  intros Hk. destruct (normalizeHeaders headers !! k) as [v|] eqn:E; [|done].
  apply normalizeHeaders_names in E as [_ E]. congruence.
Qed.

(** The last entry of a name wins. *)
Lemma normalizeHeaders_snoc (headers : list (string * string)) (k v : string) :
  startsWith k ":" = false ->
  normalizeHeaders (headers ++ [(k, v)]) = <[toLowerCase k := v]> (normalizeHeaders headers).
Proof.
  intros Hk. unfold normalizeHeaders. rewrite fold_left_app. cbn [fold_left fst snd].
  by rewrite Hk.
Qed.


(** A caller that passes pseudo headers of its own, and one name twice. *)
Example header_block_of_a_request :
  http2Headers false (Some "POST") "/v1/messages?beta=true" "api.anthropic.com"
    [ (":authority", "evil.example"); ("Authorization", "Bearer a");
      ("authorization", "Bearer b") ]
  = {[ ":method" := "POST"; ":path" := "/v1/messages?beta=true"; ":scheme" := "https";
       ":authority" := "api.anthropic.com"; "authorization" := "Bearer b" ]}.
Proof. vm_compute. reflexivity. Qed.

End WireFacts.

(** ** Proxy helper: rejected descriptors, validation, the cache, masking *)

Module ProxyExtras.
Import Js ProxyHelper ProxyFacts.

(** X14. A call of [createProxyAgent] that answers [null] (no descriptor,
    text that does not parse, a missing type, host or port, a type that
    is not supported, a URL the agent constructor refuses) changes
    nothing: the cache and the hit and miss counters are as before. *)
Theorem rejected_descriptor_changes_nothing (env : environment)
    (proxyConfig useIPv4 : option json) (s s' : state) :
  createProxyAgent env proxyConfig useIPv4 s = (None, s') -> s' = s.
Proof.
  unfold createProxyAgent.
  destruct proxyConfig as [pc|]; [|by intros [= <-]].
  destruct (negb (truthy pc)); [by intros [= <-] |].
  destruct (parseConfig env pc) as [proxy|]; [|by intros [= <-]].
  assert (Hmain :
    (if negb (truthy_opt (get "type" proxy)) || negb (truthy_opt (get "host" proxy))
        || negb (truthy_opt (get "port" proxy))
     then (None, s)
     else
       match agentCache s !! cacheKey proxy with
       | Some cachedAgent =>
           (Some cachedAgent,
            {| agentCache := agentCache s; hits := S (hits s);
               misses := misses s; nextRef := nextRef s |})
       | None =>
           let preference := _getIPFamilyPreference env useIPv4 in
           let auth :=
             if truthy_opt (get "username" proxy) && truthy_opt (get "password" proxy)
             then interpolate (get "username" proxy) +:+ ":"
                  +:+ interpolate (get "password" proxy) +:+ "@"
             else "" in
           let fam := match preference with
                      | Some true => Some 4
                      | Some false => Some 6
                      | None => None
                      end in
           let build (k : agentKind) (u : string) :=
             if acceptsUrl env u then
               let a := {| ref := nextRef s; kind := k; proxyUrl := u; family := fam |} in
               (Some a,
                {| agentCache := <[cacheKey proxy := a]> (agentCache s); hits := hits s;
                   misses := S (misses s); nextRef := S (nextRef s) |})
             else (None, s) in
           if is_str "socks5" (get "type" proxy) then
             build SocksProxyAgent
               ("socks5h://" +:+ auth +:+ interpolate (get "host" proxy) +:+ ":"
                +:+ interpolate (get "port" proxy))
           else if is_str "http" (get "type" proxy) || is_str "https" (get "type" proxy) then
             build HttpsProxyAgent
               (interpolate (get "type" proxy) +:+ "://" +:+ auth
                +:+ interpolate (get "host" proxy) +:+ ":"
                +:+ interpolate (get "port" proxy))
           else (None, s)
       end) = (None, s') -> s' = s).
  { destruct (_ || _); [by intros [= <-] |].
    destruct (agentCache s !! cacheKey proxy); [done |]. cbv zeta.
    destruct (is_str "socks5" _); [|destruct (_ || _)];
      try destruct (acceptsUrl env _); try done; by intros [= <-]. }
  destruct proxy; exact Hmain.
Qed.

Lemma rejected_descriptor_changes_nothing_witness :
  (createProxyAgent proxyEnv (Some (JObj [("type", JStr "ftp"); ("host", JStr "p");
                                           ("port", JNum 21)])) None emptyState).2
  = emptyState.
Proof.
  apply (rejected_descriptor_changes_nothing proxyEnv
           (Some (JObj [("type", JStr "ftp"); ("host", JStr "p"); ("port", JNum 21)]))
           None emptyState). reflexivity.
Defined.

(** What a call of [createProxyAgent] can come to. *)
Inductive outcome (s : state) : option agent * state -> Prop :=
| Rejected : outcome s (None, s)
| Hit (key : string) (a : agent) :
    agentCache s !! key = Some a ->
    outcome s (Some a, {| agentCache := agentCache s; hits := S (hits s);
                          misses := misses s; nextRef := nextRef s |})
| Miss (key : string) (k : agentKind) (u : string) (fam : option Z) :
    agentCache s !! key = None ->
    outcome s (Some {| ref := nextRef s; kind := k; proxyUrl := u; family := fam |},
               {| agentCache :=
                    <[key := {| ref := nextRef s; kind := k; proxyUrl := u;
                                family := fam |}]> (agentCache s);
                  hits := hits s; misses := S (misses s); nextRef := S (nextRef s) |}).

Lemma createProxyAgent_outcome (env : environment) (proxyConfig useIPv4 : option json)
    (s : state) :
  outcome s (createProxyAgent env proxyConfig useIPv4 s).
Proof.
  unfold createProxyAgent.
  destruct proxyConfig as [pc|]; [|constructor].
  destruct (negb (truthy pc)); [constructor |].
  destruct (parseConfig env pc) as [proxy|]; [|constructor].
  assert (Hmain : outcome s
    (if negb (truthy_opt (get "type" proxy)) || negb (truthy_opt (get "host" proxy))
        || negb (truthy_opt (get "port" proxy))
     then (None, s)
     else
       match agentCache s !! cacheKey proxy with
       | Some cachedAgent =>
           (Some cachedAgent,
            {| agentCache := agentCache s; hits := S (hits s);
               misses := misses s; nextRef := nextRef s |})
       | None =>
           let preference := _getIPFamilyPreference env useIPv4 in
           let auth :=
             if truthy_opt (get "username" proxy) && truthy_opt (get "password" proxy)
             then interpolate (get "username" proxy) +:+ ":"
                  +:+ interpolate (get "password" proxy) +:+ "@"
             else "" in
           let fam := match preference with
                      | Some true => Some 4
                      | Some false => Some 6
                      | None => None
                      end in
           let build (k : agentKind) (u : string) :=
             if acceptsUrl env u then
               let a := {| ref := nextRef s; kind := k; proxyUrl := u; family := fam |} in
               (Some a,
                {| agentCache := <[cacheKey proxy := a]> (agentCache s); hits := hits s;
                   misses := S (misses s); nextRef := S (nextRef s) |})
             else (None, s) in
           if is_str "socks5" (get "type" proxy) then
             build SocksProxyAgent
               ("socks5h://" +:+ auth +:+ interpolate (get "host" proxy) +:+ ":"
                +:+ interpolate (get "port" proxy))
           else if is_str "http" (get "type" proxy) || is_str "https" (get "type" proxy) then
             build HttpsProxyAgent
               (interpolate (get "type" proxy) +:+ "://" +:+ auth
                +:+ interpolate (get "host" proxy) +:+ ":"
                +:+ interpolate (get "port" proxy))
           else (None, s)
       end)).
  { destruct (_ || _); [constructor |].
    destruct (agentCache s !! cacheKey proxy) eqn:Ec; [by econstructor |]. cbv zeta.
    destruct (is_str "socks5" _); [|destruct (_ || _)];
      try destruct (acceptsUrl env _); by econstructor. }
  destruct proxy; exact Hmain.
Qed.

(** Calls on the class, in any order. *)
Inductive cacheOp : Type :=
| CreateAgent (proxyConfig useIPv4 : option json)
| ClearCache (force : bool).

Definition applyCacheOp (env : environment) (s : state) (o : cacheOp) : state :=
  match o with
  | CreateAgent proxyConfig useIPv4 => (createProxyAgent env proxyConfig useIPv4 s).2
  | ClearCache force => clearCache force s
  end.

Definition runCache (env : environment) (ops : list cacheOp) : state :=
  fold_left (applyCacheOp env) ops emptyState.

Record cacheInv (s : state) : Prop := {
  inv_size : size (agentCache s) = misses s;
  inv_fresh : forall key a, agentCache s !! key = Some a -> (ref a < nextRef s)%nat;
  inv_distinct : forall k1 k2 a1 a2,
    agentCache s !! k1 = Some a1 -> agentCache s !! k2 = Some a2 ->
    ref a1 = ref a2 -> k1 = k2
}.

Lemma applyCacheOp_inv (env : environment) (s : state) (o : cacheOp) :
  cacheInv s -> cacheInv (applyCacheOp env s o).
Proof.
  intros [Hsize Hfresh Hdistinct]. destruct o as [pc use | force]; cbn [applyCacheOp].
  - destruct (createProxyAgent_outcome env pc use s) as [| key a Ha | key k u fam Hnone];
      cbn [snd]; split; cbn [agentCache misses nextRef]; try done.
    + by rewrite map_size_insert_None, Hsize.
    + intros key' a'. destruct (decide (key' = key)) as [->|Hne].
      * rewrite lookup_insert_eq. intros [= <-]. cbn. lia.
      * rewrite lookup_insert_ne by done. intros H. apply Hfresh in H. lia.
    + intros k1 k2 a1 a2.
      destruct (decide (k1 = key)) as [->|H1], (decide (k2 = key)) as [->|H2];
        rewrite ?lookup_insert_eq, ?lookup_insert_ne by done; try done.
      * intros [= <-] H2' Href. apply Hfresh in H2'. cbn in Href. lia.
      * intros H1' [= <-] Href. apply Hfresh in H1'. cbn in Href. lia.
      * apply Hdistinct.
  - destruct force; cbn [clearCache]; [|done].
    split; cbn [agentCache misses nextRef]; [done | |];
      intros *; by rewrite lookup_empty.
Qed.

Lemma emptyState_inv : cacheInv emptyState.
Proof. split; [done | |]; intros *; cbn; by rewrite lookup_empty. Qed.

(** X15. From the start of the process on, whatever descriptors are asked
    for and whenever the cache is cleared: the number of cached agents is
    the miss counter, and two different cache keys never share an agent
    object. A forced clear empties the cache and resets both counters; a
    clear that is not forced does nothing. *)
Theorem agent_cache_invariant (env : environment) (ops : list cacheOp) :
  let s := runCache env ops in
  size (agentCache s) = misses s
  /\ (forall k1 k2 a1 a2,
        agentCache s !! k1 = Some a1 -> agentCache s !! k2 = Some a2 ->
        ref a1 = ref a2 -> k1 = k2)
  /\ clearCache false s = s
  /\ agentCache (clearCache true s) = ∅
  /\ hits (clearCache true s) = 0%nat /\ misses (clearCache true s) = 0%nat.
Proof.
  cbv zeta.
  assert (H : cacheInv (runCache env ops)).
  { unfold runCache. generalize emptyState, emptyState_inv.
    induction ops as [|o ops IH]; intros s Hs; [done |].
    cbn [fold_left]. by apply IH, applyCacheOp_inv. }
  destruct H as [Hsize _ Hdistinct]. repeat split; try done.
Qed.


Definition socksDescriptor : json :=
  JObj [("type", JStr "socks5"); ("host", JStr "10.0.0.1"); ("port", JStr "1080")].


(** The converse fails: [createProxyAgent] does not look at the port's
    range. *)
Example unvalidated_port_still_gets_an_agent :
  let descriptor := JObj [("type", JStr "http"); ("host", JStr "p"); ("port", JNum 99999)] in
  validateProxyConfig proxyEnv (Some descriptor) = false
  /\ (createProxyAgent proxyEnv (Some descriptor) None emptyState).1
     = Some {| ref := 0; kind := HttpsProxyAgent; proxyUrl := "http://p:99999";
               family := Some 4 |}.
Proof. vm_compute. done. Qed.

(** A descriptor with its password replaced. *)
Definition withPassword (password : string) (fields : list (string * json)) : json :=
  JObj (assoc_set "password" (JStr password) fields).

Lemma withPassword_other (password k : string) (fields : list (string * json)) :
  k <> "password" -> get k (withPassword password fields) = assoc_get k fields.
Proof. intros Hk. cbn [withPassword get]. by apply BodyFacts.assoc_get_set_ne. Qed.

Lemma withPassword_password (password : string) (fields : list (string * json)) :
  get "password" (withPassword password fields) = Some (JStr password).
Proof. cbn [withPassword get]. apply BodyFacts.assoc_get_set_eq. Qed.

(** X17. What the helper writes about a proxy for logs does not tell the
    password: the description of [getProxyDescription] is the same for
    any two non-empty passwords, and the text of [maskProxyInfo] is the
    same for any two non-empty passwords with the same number of
    characters up to 8, so it depends on the password only through its
    length, capped at 8. *)
Theorem proxy_log_text_hides_password (env : environment)
    (fields : list (string * json)) (p1 p2 : string) :
  p1 <> "" -> p2 <> "" ->
  getProxyDescription env (Some (withPassword p1 fields))
  = getProxyDescription env (Some (withPassword p2 fields))
  /\ (Nat.min 8 (strlen p1) = Nat.min 8 (strlen p2) ->
      maskProxyInfo env (Some (withPassword p1 fields))
      = maskProxyInfo env (Some (withPassword p2 fields))).
Proof.
  intros H1 H2.
  assert (Ht : forall p, p <> "" -> truthy_opt (Some (JStr p)) = true).
  { intros p Hp. cbn. by destruct (String.eqb_spec p ""). }
  unfold getProxyDescription, maskProxyInfo.
  cbn [truthy withPassword negb parseConfig].
  change (JObj (assoc_set "password" (JStr p1) fields)) with (withPassword p1 fields).
  change (JObj (assoc_set "password" (JStr p2) fields)) with (withPassword p2 fields).
  rewrite !withPassword_password, !withPassword_other by done.
  rewrite !Ht by done. split; [done |]. intros Hlen.
  destruct (truthy_opt (assoc_get "username" fields) && true); [|done].
  destruct (assoc_get "username" fields) as [[]|]; try done. by rewrite Hlen.
Qed.

Lemma proxy_log_text_hides_password_witness :
  getProxyDescription proxyEnv
    (Some (withPassword "hunter2" [("type", JStr "http"); ("host", JStr "p");
                                   ("port", JNum 8080); ("username", JStr "alice")]))
  = getProxyDescription proxyEnv
      (Some (withPassword "secret!" [("type", JStr "http"); ("host", JStr "p");
                                     ("port", JNum 8080); ("username", JStr "alice")]))
  /\ (Nat.min 8 (strlen "hunter2") = Nat.min 8 (strlen "secret!") ->
      maskProxyInfo proxyEnv
        (Some (withPassword "hunter2" [("type", JStr "http"); ("host", JStr "p");
                                       ("port", JNum 8080); ("username", JStr "alice")]))
      = maskProxyInfo proxyEnv
          (Some (withPassword "secret!" [("type", JStr "http"); ("host", JStr "p");
                                         ("port", JNum 8080);
                                         ("username", JStr "alice")]))).
Proof.
  apply (proxy_log_text_hides_password proxyEnv
           [("type", JStr "http"); ("host", JStr "p"); ("port", JNum 8080);
            ("username", JStr "alice")] "hunter2" "secret!"); discriminate.
Defined.

Example masked_proxy_text :
  maskProxyInfo proxyEnv
    (Some (withPassword "hunter2-and-more"
             [("type", JStr "http"); ("host", JStr "p"); ("port", JNum 8080);
              ("username", JStr "alice")]))
  = Ok "http://p:8080 (auth: a***e:********)".
Proof. vm_compute. reflexivity. Qed.

End ProxyExtras.

(** ** Relay service: header filter, versions, retries *)

Module MiscFacts.
Import Js JsFacts ClaudeRelayService.

(** X18. Of the client's headers [_filterClientHeaders] passes on, with
    name and value as they came, exactly those whose lower-cased name is
    in neither of its two lists: credentials ([authorization],
    [x-api-key], [proxy-authorization]), connection headers and browser
    headers are dropped in any letter case; the three names of the allow
    list are in neither list, so they pass like any other header. *)
Theorem filtered_client_headers (clientHeaders : gmap string string) (k v : string) :
  (_filterClientHeaders (Some clientHeaders) !! k = Some v
   <-> clientHeaders !! k = Some v
       /\ ((toLowerCase k) ∉ sensitiveHeaders) /\ ((toLowerCase k) ∉ browserHeaders))
  /\ ((toLowerCase k) ∈ allowedHeaders ->
      _filterClientHeaders (Some clientHeaders) !! k = clientHeaders !! k)
  /\ _filterClientHeaders None = ∅.
Proof.
  assert (Hallowed : forall x, x ∈ allowedHeaders ->
            (x ∉ sensitiveHeaders) /\ (x ∉ browserHeaders)).
  { intros x Hx. unfold allowedHeaders in Hx.
    repeat (apply elem_of_cons in Hx as [-> | Hx];
            [split; apply (bool_decide_unpack _); vm_compute; exact I |]).
    by apply elem_of_nil in Hx. }
  assert (Hf : forwardsHeader k = true
               <-> ((toLowerCase k) ∉ sensitiveHeaders) /\ ((toLowerCase k) ∉ browserHeaders)).
  { unfold forwardsHeader. cbv zeta. case_bool_decide as Ha.
    - split; [intros _; by apply Hallowed | done].
    - rewrite andb_true_iff, !negb_true_iff, !bool_decide_eq_false. done. }
  unfold _filterClientHeaders. cbn [default]. split; [|split].
  - rewrite map_lookup_filter_Some. cbn [fst]. rewrite Hf. tauto.
  - intros Ha. apply Hallowed in Ha. apply Hf in Ha.
    destruct (clientHeaders !! k) as [v'|] eqn:E.
    + apply map_lookup_filter_Some. by split.
    + apply map_lookup_filter_None. left. exact E.
  - apply map_filter_empty.
Qed.

Example client_headers_filtered :
  _filterClientHeaders
    (Some {[ "Authorization" := "Bearer client"; "X-API-KEY" := "k"; "Cookie" := "c";
             "x-request-id" := "r1"; "Accept" := "*/*"; "x-custom" := "1" ]})
  = {[ "Cookie" := "c"; "x-request-id" := "r1"; "x-custom" := "1" ]}.
Proof. vm_compute. reflexivity. Qed.

Lemma num_gt_asym (a b : jsnum) : num_gt a b = true -> num_gt b a = false.
Proof.
  destruct a as [|x], b as [|y]; try done. cbn. intros H.
  apply Z.ltb_lt in H. apply Z.ltb_ge. lia.
Qed.

Lemma num_gt_irrefl (a : jsnum) : num_gt a a = false.
Proof. destruct a as [|x]; [done |]. apply Z.ltb_irrefl. Qed.

Lemma compareParts_range (arr1 arr2 : list string) (i steps : nat) :
  compareParts arr1 arr2 i steps ∈ [-1; 0; 1].
Proof.
  revert i. induction steps as [|steps IH]; intros i; cbn [compareParts]; [set_solver |].
  destruct (num_gt _ _); [set_solver |]. destruct (num_gt _ _); [set_solver | apply IH].
Qed.

Lemma compareParts_swap (arr1 arr2 : list string) (i steps : nat) :
  compareParts arr2 arr1 i steps = - compareParts arr1 arr2 i steps.
Proof.
  revert i. induction steps as [|steps IH]; intros i; cbn [compareParts]; [done |].
  destruct (num_gt (versionPart arr1 i) (versionPart arr2 i)) eqn:E12.
  - by rewrite (num_gt_asym _ _ E12).
  - destruct (num_gt (versionPart arr2 i) (versionPart arr1 i)); [done | apply IH].
Qed.

Lemma compareParts_same (arr : list string) (i steps : nat) :
  compareParts arr arr i steps = 0.
Proof.
  revert i. induction steps as [|steps IH]; intros i; cbn [compareParts]; [done |].
  by rewrite num_gt_irrefl.
Qed.

Lemma compareSemanticVersions_facts (version1 version2 : string) :
  compareSemanticVersions version1 version2 ∈ [-1; 0; 1]
  /\ compareSemanticVersions version1 version1 = 0
  /\ compareSemanticVersions version2 version1
     = - compareSemanticVersions version1 version2.
Proof.
  unfold compareSemanticVersions. cbv zeta. split; [|split].
  - apply compareParts_range.
  - apply compareParts_same.
  - rewrite (Nat.max_comm (length (split "." version2))). apply compareParts_swap.
Qed.

(** X19. [compareSemanticVersions] answers -1, 0 or 1; a version equals
    itself; and swapping the two versions negates the answer, so of two
    versions at most one is greater than the other. *)
Theorem version_comparison_is_antisymmetric (version1 version2 : string) :
  compareSemanticVersions version1 version2 ∈ [-1; 0; 1]
  /\ compareSemanticVersions version1 version1 = 0
  /\ compareSemanticVersions version2 version1
     = - compareSemanticVersions version1 version2.
Proof. apply compareSemanticVersions_facts. Qed.

(** Parts are compared as numbers, a missing part is 0, and a part that is
    no number compares equal to anything. *)
Example version_comparisons :
  compareSemanticVersions "1.0.102" "1.0.99" = 1
  /\ compareSemanticVersions "1.0" "1.0.0" = 0
  /\ compareSemanticVersions "2" "10.1" = -1
  /\ compareSemanticVersions "1.beta" "1.5" = 0.
Proof. vm_compute. done. Qed.

(** X20. A user agent whose version cannot be read always replaces the
    cached one. Of two user agents with readable versions at most one
    replaces the other, and a user agent never replaces itself. *)
Theorem user_agent_replacement (newUA cachedUA : string) :
  (matchCliVersion newUA = None \/ matchCliVersion cachedUA = None ->
   compareClaudeCodeVersions newUA cachedUA = true)
  /\ (forall v1 v2, matchCliVersion newUA = Some v1 -> matchCliVersion cachedUA = Some v2 ->
        compareClaudeCodeVersions newUA cachedUA = true ->
        compareClaudeCodeVersions cachedUA newUA = false)
  /\ (forall v, matchCliVersion newUA = Some v ->
        compareClaudeCodeVersions newUA newUA = false).
Proof.
  unfold compareClaudeCodeVersions. split; [|split].
  - intros [-> | ->]; [done |]. by destruct (matchCliVersion newUA).
  - intros v1 v2 -> ->.
    destruct (compareSemanticVersions_facts v1 v2) as (_ & _ & ->).
    intros H. apply Z.ltb_lt in H. apply Z.ltb_ge. lia.
  - intros v ->.
    destruct (compareSemanticVersions_facts v v) as (_ & -> & _). done.
Qed.

Example user_agents_compared :
  matchCliVersion "claude-cli/1.0.102 (external, cli)" = Some "1.0.102"
  /\ matchCliVersion "Mozilla Claude-CLI/2.1.0.beta1-x (sdk)" = Some "2.1.0.beta1-x"
  /\ compareClaudeCodeVersions "claude-cli/1.0.102 (external, cli)"
       "claude-cli/1.0.99 (external, cli)" = true
  /\ compareClaudeCodeVersions "claude-cli/1.0.99 (external, cli)"
       "claude-cli/1.0.102 (external, cli)" = false
  /\ compareClaudeCodeVersions "curl/8.0" "claude-cli/1.0.99 (external, cli)" = true.
Proof. vm_compute. done. Qed.

(** The delay before the call that follows call number [j]. *)
Definition backoff (j : nat) : Z := 2 ^ Z.of_nat j * 1000.

Lemma retryFrom_success {A : Type} (attempt : nat -> string + A) (maxRetries : nat)
    (a : A) (k steps i : nat) (lastError : option string) :
  (i + steps = maxRetries)%nat -> (i <= k < maxRetries)%nat ->
  attempt k = inr a ->
  (forall j, (i <= j < k)%nat -> exists e, attempt j = inl e) ->
  retryFrom attempt maxRetries i steps lastError = (inr a, map backoff (seq i (k - i))).
Proof.
  revert i lastError. induction steps as [|steps IH]; intros i lastError Hsum Hk Ha Hfail;
    [lia |].
  cbn [retryFrom]. destruct (decide (i = k)) as [->|Hne].
  - rewrite Ha. by replace (k - k)%nat with 0%nat by lia.
  - destruct (Hfail i ltac:(lia)) as (e & ->).
    replace (i <? maxRetries - 1)%nat with true by (symmetry; apply Nat.ltb_lt; lia).
    rewrite (IH (S i) (Some e)); [| lia | lia | done | intros j Hj; apply Hfail; lia].
    replace (k - i)%nat with (S (k - S i)) by lia. done.
Qed.

Lemma retryFrom_failure {A : Type} (attempt : nat -> string + A) (maxRetries : nat)
    (steps i : nat) (lastError : option string) :
  (i + steps = maxRetries)%nat ->
  (forall j, (i <= j < maxRetries)%nat -> exists e, attempt j = inl e) ->
  retryFrom attempt maxRetries i steps lastError
  = (inl (match steps with
          | O => lastError
          | S _ => match attempt (maxRetries - 1)%nat with
                   | inl e => Some e
                   | inr _ => None
                   end
          end),
     map backoff (seq i (steps - 1))).
Proof.
  revert i lastError. induction steps as [|steps IH]; intros i lastError Hsum Hfail;
    [done |].
  cbn [retryFrom]. destruct (Hfail i ltac:(lia)) as (e & He). rewrite He.
  destruct steps as [|steps].
  - replace (i <? maxRetries - 1)%nat with false by (symmetry; apply Nat.ltb_ge; lia).
    cbn [retryFrom]. replace (maxRetries - 1)%nat with i by lia. by rewrite He.
  - replace (i <? maxRetries - 1)%nat with true by (symmetry; apply Nat.ltb_lt; lia).
    rewrite (IH (S i) (Some e)); [| lia | intros j Hj; apply Hfail; lia].
    replace (S (S steps) - 1)%nat with (S (S steps - 1)) by lia. done.
Qed.

(** X21. [_retryRequest] calls the request until it succeeds, at most
    [maxRetries] times, and answers with the first success; between two
    calls it waits 1000 ms times 2 to the number of failures so far
    (1000, 2000, 4000, ...). When every call fails it throws the error of
    the last call, without waiting after it; with [maxRetries] 0 no call
    is made and what is thrown is [undefined]. *)
Theorem retry_returns_first_success {A : Type} (attempt : nat -> string + A)
    (maxRetries : nat) :
  (forall k a,
     (k < maxRetries)%nat -> attempt k = inr a ->
     (forall j, (j < k)%nat -> exists e, attempt j = inl e) ->
     _retryRequest attempt maxRetries = (inr a, map backoff (seq 0 k)))
  /\ ((forall j, (j < maxRetries)%nat -> exists e, attempt j = inl e) ->
      _retryRequest attempt maxRetries
      = (inl (match maxRetries with
              | O => None
              | S _ => match attempt (maxRetries - 1)%nat with
                       | inl e => Some e
                       | inr _ => None
                       end
              end),
         map backoff (seq 0 (maxRetries - 1)))).
Proof.
  unfold _retryRequest. split.
  - intros k a Hk Ha Hfail.
    rewrite (retryFrom_success attempt maxRetries a k maxRetries 0 None);
      [ by replace (k - 0)%nat with k by lia | lia | lia | done
      | intros j Hj; apply Hfail; lia ].
  - intros Hfail. rewrite retryFrom_failure; [done | lia |].
    intros j Hj. apply Hfail. lia.
Qed.

(** The default of three tries: two failures, then a success. *)
Example retry_third_time_lucky :
  _retryRequest (fun i => if (i <? 2)%nat then inl "ECONNRESET" else inr i) 3
  = (inr 2%nat, [1000; 2000])
  /\ _retryRequest (A := nat) (fun i => inl ("failure " +:+ pretty i)) 3
     = (inl (Some "failure 2"), [1000; 2000])
  /\ _retryRequest (A := nat) (fun i => inl "never called") 0 = (inl None, []).
Proof. vm_compute. done. Qed.

End MiscFacts.

(** ** Request dumper: headers in a dump *)

Module DumperFacts.
Import Js RequestDumper.


Definition dumpedExample : gmap string string :=
  {[ "Authorization" := "Bearer sk-ant-oat01-secret"; "X-Api-Key" := "key";
     "anthropic-version" := "2023-06-01" ]}.


Example dumped_headers :
  sanitizeHeaders (Some dumpedExample)
  = {[ "Authorization" := "Bearer [MASKED]"; "X-Api-Key" := "[MASKED]";
       "anthropic-version" := "2023-06-01" ]}
  /\ sanitizeHeaders None = ∅.
Proof. vm_compute. done. Qed.

End DumperFacts.

(** ** The error chain of a non-streaming response *)

Module ChainFacts.
Import Js JsFacts ClaudeRelayService HealthFacts.



End ChainFacts.
